(** * Order-book reconstructor: a shallow embedding and its properties

    The development follows [orderbook-reconstructor.ts]: the class
    [OrderBookReconstructor] with its five private fields, the methods
    [initialize], [applyDelta], [getSnapshot], [reconstructAll], [iterate],
    [reconstructFinal] and the static [detectGaps].

    JavaScript numbers are IEEE 754 binary64 values, so they are modelled by
    Rocq's primitive [float]; the built-ins the class calls ([parseFloat],
    [Number.prototype.toString], [Number.prototype.toFixed],
    [Array.prototype.sort], [Array.prototype.slice], [Map], [Date]) are
    modelled in module [JS] after ECMA-262.

    The callers of the class in [resources/orderbook.ts], [historyTick] and
    [historyReconstructed], are modelled over the HTTP client they are
    given. *)

From Stdlib Require Import ZArith QArith Qround List Bool String Ascii Lia.
From Stdlib Require Import DecimalString Floats Permutation Sorted.
Import ListNotations.

Local Open Scope Z_scope.

(* ===================================================================== *)
(** * The JavaScript built-ins used by the reconstructor *)
(* ===================================================================== *)

Module JS.

(** ** Numbers *)

(** A JavaScript [number]. *)
Definition number := float.
Bind Scope float_scope with number.

Definition NaN : number := nan.
Definition Infinity : number := infinity.

(** [ToBoolean] on a number: [+0], [-0] and [NaN] are falsy. *)
Definition truthy (x : number) : bool :=
  negb (is_zero x || is_nan x).

(** [x === y] on numbers (IEEE equality: [NaN] differs from itself and the
    two zeros are equal). *)
Definition strictEq (x y : number) : bool := (x =? y)%float.

(** [SameValueZero], the key equality of [Map]. *)
Definition sameValueZero (x y : number) : bool :=
  (x =? y)%float || (is_nan x && is_nan y).

(** An integer or an infinity, the result of [ToIntegerOrInfinity]. *)
Inductive intOrInf := NegInf | Int (z : Z) | PosInf.

(** The mathematical value of a finite number, truncated towards zero. *)
Definition truncate (x : number) : Z :=
  match Prim2SF x with
  | S754_finite s m e =>
      let a := if 0 <=? e then Z.pos m * 2 ^ e else Z.pos m / 2 ^ (- e) in
      if s then - a else a
  | _ => 0
  end.

Definition toIntegerOrInfinity (x : number) : intOrInf :=
  match Prim2SF x with
  | S754_nan => Int 0
  | S754_zero _ => Int 0
  | S754_infinity s => if s then NegInf else PosInf
  | S754_finite _ _ _ => Int (truncate x)
  end.

(** The Number value for the rational [n / d] ([0 < n], [0 < d]): the
    nearest binary64 value, ties to even, overflowing to an infinity. *)
Definition roundRatio (neg : bool) (n d : positive) : number :=
  SF2Prim (SFdiv prec emax (S754_finite neg n 0) (S754_finite false d 0)).

(** The Number value for [m * 10 ^ e], [0 <= m]. *)
Definition ofDecimal (neg : bool) (m e : Z) : number :=
  match m with
  | Z.pos p =>
      if 0 <=? e then roundRatio neg (p * Z.to_pos (10 ^ e)) 1
      else roundRatio neg p (Z.to_pos (10 ^ (- e)))
  | _ => if neg then neg_zero else zero
  end.

(** ** Strings

    A string is a sequence of code units; the model keeps the code units
    below 256, which is where every character that matters to the numeric
    grammar lives. *)

Definition isWhiteSpace (c : ascii) : bool :=
  let k := nat_of_ascii c in
  ((9 <=? k)%nat && (k <=? 13)%nat) || (k =? 32)%nat || (k =? 160)%nat.

Fixpoint trimStart (s : string) : string :=
  match s with
  | String c s' => if isWhiteSpace c then trimStart s' else s
  | EmptyString => s
  end.

Definition digitValue (c : ascii) : option Z :=
  let k := nat_of_ascii c in
  if ((48 <=? k)%nat && (k <=? 57)%nat)%bool then Some (Z.of_nat (k - 48)) else None.

(** The longest run of decimal digits at the head of [s]: its value (with
    [acc] as the digits already read), its length, and the rest. *)
Fixpoint takeDigits (s : string) (acc : Z) (len : Z) : Z * Z * string :=
  match s with
  | String c s' =>
      match digitValue c with
      | Some d => takeDigits s' (10 * acc + d) (len + 1)
      | None => (acc, len, s)
      end
  | EmptyString => (acc, len, s)
  end.

Definition takeSign (s : string) : bool * string :=
  match s with
  | String "-"%char s' => (true, s')
  | String "+"%char s' => (false, s')
  | _ => (false, s)
  end.

(** The optional [ExponentPart] at the head of [s]; an [e] that is not
    followed by a signed integer is not part of the literal. *)
Definition takeExponent (s : string) : Z :=
  match s with
  | String c s' =>
      if (Ascii.eqb c "e" || Ascii.eqb c "E")%bool then
        let '(neg, s'') := takeSign s' in
        let '(v, len, _) := takeDigits s'' 0 0 in
        if len =? 0 then 0 else if neg then - v else v
      else 0
  | EmptyString => 0
  end.

(** [parseFloat(s)]: the value of the longest prefix of the trimmed string
    that is a [StrDecimalLiteral], [NaN] when there is none. *)
Definition parseFloat (s : string) : number :=
  let '(neg, s1) := takeSign (trimStart s) in
  if prefix "Infinity" s1 then (if neg then neg_infinity else infinity)
  else
    let '(ip, ilen, s2) := takeDigits s1 0 0 in
    match s2 with
    | String "."%char s3 =>
        let '(m, flen, s4) := takeDigits s3 ip 0 in
        if (ilen =? 0) && (flen =? 0) then NaN
        else ofDecimal neg m (takeExponent s4 - flen)
    | _ =>
        if ilen =? 0 then NaN
        else ofDecimal neg ip (takeExponent s2)
    end.

(** ** Rendering numbers *)

Local Open Scope string_scope.
Local Open Scope Z_scope.

(** The decimal digits of a non-negative integer. *)
Definition decimalDigits (z : Z) : string :=
  NilZero.string_of_uint (N.to_uint (Z.to_N z)).

Fixpoint zeros (n : nat) : string :=
  match n with
  | O => EmptyString
  | S n' => String "0"%char (zeros n')
  end.

(** [s] without its trailing zero digits. *)
Fixpoint stripZeros (s : string) : string :=
  match s with
  | String c s' =>
      match stripZeros s' with
      | EmptyString => if Ascii.eqb c "0" then EmptyString else String c EmptyString
      | t => String c t
      end
  | EmptyString => EmptyString
  end.

(** The mathematical value of a positive finite number [m * 2 ^ e]. *)
Definition rationalValue (m : positive) (e : Z) : Q :=
  if 0 <=? e then inject_Z (Z.pos m * 2 ^ e) else (Z.pos m # Z.to_pos (2 ^ (- e)))%Q.

Definition pow10 (q : Z) : Q :=
  if 0 <=? q then inject_Z (10 ^ q) else (1 # Z.to_pos (10 ^ (- q)))%Q.

(** The exponent [n] with [10 ^ (n - 1) <= v < 10 ^ n], for the positive
    finite numbers ([5e-324 <= v]). *)
Definition decimalExponent (v : Q) : Z :=
  Z.of_nat (String.length (decimalDigits (Qfloor (v * pow10 400)%Q))) - 400.

(** The integer [s] and exponent [q] for which [s * 10 ^ q] has [k] digits
    and is a closest such decimal to [x], when it reads back as [x]. *)
Definition decimalCandidate (x : number) (v : Q) (k : Z) : option (Z * Z) :=
  let q := decimalExponent v - k in
  let lo := Qfloor (v / pow10 q)%Q in
  let hi := lo + 1 in
  let okLo := Leibniz.eqb (ofDecimal false lo q) x in
  let okHi := Leibniz.eqb (ofDecimal false hi q) x in
  let pick :=
    match Qcompare (v / pow10 q - inject_Z lo)%Q (inject_Z hi - v / pow10 q)%Q with
    | Lt => lo
    | Gt => hi
    | Eq => if Z.even lo then lo else hi
    end in
  if okLo && okHi then Some (pick, q)
  else if okLo then Some (lo, q)
  else if okHi then Some (hi, q)
  else None.

(** The shortest decimal that reads back as [x]: the least [k] from [k0]
    on that has a candidate (17 digits always suffice). *)
Fixpoint shortestDecimal (fuel : nat) (x : number) (v : Q) (k : Z) : Z * Z :=
  match fuel with
  | O => (0, 0)
  | S fuel' =>
      match decimalCandidate x v k with
      | Some sq => sq
      | None => shortestDecimal fuel' x v (k + 1)
      end
  end.

(** The layout of [Number::toString] for the digits [ds] of [s] and the
    exponent [n] ([s * 10 ^ (n - k)], [k] the length of [ds]). *)
Definition layoutDecimal (ds : string) (n : Z) : string :=
  let k := Z.of_nat (String.length ds) in
  if (k <=? n) && (n <=? 21) then ds ++ zeros (Z.to_nat (n - k))
  else if (0 <? n) && (n <=? 21) then
    substring 0 (Z.to_nat n) ds ++ "." ++ substring (Z.to_nat n) (Z.to_nat (k - n)) ds
  else if (-6 <? n) && (n <=? 0) then "0." ++ zeros (Z.to_nat (- n)) ++ ds
  else
    let e := n - 1 in
    let es := (if e <? 0 then "e-" else "e+") ++ decimalDigits (Z.abs e) in
    if k =? 1 then ds ++ es
    else substring 0 1 ds ++ "." ++ substring 1 (Z.to_nat (k - 1)) ds ++ es.

(** [Number.prototype.toString()] (radix 10). *)
Definition numberToString (x : number) : string :=
  match Prim2SF x with
  | S754_nan => "NaN"
  | S754_zero _ => "0"
  | S754_infinity s => if s then "-Infinity" else "Infinity"
  | S754_finite s m e =>
      let '(sd, q) := shortestDecimal 17 (abs x) (rationalValue m e) 1 in
      let all := decimalDigits sd in
      let n := Z.of_nat (String.length all) + q in
      (if s then "-" else "") ++ layoutDecimal (stripZeros all) n
  end.

(** [Number.prototype.toFixed(f)]: below [10 ^ 21] the integer [n] nearest
    to [x * 10 ^ f] (the larger one on a tie), written with [f] fraction
    digits; the shortest decimal otherwise. *)
Definition numberToFixed (f : nat) (x : number) : string :=
  match Prim2SF x with
  | S754_finite s m e =>
      let v := rationalValue m e in
      if Qle_bool (pow10 21) v then numberToString x
      else
        let n := Qfloor (v * pow10 (Z.of_nat f) + (1 # 2))%Q in
        let ds := decimalDigits n in
        let k := String.length ds in
        let ds' := if (k <=? f)%nat then zeros (f + 1 - k) ++ ds else ds in
        let k' := String.length ds' in
        (if s then "-" else "") ++
        (if (f =? 0)%nat then ds'
         else substring 0 (k' - f) ds' ++ "." ++ substring (k' - f) f ds')
  | S754_zero _ => if (f =? 0)%nat then "0" else "0." ++ zeros f
  | _ => numberToString x
  end.

(** ** Dates *)

(** Abrupt completions: the exceptions in reach of the reconstructor are
    the [RangeError] of [Date.prototype.toISOString] and the [TypeError] of
    a property read on [undefined]. *)
Inductive exception := RangeError | TypeError.

Inductive completion (A : Type) :=
| Normal (a : A)
| Throw (e : exception).
Arguments Normal {A} a.
Arguments Throw {A} e.

(** [new Date(value)] for a number: the time value [TimeClip(value)], an
    integral number of milliseconds within 8.64e15 of the epoch, or
    [None] for the invalid date (time value [NaN]). *)
Definition newDate (value : number) : option Z :=
  match toIntegerOrInfinity value with
  | Int t => if is_nan value then None
             else if Z.abs t <=? 8640000000000000 then Some t else None
  | _ => None
  end.

(** [z] written with at least [w] digits. *)
Definition padded (w : nat) (z : Z) : string :=
  let ds := decimalDigits z in
  zeros (w - String.length ds) ++ ds.

(** Year, month and day of the day number [days] (days since the epoch) in
    the proleptic Gregorian calendar. *)
Definition civilFromDays (days : Z) : Z * Z * Z :=
  let z := days + 719468 in
  let era := z / 146097 in
  let doe := z mod 146097 in
  let yoe := (doe - doe / 1460 + doe / 36524 - doe / 146096) / 365 in
  let doy := doe - (365 * yoe + yoe / 4 - yoe / 100) in
  let mp := (5 * doy + 2) / 153 in
  let d := doy - (153 * mp + 2) / 5 + 1 in
  let m := if mp <? 10 then mp + 3 else mp - 9 in
  let y := yoe + era * 400 + (if m <=? 2 then 1 else 0) in
  (y, m, d).

(** The [YYYY-MM-DDTHH:mm:ss.sssZ] rendering of a time value. *)
Definition isoString (t : Z) : string :=
  let '(y, m, d) := civilFromDays (t / 86400000) in
  let ms := t mod 86400000 in
  let year :=
    if (0 <=? y) && (y <=? 9999) then padded 4 y
    else (if y <? 0 then "-" else "+") ++ padded 6 (Z.abs y) in
  year ++ "-" ++ padded 2 m ++ "-" ++ padded 2 d ++ "T" ++
  padded 2 (ms / 3600000) ++ ":" ++ padded 2 (ms / 60000 mod 60) ++ ":" ++
  padded 2 (ms / 1000 mod 60) ++ "." ++ padded 3 (ms mod 1000) ++ "Z".

(** [date.toISOString()]: throws a [RangeError] on the invalid date. *)
Definition toISOString (date : option Z) : completion string :=
  match date with
  | Some t => Normal (isoString t)
  | None => Throw RangeError
  end.

(** ** Arrays *)

Local Open Scope list_scope.

(** [SortCompare] for a comparator: a [NaN] result counts as [+0]. *)
Definition sortCompare {A} (comparefn : A -> A -> number) (x y : A) : number :=
  let v := comparefn x y in
  if is_nan v then zero else v.

(** [Array.prototype.sort(comparefn)], a stable sort: each element goes
    behind the elements it does not sort before.  The standard leaves the
    sequence of comparisons to the implementation; for a comparator that
    orders the elements consistently every stable sort returns this list. *)
Fixpoint insertSorted {A} (comparefn : A -> A -> number) (x : A) (l : list A) : list A :=
  match l with
  | [] => [x]
  | y :: l' =>
      if (zero <? sortCompare comparefn x y)%float
      then y :: insertSorted comparefn x l'
      else x :: l
  end.

Fixpoint sort {A} (comparefn : A -> A -> number) (l : list A) : list A :=
  match l with
  | [] => []
  | x :: l' => insertSorted comparefn x (sort comparefn l')
  end.

(** [array.slice(0, end)]. *)
Definition slice0 {A} (l : list A) (end_ : number) : list A :=
  let len := Z.of_nat (List.length l) in
  let final :=
    match toIntegerOrInfinity end_ with
    | NegInf => 0
    | Int r => if r <? 0 then Z.max (len + r) 0 else Z.min r len
    | PosInf => len
    end in
  firstn (Z.to_nat final) l.

(** ** [Map<number, V>]

    The entries in insertion order, at most one per key up to
    [SameValueZero]. *)

Definition Map (V : Type) := list (number * V).

Definition mapClear {V} (m : Map V) : Map V := [].

(** [map.set(key, value)]: the value of an existing entry is replaced in
    place, a new entry goes last; the key [-0] is stored as [+0]. *)
Fixpoint mapSetAux {V} (key : number) (value : V) (m : Map V) : Map V :=
  match m with
  | [] => [(key, value)]
  | (k, v) :: m' =>
      if sameValueZero k key then (k, value) :: m'
      else (k, v) :: mapSetAux key value m'
  end.

Definition mapSet {V} (key : number) (value : V) (m : Map V) : Map V :=
  mapSetAux (if is_zero key then zero else key) value m.

(** [map.delete(key)]. *)
Fixpoint mapDelete {V} (key : number) (m : Map V) : Map V :=
  match m with
  | [] => []
  | (k, v) :: m' =>
      if sameValueZero k key then m' else (k, v) :: mapDelete key m'
  end.

(** [map.get(key)]. *)
Fixpoint mapGet {V} (key : number) (m : Map V) : option V :=
  match m with
  | [] => None
  | (k, v) :: m' => if sameValueZero k key then Some v else mapGet key m'
  end.

(** [Array.from(map.values())]. *)
Definition mapValues {V} (m : Map V) : list V := List.map snd m.

End JS.

(* ===================================================================== *)
(** * The data model *)
(* ===================================================================== *)

Import JS.

(** Modelled from the spec: the interface [PriceLevel] of [types.ts], which
    is not among the sources.  It is the wire form of a level, "price,
    size, order-count": [px] and [sz] are the strings [initialize] hands to
    [parseFloat] and [toLevel] builds with [toString]; [n] is the order
    count. *)
Module PriceLevel.
Record t := mk { px : string; sz : string; n : number }.
End PriceLevel.

(** Modelled from the spec: the interface [OrderBook] of [types.ts], which
    is not among the sources.  It is the type of a checkpoint, "instrument
    identifier, timestamp, bid levels, ask levels", with the three optional
    metrics [getSnapshot] fills in. *)
Module OrderBook.
Record t := mk {
  coin : string;
  timestamp : string;
  bids : list PriceLevel.t;
  asks : list PriceLevel.t;
  midPrice : option string;
  spread : option string;
  spreadBps : option string }.
End OrderBook.

(** [ReconstructedOrderBook extends OrderBook], with the optional
    [sequence] of the last applied delta. *)
Module ReconstructedOrderBook.
Record t := mk { book : OrderBook.t; sequence : option number }.
End ReconstructedOrderBook.
Coercion ReconstructedOrderBook.book : ReconstructedOrderBook.t >-> OrderBook.t.

(** Modelled from the spec: the side of a delta, "bid|ask"; [applyDelta]
    compares it with ['bid']. *)
Inductive Side := bid | ask.

(** Modelled from the spec: the interface [OrderbookDelta] of [types.ts],
    which is not among the sources: "side (bid|ask), price, size (0 =>
    remove), sequence number, timestamp".  The uses in this module fix the
    types: [price] is a key of a [Map<number, _>], [size] is compared with
    [=== 0], [sequence] is subtracted in the comparator and assigned to the
    number [lastSequence], and [timestamp] is what [new Date] is called
    with, a number of milliseconds. *)
Module OrderbookDelta.
Record t := mk {
  timestamp : number;
  side : Side;
  price : number;
  size : number;
  sequence : number }.
End OrderbookDelta.

(** [InternalLevel]: a level with numeric fields. *)
Module InternalLevel.
Record t := mk { price : number; size : number; orders : number }.
End InternalLevel.

(** [ReconstructOptions]: both fields optional. *)
Module ReconstructOptions.
Record t := mk { depth : option number; emitAll : option bool }.
Definition empty : t := mk None None.
End ReconstructOptions.

(* ===================================================================== *)
(** * The class [OrderBookReconstructor] *)
(* ===================================================================== *)

Module OrderBookReconstructor.

(** The private fields of an instance. *)
Record t := mk {
  bids : Map InternalLevel.t;
  asks : Map InternalLevel.t;
  coin : string;
  lastTimestamp : string;
  lastSequence : number }.

(** [new OrderBookReconstructor()]. *)
Definition new : t := mk [] [] EmptyString EmptyString zero.

Definition updBids (f : Map InternalLevel.t -> Map InternalLevel.t) (this : t) : t :=
  mk (f (bids this)) (asks this) (coin this) (lastTimestamp this) (lastSequence this).
Definition updAsks (f : Map InternalLevel.t -> Map InternalLevel.t) (this : t) : t :=
  mk (bids this) (f (asks this)) (coin this) (lastTimestamp this) (lastSequence this).
Definition setCoin (c : string) (this : t) : t :=
  mk (bids this) (asks this) c (lastTimestamp this) (lastSequence this).
Definition setLastTimestamp (ts : string) (this : t) : t :=
  mk (bids this) (asks this) (coin this) ts (lastSequence this).
Definition setLastSequence (q : number) (this : t) : t :=
  mk (bids this) (asks this) (coin this) (lastTimestamp this) q.

(** ** Methods as state transformers that may throw *)

(** A method body: from the instance state to the state it leaves and its
    completion.  A throw keeps the mutations made before it. *)
Definition M (A : Type) := t -> t * completion A.

Definition ret {A} (a : A) : M A := fun this => (this, Normal a).

Definition bind {A B} (c : M A) (k : A -> M B) : M B :=
  fun this =>
    match c this with
    | (this', Normal a) => k a this'
    | (this', Throw e) => (this', Throw e)
    end.

Definition modify (f : t -> t) : M unit := fun this => (f this, Normal tt).
Definition gets {A} (f : t -> A) : M A := fun this => (this, Normal (f this)).
Definition lift {A} (c : completion A) : M A := fun this => (this, c).

Notation "x <- c ;; k" := (bind c (fun x => k))
  (at level 61, c at next level, right associativity).
Notation "c ;; k" := (bind c (fun _ => k))
  (at level 61, right associativity).

(** [for (const x of l) body]. *)
Fixpoint forOf {A} (l : list A) (body : A -> M unit) : M unit :=
  match l with
  | [] => ret tt
  | x :: l' => body x ;; forOf l' body
  end.

(** [initialize(checkpoint)]. *)
Definition initialize (checkpoint : OrderBook.t) : M unit :=
  modify (updBids mapClear) ;;
  modify (updAsks mapClear) ;;
  modify (setCoin (OrderBook.coin checkpoint)) ;;
  modify (setLastTimestamp (OrderBook.timestamp checkpoint)) ;;
  modify (setLastSequence zero) ;;
  forOf (OrderBook.bids checkpoint) (fun level =>
    let price := parseFloat (PriceLevel.px level) in
    modify (updBids (mapSet price
      (InternalLevel.mk price (parseFloat (PriceLevel.sz level)) (PriceLevel.n level))))) ;;
  forOf (OrderBook.asks checkpoint) (fun level =>
    let price := parseFloat (PriceLevel.px level) in
    modify (updAsks (mapSet price
      (InternalLevel.mk price (parseFloat (PriceLevel.sz level)) (PriceLevel.n level))))).

(** [const book = delta.side === 'bid' ? this.bids : this.asks], as the
    update of the field the alias [book] points to. *)
Definition updBook (s : Side) (f : Map InternalLevel.t -> Map InternalLevel.t) : t -> t :=
  match s with bid => updBids f | ask => updAsks f end.

(** [applyDelta(delta)]. *)
Definition applyDelta (delta : OrderbookDelta.t) : M unit :=
  (if strictEq (OrderbookDelta.size delta) zero then
     modify (updBook (OrderbookDelta.side delta) (mapDelete (OrderbookDelta.price delta)))
   else
     modify (updBook (OrderbookDelta.side delta)
       (mapSet (OrderbookDelta.price delta)
          (InternalLevel.mk (OrderbookDelta.price delta) (OrderbookDelta.size delta) one)))) ;;
  iso <- lift (toISOString (newDate (OrderbookDelta.timestamp delta))) ;;
  modify (setLastTimestamp iso) ;;
  modify (setLastSequence (OrderbookDelta.sequence delta)).

(** [toLevel]: an internal level in the wire form. *)
Definition toLevel (level : InternalLevel.t) : PriceLevel.t :=
  PriceLevel.mk (numberToString (InternalLevel.price level))
                (numberToString (InternalLevel.size level))
                (InternalLevel.orders level).

(** The comparators handed to [sort]. *)
Definition byPriceDesc (a b : InternalLevel.t) : number :=
  (InternalLevel.price b - InternalLevel.price a)%float.
Definition byPriceAsc (a b : InternalLevel.t) : number :=
  (InternalLevel.price a - InternalLevel.price b)%float.
Definition bySequence (a b : OrderbookDelta.t) : number :=
  (OrderbookDelta.sequence a - OrderbookDelta.sequence b)%float.

(** [depth ? sorted.slice(0, depth) : sorted]. *)
Definition limit {A} (depth : option number) (sorted : list A) : list A :=
  match depth with
  | Some d => if truthy d then slice0 sorted d else sorted
  | None => sorted
  end.

(** [x && y ? f(x, y) : undefined] on two possibly undefined numbers. *)
Definition whenBoth (x y : option number) (f : number -> number -> number) : option number :=
  match x, y with
  | Some a, Some b => if truthy a && truthy b then Some (f a b) else None
  | _, _ => None
  end.

(** The body of [getSnapshot(depth)], which only reads the instance. *)
Definition snapshotOf (depth : option number) (this : t) : ReconstructedOrderBook.t :=
  let sortedBids := sort byPriceDesc (mapValues (bids this)) in
  let sortedAsks := sort byPriceAsc (mapValues (asks this)) in
  let bidsOutput := map toLevel (limit depth sortedBids) in
  let asksOutput := map toLevel (limit depth sortedAsks) in
  let bestBid := option_map InternalLevel.price (head sortedBids) in
  let bestAsk := option_map InternalLevel.price (head sortedAsks) in
  let midPrice := whenBoth bestBid bestAsk (fun b a => (b + a) / 2)%float in
  let spread := whenBoth bestBid bestAsk (fun b a => a - b)%float in
  let spreadBps := whenBoth midPrice spread (fun m sp => sp / m * 10000)%float in
  ReconstructedOrderBook.mk
    (OrderBook.mk (coin this) (lastTimestamp this) bidsOutput asksOutput
       (option_map numberToString midPrice)
       (option_map numberToString spread)
       (option_map (numberToFixed 2) spreadBps))
    (Some (lastSequence this)).

(** [getSnapshot(depth)]. *)
Definition getSnapshot (depth : option number) : M ReconstructedOrderBook.t :=
  gets (snapshotOf depth).

(** [array.push(x)] on the local array [snapshots]. *)
Definition push {A} (l : list A) (x : A) : list A := l ++ [x].

(** The loop [for (const delta of sortedDeltas)] of [reconstructAll], with
    the local array [snapshots] threaded through. *)
Fixpoint replayAll (depth : option number) (emitAll : bool)
    (sortedDeltas : list OrderbookDelta.t)
    (snapshots : list ReconstructedOrderBook.t) : M (list ReconstructedOrderBook.t) :=
  match sortedDeltas with
  | [] => ret snapshots
  | delta :: rest =>
      applyDelta delta ;;
      snapshots' <- (if emitAll
                     then snapshot <- getSnapshot depth ;; ret (push snapshots snapshot)
                     else ret snapshots) ;;
      replayAll depth emitAll rest snapshots'
  end.

(** [reconstructAll(checkpoint, deltas, options = {})]. *)
Definition reconstructAll (checkpoint : OrderBook.t) (deltas : list OrderbookDelta.t)
    (options : ReconstructOptions.t) : M (list ReconstructedOrderBook.t) :=
  let depth := ReconstructOptions.depth options in
  let emitAll := match ReconstructOptions.emitAll options with
                 | Some b => b
                 | None => true
                 end in
  initialize checkpoint ;;
  let sortedDeltas := sort bySequence deltas in
  snapshots <- (if emitAll
                then snapshot <- getSnapshot depth ;; ret (push [] snapshot)
                else ret []) ;;
  snapshots <- replayAll depth emitAll sortedDeltas snapshots ;;
  if negb emitAll
  then snapshot <- getSnapshot depth ;; ret (push snapshots snapshot)
  else ret snapshots.

(** [reconstructFinal(checkpoint, deltas, depth)]. *)
Definition reconstructFinal (checkpoint : OrderBook.t) (deltas : list OrderbookDelta.t)
    (depth : option number) : M ReconstructedOrderBook.t :=
  initialize checkpoint ;;
  let sortedDeltas := sort bySequence deltas in
  forOf sortedDeltas applyDelta ;;
  getSnapshot depth.

(** ** The generator [iterate]

    A generator object is the point where its body is suspended together
    with the locals alive there; [next] runs the body up to the following
    [yield]. *)
Inductive Generator :=
| SuspendedStart (checkpoint : OrderBook.t) (deltas : list OrderbookDelta.t)
    (options : ReconstructOptions.t)
| SuspendedInitial (deltas : list OrderbookDelta.t) (depth : option number)
| SuspendedLoop (rest : list OrderbookDelta.t) (depth : option number)
| Completed.

Inductive IteratorResult :=
| Yielded (value : ReconstructedOrderBook.t)
| Done.

(** [iterate(checkpoint, deltas, options = {})]: calling a generator
    function runs none of its body. *)
Definition iterate (checkpoint : OrderBook.t) (deltas : list OrderbookDelta.t)
    (options : ReconstructOptions.t) : Generator :=
  SuspendedStart checkpoint deltas options.

(** The loop of [iterate], from its head. *)
Definition resumeLoop (rest : list OrderbookDelta.t) (depth : option number)
    : M (Generator * IteratorResult) :=
  match rest with
  | [] => ret (Completed, Done)
  | delta :: rest' =>
      applyDelta delta ;;
      snapshot <- getSnapshot depth ;;
      ret (SuspendedLoop rest' depth, Yielded snapshot)
  end.

(** [generator.next()]. *)
Definition next (g : Generator) : M (Generator * IteratorResult) :=
  match g with
  | SuspendedStart checkpoint deltas options =>
      let depth := ReconstructOptions.depth options in
      initialize checkpoint ;;
      snapshot <- getSnapshot depth ;;
      ret (SuspendedInitial deltas depth, Yielded snapshot)
  | SuspendedInitial deltas depth =>
      let sortedDeltas := sort bySequence deltas in
      resumeLoop sortedDeltas depth
  | SuspendedLoop rest depth => resumeLoop rest depth
  | Completed => ret (Completed, Done)
  end.

(** A consumer that drains the generator, [for (const s of g) out.push(s)],
    calling [next] at most [fuel] times; [None] when the generator has not
    completed by then. *)
Fixpoint drain (fuel : nat) (g : Generator) (out : list ReconstructedOrderBook.t)
    : M (option (list ReconstructedOrderBook.t)) :=
  match fuel with
  | O => ret None
  | S fuel' =>
      r <- next g ;;
      match r with
      | (g', Yielded snapshot) => drain fuel' g' (push out snapshot)
      | (_, Done) => ret (Some out)
      end
  end.

(** ** [detectGaps] *)

(** The loop [for (let i = 1; i < sorted.length; i++)] over the indices it
    visits; reading [.sequence] of an absent element would be a
    [TypeError]. *)
Fixpoint gapsLoop (sorted : list OrderbookDelta.t) (indices : list nat)
    (gaps : list (number * number)) : completion (list (number * number)) :=
  match indices with
  | [] => Normal gaps
  | i :: indices' =>
      match nth_error sorted (i - 1), nth_error sorted i with
      | Some prev, Some cur =>
          let expected := (OrderbookDelta.sequence prev + 1)%float in
          let actual := OrderbookDelta.sequence cur in
          gapsLoop sorted indices'
            (if negb (strictEq actual expected) then push gaps (expected, actual) else gaps)
      | _, _ => Throw TypeError
      end
  end.

(** [static detectGaps(deltas)]: it has no access to an instance. *)
Definition detectGaps (deltas : list OrderbookDelta.t) : completion (list (number * number)) :=
  if (List.length deltas <? 2)%nat then Normal []
  else
    let sorted := sort bySequence deltas in
    gapsLoop sorted (seq 1 (List.length sorted - 1)) [].

End OrderBookReconstructor.

(** [TickData]: a checkpoint and its deltas. *)
Module TickData.
Record t := mk { checkpoint : OrderBook.t; deltas : list OrderbookDelta.t }.
End TickData.

(** The convenience functions of the module, each on a fresh instance. *)
Definition reconstructOrderBook (tickData : TickData.t) (options : ReconstructOptions.t)
    : completion (list ReconstructedOrderBook.t) :=
  snd (OrderBookReconstructor.reconstructAll (TickData.checkpoint tickData)
         (TickData.deltas tickData) options OrderBookReconstructor.new).

Definition reconstructFinal (tickData : TickData.t) (depth : option number)
    : completion ReconstructedOrderBook.t :=
  snd (OrderBookReconstructor.reconstructFinal (TickData.checkpoint tickData)
         (TickData.deltas tickData) depth OrderBookReconstructor.new).


(* ===================================================================== *)
(** * The resource [OrderBookResource]: the callers of the reconstructor *)
(* ===================================================================== *)

(** [TickHistoryParams]: [start] and [end] are a number or a string. *)
Module TickHistoryParams.
Record t := mk { start : number + string; end_ : number + string; depth : option number }.
End TickHistoryParams.

(** The query [{ ...params, granularity: 'tick' }] of [historyTick]. *)
Module TickQuery.
Record t := mk {
  start : number + string;
  end_ : number + string;
  depth : option number;
  granularity : string }.
End TickQuery.

(** The response [historyTick] asks the client for: every field but
    [success] is optional. *)
Module TickResponse.
Record t := mk {
  success : bool;
  checkpoint : option OrderBook.t;
  deltas : option (list OrderbookDelta.t);
  granularity : option string;
  error : option string;
  message : option string }.
End TickResponse.

(** How the promise of an [async] call settles. *)
Inductive settled (E A : Type) :=
| Resolved (a : A)
| Rejected (e : E).
Arguments Resolved {E A} a.
Arguments Rejected {E A} e.

(** [a || b] for an optional string [a] and a string [b]: [undefined] and
    the empty string are falsy. *)
Definition orElse (a : option string) (b : string) : string :=
  match a with
  | Some (String c s) => String c s
  | _ => b
  end.

Module OrderBookResource.
Section Http.

(** Modelled from the spec: the client of [../http], which is not among the
    sources; it is the "external collaborator that supplies" the checkpoint
    and delta records.  [reason] is what its promise rejects with. *)
Variable reason : Type.

(** [String.prototype.toUpperCase]; its case mapping is left open. *)
Variable toUpperCase : string -> string.

(** What the promise of a method of the resource rejects with: the reason
    of the client, an [Error] with its message, or an exception thrown by
    the reconstructor. *)
Inductive rejection :=
| FromHttp (r : reason)
| Error (message : string)
| Thrown (e : exception).

(** An instance: the [get] of its client, at the response type of
    [historyTick], and the base path. *)
Record t := mk {
  http : string -> TickQuery.t -> settled reason TickResponse.t;
  basePath : string }.

(** [new OrderBookResource(http, basePath = '/v1')]. *)
Definition new (http : string -> TickQuery.t -> settled reason TickResponse.t)
    (basePath : option string) : t :=
  mk http (match basePath with Some b => b | None => "/v1"%string end).

(** The message of the error when the response carries none. *)
Definition tierMessage : string :=
  ("Tick-level orderbook data requires Enterprise tier. " ++
   "Upgrade your subscription or use a different granularity.")%string.

(** The request of [historyTick]: the path and the query. *)
Definition tickPath (this : t) (coin : string) : string :=
  (basePath this ++ "/orderbook/" ++ toUpperCase coin ++ "/history")%string.

Definition tickQuery (params : TickHistoryParams.t) : TickQuery.t :=
  TickQuery.mk (TickHistoryParams.start params) (TickHistoryParams.end_ params)
    (TickHistoryParams.depth params) "tick".

(** [historyTick(coin, params)]. *)
Definition historyTick (this : t) (coin : string) (params : TickHistoryParams.t)
    : settled rejection TickData.t :=
  match http this (tickPath this coin) (tickQuery params) with
  | Rejected r => Rejected (FromHttp r)
  | Resolved response =>
      match TickResponse.checkpoint response, TickResponse.deltas response with
      | Some checkpoint, Some deltas => Resolved (TickData.mk checkpoint deltas)
      | _, _ =>
          let errorMsg :=
            orElse (TickResponse.error response)
              (orElse (TickResponse.message response) tierMessage) in
          Rejected (Error errorMsg)
      end
  end.

(** [historyReconstructed(coin, params, options = {})]. *)
Definition historyReconstructed (this : t) (coin : string) (params : TickHistoryParams.t)
    (options : ReconstructOptions.t)
    : settled rejection (list ReconstructedOrderBook.t) :=
  match historyTick this coin params with
  | Rejected e => Rejected e
  | Resolved tickData =>
      let reconstructor := OrderBookReconstructor.new in
      match snd (OrderBookReconstructor.reconstructAll (TickData.checkpoint tickData)
                   (TickData.deltas tickData) options reconstructor) with
      | Normal snapshots => Resolved snapshots
      | Throw e => Rejected (Thrown e)
      end
  end.

(** [createReconstructor()]. *)
Definition createReconstructor (this : t) : OrderBookReconstructor.t :=
  OrderBookReconstructor.new.

End Http.

Arguments FromHttp {reason} r.
Arguments Error {reason} message.
Arguments Thrown {reason} e.
Arguments http {reason} t _ _.
Arguments basePath {reason} t.
Arguments tickPath {reason} toUpperCase this coin.
Arguments historyTick {reason} toUpperCase this coin params.
Arguments historyReconstructed {reason} toUpperCase this coin params options.
Arguments createReconstructor {reason} this.

End OrderBookResource.

(* ===================================================================== *)
(** * The vocabulary of the statements *)
(* ===================================================================== *)

(** The class, for short. *)
Module R := OrderBookReconstructor.

(** ** Numbers *)

(** The value of a binary64 datum in units of [2 ^ -1074], with the
    infinities beyond every finite value. *)
Definition scaled (x : spec_float) : Z :=
  match x with
  | S754_zero _ => 0
  | S754_nan => 0
  | S754_infinity s => cond_Zopp s (2 ^ 2200)
  | S754_finite s m e => cond_Zopp s (Z.pos m * 2 ^ (e + 1074))
  end.

(** A rounded value that kept the sign [s] and did not collapse to zero. *)
Definition signedSF (s : bool) (x : spec_float) : Prop :=
  match x with
  | S754_finite s' _ _ | S754_infinity s' => s' = s
  | _ => False
  end.

(** The rank of a number that is not [NaN]: its value in units of
    [2 ^ -1074]. *)
Definition rank (x : float) : Z := scaled (Prim2SF x).

(** ** Sorting *)

(** [x] sorts strictly after [y] under the comparator. *)
Definition goesAfter {A} (comparefn : A -> A -> number) (x y : A) : bool :=
  (zero <? sortCompare comparefn x y)%float.

(** A ranking [rk] the comparator agrees with on the elements of [l]. *)
Definition ranked {A} (comparefn : A -> A -> number) (rk : A -> Z) (l : list A) : Prop :=
  forall x y, In x l -> In y l -> goesAfter comparefn x y = (rk y <? rk x).

Definition rkLe {A} (rk : A -> Z) (a b : A) : Prop := rk a <= rk b.
Definition rkLt {A} (rk : A -> Z) (a b : A) : Prop := rk a < rk b.

(** ** Maps *)

(** The identity of a number as a [Map] key: all [NaN]s are one key, the
    two zeros are one key. *)
Definition mapKey (x : number) : option Z :=
  if is_nan x then None else Some (rank x).

(** The keys of a map, as identities. *)
Definition keysOf {V} (m : Map V) : list (option Z) :=
  map (fun kv => mapKey (fst kv)) m.

(** ** Methods and states *)

(** The internal level [initialize] builds from a checkpoint level. *)
Definition internalOf (level : PriceLevel.t) : InternalLevel.t :=
  InternalLevel.mk (parseFloat (PriceLevel.px level))
                   (parseFloat (PriceLevel.sz level))
                   (PriceLevel.n level).

(** The effect of one of the two loading loops of [initialize] on the side
    it fills. *)
Definition loadLevels (levels : list PriceLevel.t) (m : Map InternalLevel.t)
    : Map InternalLevel.t :=
  fold_left (fun m level =>
    mapSet (InternalLevel.price (internalOf level)) (internalOf level) m) levels m.

(** The state [initialize(checkpoint)] leaves. *)
Definition loaded (checkpoint : OrderBook.t) : R.t :=
  R.mk (loadLevels (OrderBook.bids checkpoint) [])
       (loadLevels (OrderBook.asks checkpoint) [])
       (OrderBook.coin checkpoint) (OrderBook.timestamp checkpoint) zero.

(** What [applyDelta] does to the side it selects. *)
Definition levelChange (delta : OrderbookDelta.t) (book : Map InternalLevel.t)
    : Map InternalLevel.t :=
  if strictEq (OrderbookDelta.size delta) zero
  then mapDelete (OrderbookDelta.price delta) book
  else mapSet (OrderbookDelta.price delta)
         (InternalLevel.mk (OrderbookDelta.price delta) (OrderbookDelta.size delta) one)
         book.

(** A delta whose timestamp [new Date] accepts. *)
Definition validTimestamp (delta : OrderbookDelta.t) : Prop :=
  newDate (OrderbookDelta.timestamp delta) <> None.

(** The state a run of successful [applyDelta] calls leaves. *)
Definition stateAfter (this : R.t) (deltas : list OrderbookDelta.t) : R.t :=
  fold_left (fun st delta => fst (R.applyDelta delta st)) deltas this.

(** The fields are private: an instance starts as [new] and changes only
    through [initialize] and [applyDelta] (the other methods call these
    two).  A call that throws leaves the state it reached. *)
Inductive reachable : R.t -> Prop :=
| reachable_new : reachable R.new
| reachable_initialize (checkpoint : OrderBook.t) (this : R.t) :
    reachable this -> reachable (fst (R.initialize checkpoint this))
| reachable_applyDelta (delta : OrderbookDelta.t) (this : R.t) :
    reachable this -> reachable (fst (R.applyDelta delta this)).

(** A side holds each price once, and every level under its own price. *)
Definition wfBook (m : Map InternalLevel.t) : Prop :=
  NoDup (keysOf m) /\
  Forall (fun kv => mapKey (fst kv) = mapKey (InternalLevel.price (snd kv))) m.

Definition wellFormed (this : R.t) : Prop :=
  wfBook (R.bids this) /\ wfBook (R.asks this).

(** The side a delta selects, and the other one. *)
Definition bookOf (s : Side) (this : R.t) : Map InternalLevel.t :=
  match s with bid => R.bids this | ask => R.asks this end.

Definition opposite (s : Side) : Side :=
  match s with bid => ask | ask => bid end.

(** A call on the instance. *)
Inductive Call :=
| CallInitialize (checkpoint : OrderBook.t)
| CallApplyDelta (delta : OrderbookDelta.t).

(** The state a call leaves, thrown or not. *)
Definition call (c : Call) (this : R.t) : R.t :=
  match c with
  | CallInitialize checkpoint => fst (R.initialize checkpoint this)
  | CallApplyDelta delta => fst (R.applyDelta delta this)
  end.

Definition callAll (calls : list Call) (this : R.t) : R.t :=
  fold_left (fun st c => call c st) calls this.

(** No resident level has a size that [=== 0]. *)
Definition noZeroBook (m : Map InternalLevel.t) : Prop :=
  Forall (fun level => strictEq (InternalLevel.size level) zero = false) (mapValues m).

Definition noZeroSize (this : R.t) : Prop :=
  noZeroBook (R.bids this) /\ noZeroBook (R.asks this).

(** No level of the checkpoint has a size that parses to zero. *)
Definition sizesNonZero (checkpoint : OrderBook.t) : Prop :=
  Forall (fun level => strictEq (parseFloat (PriceLevel.sz level)) zero = false)
    (OrderBook.bids checkpoint ++ OrderBook.asks checkpoint).

Definition checkpointsNonZero (calls : list Call) : Prop :=
  Forall (fun c => match c with
                   | CallInitialize checkpoint => sizesNonZero checkpoint
                   | CallApplyDelta _ => True
                   end) calls.

(** ** Snapshots *)

(** Prices from best to worst on the bid side, and on the ask side. *)
Definition strictlyDescending (prices : list number) : Prop :=
  StronglySorted (fun a b => (b <? a)%float = true) prices.

Definition strictlyAscending (prices : list number) : Prop :=
  StronglySorted (fun a b => (a <? b)%float = true) prices.

(** No resident level is stored under [NaN]. *)
Definition noNaNBook (m : Map InternalLevel.t) : Prop :=
  Forall (fun level => is_nan (InternalLevel.price level) = false) (mapValues m).

Definition noNaNPrices (this : R.t) : Prop :=
  noNaNBook (R.bids this) /\ noNaNBook (R.asks this).

(** The numbers of a list that differ as [Map] keys, and how many there
    are. *)
Fixpoint distinctNumbers (l : list number) : list number :=
  match l with
  | [] => []
  | x :: l' =>
      if existsb (sameValueZero x) l' then distinctNumbers l'
      else x :: distinctNumbers l'
  end.

Definition countDistinct (l : list number) : nat := List.length (distinctNumbers l).

(** Every price of the checkpoint parses to a number. *)
Definition pricesParse (checkpoint : OrderBook.t) : Prop :=
  Forall (fun level => is_nan (parseFloat (PriceLevel.px level)) = false)
    (OrderBook.bids checkpoint ++ OrderBook.asks checkpoint).

Definition parsedPrices (levels : list PriceLevel.t) : list number :=
  map (fun level => parseFloat (PriceLevel.px level)) levels.

(** The best prices [getSnapshot] reads: [sorted[0]?.price]. *)
Definition bestBid (this : R.t) : option number :=
  option_map InternalLevel.price (head (sort R.byPriceDesc (mapValues (R.bids this)))).

Definition bestAsk (this : R.t) : option number :=
  option_map InternalLevel.price (head (sort R.byPriceAsc (mapValues (R.asks this)))).

(** ** Replay and gaps *)

(** The snapshot taken after each delta of a run, in the words of the
    specification: apply a delta, emit a snapshot. *)
Fixpoint snapshotsAlong (depth : option number) (this : R.t)
    (sortedDeltas : list OrderbookDelta.t) : list ReconstructedOrderBook.t :=
  match sortedDeltas with
  | [] => []
  | delta :: rest =>
      let this' := fst (R.applyDelta delta this) in
      R.snapshotOf depth this' :: snapshotsAlong depth this' rest
  end.

(** The sequence numbers of a delta list are pairwise distinct: of any two
    deltas one has the smaller sequence number. *)
Definition distinctSequences (deltas : list OrderbookDelta.t) : Prop :=
  ForallOrdPairs (fun a b =>
    (OrderbookDelta.sequence a <? OrderbookDelta.sequence b)%float = true \/
    (OrderbookDelta.sequence b <? OrderbookDelta.sequence a)%float = true) deltas.

Definition sequenceRank (delta : OrderbookDelta.t) : Z :=
  rank (OrderbookDelta.sequence delta).

(** The gaps of a sorted list in the words of the specification: for each
    adjacent pair, [expected = previous.sequence + 1], and the pair
    [(expected, actual)] is recorded whenever [actual != expected]. *)
Fixpoint adjacentGaps (sorted : list OrderbookDelta.t) : list (number * number) :=
  match sorted with
  | previous :: (current :: _) as rest =>
      let expected := (OrderbookDelta.sequence previous + 1)%float in
      let actual := OrderbookDelta.sequence current in
      (if strictEq actual expected then [] else [(expected, actual)]) ++
      adjacentGaps rest
  | _ => []
  end.

(** Every adjacent pair of the list is one step apart. *)
Fixpoint contiguous (sorted : list OrderbookDelta.t) : Prop :=
  match sorted with
  | previous :: (current :: _) as rest =>
      strictEq (OrderbookDelta.sequence current)
               (OrderbookDelta.sequence previous + 1)%float = true /\
      contiguous rest
  | _ => True
  end.

(** Sequence numbers in ascending order. *)
Definition ascending (sequences : list number) : Prop :=
  StronglySorted (fun a b => (a <=? b)%float = true) sequences.

(** ** Runs of deltas *)

Definition sameSide (a b : Side) : bool :=
  match a, b with
  | bid, bid | ask, ask => true
  | _, _ => false
  end.

(** [delta] is about the level of key [k] on side [s]. *)
Definition touches (s : Side) (k : number) (delta : OrderbookDelta.t) : bool :=
  sameSide (OrderbookDelta.side delta) s && sameValueZero (OrderbookDelta.price delta) k.

(** The last delta of a run that is about the level of key [k] on side
    [s]. *)
Definition lastTouching (s : Side) (k : number) (deltas : list OrderbookDelta.t)
    : option OrderbookDelta.t :=
  find (touches s k) (rev deltas).

(** The level a delta leaves at its price: none when [size === 0]. *)
Definition levelOf (delta : OrderbookDelta.t) : option InternalLevel.t :=
  if strictEq (OrderbookDelta.size delta) zero then None
  else Some (InternalLevel.mk (OrderbookDelta.price delta) (OrderbookDelta.size delta) one).

(** The header a snapshot carries right after [delta] was applied. *)
Definition stampedBy (coin : string) (delta : OrderbookDelta.t)
    (snapshot : ReconstructedOrderBook.t) : Prop :=
  OrderBook.coin snapshot = coin /\
  toISOString (newDate (OrderbookDelta.timestamp delta)) =
    Normal (OrderBook.timestamp snapshot) /\
  ReconstructedOrderBook.sequence snapshot = Some (OrderbookDelta.sequence delta).


(** A consumer that takes at most [n] snapshots from a generator by calling
    [next] by hand, [const r = g.next(); if (r.done) return; out.push(r.value)],
    and keeps the generator. *)
Fixpoint pull (n : nat) (g : R.Generator) (out : list ReconstructedOrderBook.t)
    : R.M (R.Generator * list ReconstructedOrderBook.t) :=
  match n with
  | O => R.ret (g, out)
  | S n' =>
      R.bind (R.next g) (fun r =>
        match r with
        | (g', R.Yielded snapshot) => pull n' g' (R.push out snapshot)
        | (g', R.Done) => R.ret (g', out)
        end)
  end.

(** The completion of [return [x]] for the completion of [return x]. *)
Definition singleton {A} (c : completion A) : completion (list A) :=
  match c with
  | Normal a => Normal [a]
  | Throw e => Throw e
  end.

(** ** The content of an instance *)

(** Two sides hold the same level under every key, whatever the order in
    which the keys were inserted. *)
Definition sameLevels (m1 m2 : Map InternalLevel.t) : Prop :=
  forall k, mapGet k m1 = mapGet k m2.

(** Two instances with the same levels and the same header. *)
Definition sameContent (this1 this2 : R.t) : Prop :=
  sameLevels (R.bids this1) (R.bids this2) /\
  sameLevels (R.asks this1) (R.asks this2) /\
  R.coin this1 = R.coin this2 /\
  R.lastTimestamp this1 = R.lastTimestamp this2 /\
  R.lastSequence this1 = R.lastSequence this2.

(** Two well-formed instances with the same content, free of [NaN]
    prices: what a replay keeps of two instances that start alike. *)
Definition alike (this1 this2 : R.t) : Prop :=
  wellFormed this1 /\ wellFormed this2 /\ noNaNPrices this1 /\ sameContent this1 this2.

(** The prices of the levels are pairwise different [Map] keys. *)
Definition distinctPrices (levels : list PriceLevel.t) : Prop :=
  NoDup (map mapKey (parsedPrices levels)).

(** ** Responses *)

(** An optional string that [||] skips. *)
Definition falsyString (a : option string) : Prop :=
  a = None \/ a = Some EmptyString.

(* ===================================================================== *)
(** * Facts about binary64 arithmetic *)
(* ===================================================================== *)

Lemma digits2_pos_lower (m : positive) :
  2 ^ (Z.pos (digits2_pos m) - 1) <= Z.pos m.
Proof.
  induction m as [m IH | m IH |]; simpl digits2_pos.
  - rewrite Pos2Z.inj_succ.
    replace (Z.succ (Z.pos (digits2_pos m)) - 1) with (Z.succ (Z.pos (digits2_pos m) - 1)) by lia.
    rewrite Z.pow_succ_r by lia. lia.
  - rewrite Pos2Z.inj_succ.
    replace (Z.succ (Z.pos (digits2_pos m)) - 1) with (Z.succ (Z.pos (digits2_pos m) - 1)) by lia.
    rewrite Z.pow_succ_r by lia. lia.
  - simpl. lia.
Qed.

Lemma digits2_pos_upper (m : positive) :
  Z.pos m < 2 ^ Z.pos (digits2_pos m).
Proof.
  induction m as [m IH | m IH |]; simpl digits2_pos.
  - rewrite Pos2Z.inj_succ, Z.pow_succ_r by lia. lia.
  - rewrite Pos2Z.inj_succ, Z.pow_succ_r by lia. lia.
  - simpl. lia.
Qed.

(** What [bounded] says about a mantissa and its exponent. *)
Lemma bounded_inv (m : positive) (e : Z) :
  bounded prec emax m e = true ->
  -1074 <= e <= 971 /\ Z.pos m < 2 ^ 53 /\ (-1074 < e -> 2 ^ 52 <= Z.pos m).
Proof.
  unfold bounded, canonical_mantissa, fexp, SpecFloat.emin, prec, emax.
  intros H. apply andb_prop in H. destruct H as [H1 H2].
  apply Z.eqb_eq in H1. apply Z.leb_le in H2.
  pose proof (digits2_pos_lower m) as Hl.
  pose proof (digits2_pos_upper m) as Hu.
  assert (Hd : Z.pos (digits2_pos m) <= 53) by lia.
  split; [lia|]. split.
  - eapply Z.lt_le_trans; [exact Hu|]. apply Z.pow_le_mono_r; lia.
  - intros He. assert (Z.pos (digits2_pos m) = 53) by lia.
    rewrite H in Hl. exact Hl.
Qed.

Lemma scaled_finite_pos (m : positive) (e : Z) :
  bounded prec emax m e = true ->
  0 < Z.pos m * 2 ^ (e + 1074) < 2 ^ 2200.
Proof.
  intros H. apply bounded_inv in H. destruct H as (He & Hm & _).
  split.
  - apply Z.mul_pos_pos; [lia|]. apply Z.pow_pos_nonneg; lia.
  - apply Z.lt_le_trans with (2 ^ 53 * 2 ^ (e + 1074)).
    + apply Z.mul_lt_mono_pos_r; [apply Z.pow_pos_nonneg; lia | exact Hm].
    + rewrite <- Z.pow_add_r by lia. apply Z.pow_le_mono_r; lia.
Qed.

(** On canonical mantissas the order of the exponents decides. *)
Lemma scaled_exponent_lt (m1 m2 : positive) (e1 e2 : Z) :
  bounded prec emax m1 e1 = true -> bounded prec emax m2 e2 = true ->
  e1 < e2 ->
  Z.pos m1 * 2 ^ (e1 + 1074) < Z.pos m2 * 2 ^ (e2 + 1074).
Proof.
  intros H1 H2 Hlt.
  apply bounded_inv in H1. apply bounded_inv in H2.
  destruct H1 as (He1 & Hm1 & _). destruct H2 as (He2 & _ & Hm2).
  assert (Hlt' : -1074 < e2) by lia. specialize (Hm2 Hlt').
  replace (e2 + 1074) with ((e2 - e1) + (e1 + 1074)) by lia.
  rewrite (Z.pow_add_r 2 (e2 - e1) (e1 + 1074)) by lia.
  rewrite Z.mul_assoc.
  apply Z.mul_lt_mono_pos_r; [apply Z.pow_pos_nonneg; lia|].
  apply Z.lt_le_trans with (2 ^ 53); [exact Hm1|].
  change (2 ^ 53) with (2 ^ 52 * 2 ^ 1).
  apply Z.mul_le_mono_nonneg; try lia.
  apply Z.pow_le_mono_r; lia.
Qed.

Lemma compare_cont_Eq (m1 m2 : positive) :
  Pos.compare_cont Eq m1 m2 = (Z.pos m1 ?= Z.pos m2).
Proof. reflexivity. Qed.

Lemma scaled_mantissa_compare (m1 m2 : positive) (e : Z) :
  -1074 <= e ->
  (Z.pos m1 * 2 ^ (e + 1074) ?= Z.pos m2 * 2 ^ (e + 1074)) = (Z.pos m1 ?= Z.pos m2).
Proof.
  intros He. symmetry. apply Zmult_compare_compat_r.
  apply Z.lt_gt. apply Z.pow_pos_nonneg; lia.
Qed.

Ltac by_compare :=
  symmetry;
  first [ apply Z.compare_gt_iff; lia
        | apply Z.compare_lt_iff; lia
        | apply Z.compare_eq_iff; lia ].

(** [SFcompare] is the comparison of the scaled values. *)
Lemma SFcompare_scaled (x y : spec_float) :
  valid_binary x = true -> valid_binary y = true ->
  x <> S754_nan -> y <> S754_nan ->
  SFcompare x y = Some (scaled x ?= scaled y).
Proof.
  intros Vx Vy Nx Ny.
  destruct x as [sx | sx | | sx mx ex], y as [sy | sy | | sy my ey];
    try congruence; simpl in Vx, Vy;
    try pose proof (scaled_finite_pos _ _ Vx) as Hx;
    try pose proof (scaled_finite_pos _ _ Vy) as Hy;
    assert (Hinf : 0 < 2 ^ 2200) by (apply Z.pow_pos_nonneg; lia);
    unfold SFcompare, scaled; f_equal;
    try (destruct sx); try (destruct sy); unfold cond_Zopp;
    try reflexivity; try by_compare.
  - destruct (Z.compare_spec ex ey) as [E | L | G].
      * subst ey. rewrite compare_cont_Eq.
        rewrite Z.compare_opp.
        rewrite scaled_mantissa_compare by (apply bounded_inv in Vx; lia).
        rewrite (Z.compare_antisym (Z.pos mx) (Z.pos my)). reflexivity.
      * pose proof (scaled_exponent_lt _ _ _ _ Vx Vy L). by_compare.
      * pose proof (scaled_exponent_lt _ _ _ _ Vy Vx ltac:(lia)). by_compare.
  - destruct (Z.compare_spec ex ey) as [E | L | G].
      * subst ey. rewrite compare_cont_Eq.
        rewrite scaled_mantissa_compare by (apply bounded_inv in Vx; lia).
        reflexivity.
      * pose proof (scaled_exponent_lt _ _ _ _ Vx Vy L). by_compare.
      * pose proof (scaled_exponent_lt _ _ _ _ Vy Vx ltac:(lia)). by_compare.
Qed.

(** ** Rounding keeps a positive value positive *)

Lemma shr_m_of_loc (m : Z) (l : location) : shr_m (shr_record_of_loc m l) = m.
Proof. destruct l as [| []]; reflexivity. Qed.

Lemma shr_1_half (r : shr_record) :
  0 <= shr_m r -> shr_m (shr_1 r) = shr_m r / 2.
Proof.
  destruct r as [m rb sb]. simpl shr_m. intros Hm.
  destruct m as [| p | p]; [reflexivity | | lia].
  destruct p as [p | p |]; unfold shr_1, shr_m.
  - rewrite Pos2Z.inj_xI. apply Z.div_unique with 1; lia.
  - rewrite Pos2Z.inj_xO. apply Z.div_unique with 0; lia.
  - reflexivity.
Qed.

Ltac pow_side :=
  first [ lia | apply Z.pow_pos_nonneg; lia | apply Z.pow_nonzero; lia ].

Lemma iter_shr_1 (p : positive) :
  forall r, 0 <= shr_m r ->
    shr_m (iter_pos shr_1 p r) = shr_m r / 2 ^ Z.pos p.
Proof.
  assert (Hnn : forall r, 0 <= shr_m r -> 0 <= shr_m (shr_1 r)).
  { intros r Hr. rewrite shr_1_half by exact Hr. apply Z.div_pos; lia. }
  induction p as [p IH | p IH |]; intros r Hr; simpl iter_pos.
  - assert (H1 : 0 <= shr_m (shr_1 r)) by auto.
    assert (H2 : 0 <= shr_m (iter_pos shr_1 p (shr_1 r))).
    { rewrite IH by exact H1. apply Z.div_pos; [exact H1 | apply Z.pow_pos_nonneg; lia]. }
    rewrite IH by exact H2. rewrite IH by exact H1. rewrite shr_1_half by exact Hr.
    rewrite !Z.div_div by pow_side.
    f_equal. rewrite Pos2Z.inj_xI.
    change 2 with (2 ^ 1) at 1.
    rewrite <- !Z.pow_add_r by lia. f_equal. lia.
  - assert (H2 : 0 <= shr_m (iter_pos shr_1 p r)).
    { rewrite IH by exact Hr. apply Z.div_pos; [exact Hr | apply Z.pow_pos_nonneg; lia]. }
    rewrite IH by exact H2. rewrite IH by exact Hr.
    rewrite Z.div_div by pow_side.
    f_equal. rewrite Pos2Z.inj_xO.
    rewrite <- Z.pow_add_r by lia. f_equal. lia.
  - rewrite shr_1_half by exact Hr. reflexivity.
Qed.

(** The first step of rounding: a positive mantissa at an exponent not
    below [emin] stays positive. *)
Lemma shr_fexp_positive (m : positive) (e : Z) (l : location) :
  -1074 <= e ->
  1 <= shr_m (fst (shr_fexp prec emax (Z.pos m) e l)) /\
  -1074 <= snd (shr_fexp prec emax (Z.pos m) e l).
Proof.
  intros He. unfold shr_fexp, shr.
  pose proof (digits2_pos_lower m) as Hl.
  set (d := Z.pos (digits2_pos m)) in *.
  assert (Hn : fexp prec emax (Zdigits2 (Z.pos m) + e) - e = Z.max (d - 53) (-1074 - e)).
  { unfold fexp, SpecFloat.emin, prec, emax, Zdigits2. fold d. lia. }
  rewrite Hn.
  destruct (Z.max (d - 53) (-1074 - e)) as [| p | p] eqn:E; simpl fst; simpl snd.
  - rewrite shr_m_of_loc. lia.
  - rewrite iter_shr_1 by (rewrite shr_m_of_loc; lia).
    rewrite shr_m_of_loc. split; [|lia].
    assert (Hp : Z.pos p = d - 53) by lia.
    rewrite Hp.
    apply Z.div_le_lower_bound; [apply Z.pow_pos_nonneg; lia|].
    apply Z.le_trans with (2 ^ (d - 1)); [|exact Hl].
    rewrite Z.mul_1_r. apply Z.pow_le_mono_r; lia.
  - rewrite shr_m_of_loc. lia.
Qed.

Lemma round_nearest_even_ge (m : Z) (l : location) : m <= round_nearest_even m l.
Proof.
  destruct l as [| []]; simpl; try lia. destruct (Z.even m); lia.
Qed.

Lemma binary_round_aux_signed (s : bool) (m : positive) (e : Z) (l : location) :
  -1074 <= e -> signedSF s (binary_round_aux prec emax s (Z.pos m) e l).
Proof.
  intros He. unfold binary_round_aux.
  pose proof (shr_fexp_positive m e l He) as [H1 H2].
  destruct (shr_fexp prec emax (Z.pos m) e l) as [mrs' e'].
  simpl fst in H1; simpl snd in H2.
  pose proof (round_nearest_even_ge (shr_m mrs') (loc_of_shr_record mrs')) as Hr.
  destruct (round_nearest_even (shr_m mrs') (loc_of_shr_record mrs')) as [| m2 | m2];
    try lia.
  pose proof (shr_fexp_positive m2 e' loc_Exact H2) as [H3 _].
  destruct (shr_fexp prec emax (Z.pos m2) e' loc_Exact) as [mrs'' e''].
  simpl fst in H3.
  destruct (shr_m mrs'') as [| m3 | m3]; try lia.
  destruct (e'' <=? emax - prec); reflexivity.
Qed.

Lemma binary_round_signed (s : bool) (m : positive) (e : Z) :
  -1074 <= e -> signedSF s (binary_round prec emax s m e).
Proof.
  intros He. unfold binary_round, shl_align.
  set (e' := fexp prec emax (Z.pos (digits2_pos m) + e)).
  assert (He' : -1074 <= e').
  { unfold e', fexp, SpecFloat.emin, prec, emax. lia. }
  destruct (e' - e) as [| d | d] eqn:E;
    apply binary_round_aux_signed; assumption.
Qed.

Lemma signedSF_ltb (s : bool) (x : spec_float) :
  signedSF s x ->
  SFltb (S754_zero false) x = negb s /\ SFltb x (S754_zero false) = s.
Proof.
  destruct x as [| s' | | s' ? ?]; simpl; intros H; try contradiction;
    subst s'; destruct s; split; reflexivity.
Qed.

(** ** The sign of a difference *)

Lemma iter_xO (d : positive) :
  forall m, Z.pos (Pos.iter xO m d) = Z.pos m * 2 ^ Z.pos d.
Proof.
  induction d as [| d IH] using Pos.peano_ind; intros m.
  - simpl. lia.
  - rewrite Pos.iter_succ, Pos2Z.inj_xO, IH, Pos2Z.inj_succ, Z.pow_succ_r by lia. lia.
Qed.

Lemma shl_align_value (m : positive) (e e' : Z) :
  e' <= e -> Z.pos (fst (shl_align m e e')) = Z.pos m * 2 ^ (e - e').
Proof.
  intros H. unfold shl_align.
  destruct (e' - e) as [| d | d] eqn:E; simpl fst.
  - replace (e - e') with 0 by lia. lia.
  - lia.
  - rewrite iter_xO. f_equal. f_equal. lia.
Qed.

(** The aligned mantissas of a difference, in scaled units. *)
Lemma aligned_scaled (s : bool) (m : positive) (e ez : Z) :
  -1074 <= ez -> ez <= e ->
  cond_Zopp s (Z.pos (fst (shl_align m e ez))) * 2 ^ (ez + 1074) =
  scaled (S754_finite s m e).
Proof.
  intros H1 H2. rewrite shl_align_value by exact H2. unfold scaled.
  replace (e + 1074) with ((e - ez) + (ez + 1074)) by lia.
  rewrite (Z.pow_add_r 2 (e - ez) (ez + 1074)) by lia.
  destruct s; unfold cond_Zopp; lia.
Qed.

Lemma binary_normalize_sign (D : Z) (e : Z) :
  -1074 <= e ->
  SFltb (S754_zero false) (binary_normalize prec emax D e false) = (0 <? D) /\
  SFltb (binary_normalize prec emax D e false) (S754_zero false) = (D <? 0).
Proof.
  intros He. destruct D as [| p | p]; unfold binary_normalize.
  - split; reflexivity.
  - apply (signedSF_ltb false), binary_round_signed, He.
  - apply (signedSF_ltb true), binary_round_signed, He.
Qed.

(** The sign of a difference of two binary64 values: it is rounded, but
    never across zero and never to zero. *)
Lemma SFsub_sign (x y : spec_float) :
  valid_binary x = true -> valid_binary y = true ->
  SFltb (S754_zero false) (SFsub prec emax y x) = SFltb x y /\
  SFltb (SFsub prec emax y x) (S754_zero false) = SFltb y x.
Proof.
  intros Vx Vy.
  destruct x as [sx | sx | | sx mx ex], y as [sy | sy | | sy my ey];
    try (destruct sx); try (destruct sy); try (split; reflexivity).
  all: simpl in Vx, Vy.
  all: unfold SFsub.
  all: match goal with
       | |- context [binary_normalize _ _ ?D ?e false] =>
           destruct (binary_normalize_sign D e
                       ltac:(apply bounded_inv in Vx; apply bounded_inv in Vy; lia))
             as [Hpos Hneg];
           rewrite Hpos, Hneg
       end.
  all: unfold SFltb;
    rewrite !SFcompare_scaled by (simpl; congruence).
  all: match goal with
       | |- (0 <? cond_Zopp ?s1 (Z.pos (fst (shl_align ?m1 ?e1 ?ez))) -
                  cond_Zopp ?s2 (Z.pos (fst (shl_align ?m2 ?e2 ?ez)))) = _ /\ _ =>
           assert (Hez : -1074 <= ez /\ ez <= e1 /\ ez <= e2)
             by (apply bounded_inv in Vx; apply bounded_inv in Vy; lia);
           pose proof (aligned_scaled s1 m1 e1 ez ltac:(lia) ltac:(lia)) as A1;
           pose proof (aligned_scaled s2 m2 e2 ez ltac:(lia) ltac:(lia)) as A2;
           set (a1 := cond_Zopp s1 (Z.pos (fst (shl_align m1 e1 ez)))) in *;
           set (a2 := cond_Zopp s2 (Z.pos (fst (shl_align m2 e2 ez)))) in *;
           assert (Hp : 0 < 2 ^ (ez + 1074)) by (apply Z.pow_pos_nonneg; lia);
           rewrite <- A1, <- A2;
           set (P := 2 ^ (ez + 1074)) in *
       end.
  all: split.
  all: try (destruct (Z.compare_spec (a2 * P) (a1 * P)) as [C | C | C];
    destruct (Z.ltb_spec 0 (a1 - a2)) as [L | L]; try reflexivity; exfalso; nia).
  all: destruct (Z.compare_spec (a1 * P) (a2 * P)) as [C | C | C];
    destruct (Z.ltb_spec (a1 - a2) 0) as [L | L]; try reflexivity; exfalso; nia.
Qed.

(** ** Primitive floats *)

Section PrimitiveFloats.
Local Open Scope float_scope.

Lemma Prim2SF_zero : Prim2SF zero = S754_zero false.
Proof. reflexivity. Qed.

Lemma SFcompare_refl (x : spec_float) : x <> S754_nan -> SFcompare x x = Some Eq.
Proof.
  destruct x as [s | s | | s m e]; intros H; try congruence; simpl.
  - reflexivity.
  - destruct s; reflexivity.
  - rewrite Z.compare_refl, Pos.compare_cont_refl. destruct s; reflexivity.
Qed.

Lemma is_nan_spec (x : float) : is_nan x = true <-> Prim2SF x = S754_nan.
Proof.
  unfold is_nan. rewrite eqb_spec. unfold SFeqb. split.
  - intros H. destruct (Prim2SF x) eqn:E; try reflexivity;
      rewrite SFcompare_refl in H by congruence; discriminate.
  - intros ->. reflexivity.
Qed.

Lemma is_nan_false (x : float) : is_nan x = false <-> Prim2SF x <> S754_nan.
Proof.
  rewrite <- is_nan_spec. destruct (is_nan x); split; congruence.
Qed.

Lemma ltb_rank (x y : float) :
  is_nan x = false -> is_nan y = false -> (x <? y) = (rank x <? rank y)%Z.
Proof.
  intros Hx Hy. apply is_nan_false in Hx. apply is_nan_false in Hy.
  rewrite ltb_spec. unfold SFltb, rank.
  rewrite SFcompare_scaled by (try apply Prim2SF_valid; assumption).
  unfold Z.ltb. destruct (scaled (Prim2SF x) ?= scaled (Prim2SF y))%Z; reflexivity.
Qed.

Lemma eqb_rank (x y : float) :
  is_nan x = false -> is_nan y = false -> (x =? y) = (rank x =? rank y)%Z.
Proof.
  intros Hx Hy. apply is_nan_false in Hx. apply is_nan_false in Hy.
  rewrite eqb_spec. unfold SFeqb, rank.
  rewrite SFcompare_scaled by (try apply Prim2SF_valid; assumption).
  destruct (Z.eqb_spec (scaled (Prim2SF x)) (scaled (Prim2SF y))) as [E | N].
  - rewrite E, Z.compare_refl. reflexivity.
  - destruct (scaled (Prim2SF x) ?= scaled (Prim2SF y))%Z eqn:C; try reflexivity.
    apply Z.compare_eq in C. contradiction.
Qed.

Lemma ltb_nan_l (x y : float) : is_nan x = true -> (x <? y) = false.
Proof.
  intros H. apply is_nan_spec in H. rewrite ltb_spec, H. reflexivity.
Qed.

Lemma ltb_nan_r (x y : float) : is_nan y = true -> (x <? y) = false.
Proof.
  intros H. apply is_nan_spec in H. rewrite ltb_spec, H. unfold SFltb, SFcompare.
  destruct (Prim2SF x); reflexivity.
Qed.

Lemma eqb_nan_l (x y : float) : is_nan x = true -> (x =? y) = false.
Proof.
  intros H. apply is_nan_spec in H. rewrite eqb_spec, H. reflexivity.
Qed.

Lemma eqb_nan_r (x y : float) : is_nan y = true -> (x =? y) = false.
Proof.
  intros H. apply is_nan_spec in H. rewrite eqb_spec, H. unfold SFeqb, SFcompare.
  destruct (Prim2SF x); reflexivity.
Qed.

(** The comparator idiom [(a, b) => b - a]: the difference is above zero
    exactly when [a < b], for all numbers. *)
Lemma sub_positive (a b : float) : (zero <? b - a) = (a <? b).
Proof.
  rewrite !ltb_spec, sub_spec, Prim2SF_zero.
  apply SFsub_sign; apply Prim2SF_valid.
Qed.

(** And it is below zero exactly when [b < a]. *)
Lemma sub_negative (a b : float) : (b - a <? zero) = (b <? a).
Proof.
  rewrite !ltb_spec, sub_spec, Prim2SF_zero.
  apply SFsub_sign; apply Prim2SF_valid.
Qed.

Lemma ltb_true_not_nan (x y : number) :
  (x <? y)%float = true -> is_nan x = false /\ is_nan y = false.
Proof.
  intros H. split.
  - destruct (is_nan x) eqn:E; [|reflexivity]. rewrite (ltb_nan_l _ _ E) in H. discriminate.
  - destruct (is_nan y) eqn:E; [|reflexivity]. rewrite (ltb_nan_r _ _ E) in H. discriminate.
Qed.

Lemma leb_rank (x y : number) :
  is_nan x = false -> is_nan y = false -> (x <=? y)%float = (rank x <=? rank y)%Z.
Proof.
  intros Hx Hy. apply is_nan_false in Hx. apply is_nan_false in Hy.
  rewrite leb_spec. unfold SFleb, rank.
  rewrite SFcompare_scaled by (try apply Prim2SF_valid; assumption).
  unfold Z.leb. destruct (scaled (Prim2SF x) ?= scaled (Prim2SF y))%Z; reflexivity.
Qed.

(** A number above zero is not [=== 0]; a number below zero is truthy. *)
Lemma positive_not_zero (x : number) :
  (zero <? x)%float = true -> strictEq x zero = false.
Proof.
  intros H. unfold strictEq.
  assert (Nx : is_nan x = false).
  { destruct (is_nan x) eqn:E; [|reflexivity].
    rewrite (ltb_nan_r _ _ E) in H. discriminate. }
  rewrite (ltb_rank zero x eq_refl Nx) in H. rewrite (eqb_rank x zero Nx eq_refl).
  apply Z.ltb_lt in H. apply Z.eqb_neq. lia.
Qed.

Lemma negative_truthy (x : number) : (x <? zero)%float = true -> truthy x = true.
Proof.
  intros H. destruct (ltb_true_not_nan _ _ H) as [Nx _].
  unfold truthy, is_zero. rewrite Nx, orb_false_r.
  rewrite (ltb_rank x zero Nx eq_refl) in H. rewrite (eqb_rank x zero Nx eq_refl).
  apply Z.ltb_lt in H. apply negb_true_iff, Z.eqb_neq. lia.
Qed.

End PrimitiveFloats.

Section SortFacts.
Context {A : Type}.
Variable comparefn : A -> A -> number.

(* ===================================================================== *)
(** * Facts about [Array.prototype.sort] *)
(* ===================================================================== *)

Lemma goesAfter_comparefn (x y : A) :
  goesAfter comparefn x y = (zero <? comparefn x y)%float.
Proof.
  unfold goesAfter, sortCompare.
  destruct (is_nan (comparefn x y)) eqn:E; [|reflexivity].
  rewrite (ltb_nan_r _ _ E). reflexivity.
Qed.

Lemma insertSorted_perm (x : A) (l : list A) :
  Permutation (insertSorted comparefn x l) (x :: l).
Proof.
  induction l as [| y l IH]; simpl.
  - apply Permutation_refl.
  - destruct (zero <? sortCompare comparefn x y)%float.
    + eapply perm_trans; [apply perm_skip, IH | apply perm_swap].
    + apply Permutation_refl.
Qed.

Lemma sort_perm (l : list A) : Permutation (sort comparefn l) l.
Proof.
  induction l as [| x l IH]; simpl.
  - apply perm_nil.
  - eapply perm_trans; [apply insertSorted_perm | apply perm_skip, IH].
Qed.

Lemma sort_length (l : list A) : List.length (sort comparefn l) = List.length l.
Proof. apply Permutation_length, sort_perm. Qed.

Lemma sort_In (x : A) (l : list A) : In x (sort comparefn l) <-> In x l.
Proof.
  split; apply Permutation_in; [apply sort_perm | apply Permutation_sym, sort_perm].
Qed.

Variable rk : A -> Z.

Lemma insertSorted_sorted (x : A) (l : list A) :
  (forall y, In y l -> goesAfter comparefn x y = (rk y <? rk x)) ->
  StronglySorted (rkLe rk) l -> StronglySorted (rkLe rk) (insertSorted comparefn x l).
Proof.
  induction l as [| y l IH]; intros Hx Hs; simpl.
  - constructor; constructor.
  - inversion Hs as [| ? ? Hs' Hy]; subst.
    fold (goesAfter comparefn x y). rewrite (Hx y (or_introl eq_refl)).
    destruct (Z.ltb_spec (rk y) (rk x)) as [L | L].
    + constructor.
      * apply IH; [intros z Hz; apply Hx; right; exact Hz | exact Hs'].
      * eapply Permutation_Forall; [apply Permutation_sym, insertSorted_perm|].
        constructor; [unfold rkLe; lia | exact Hy].
    + constructor; [exact Hs|].
      constructor; [exact L|].
      eapply Forall_impl; [|exact Hy]. unfold rkLe. intros; lia.
Qed.

Lemma ranked_tail (x : A) (l : list A) :
  ranked comparefn rk (x :: l) -> ranked comparefn rk l.
Proof. intros H a b Ha Hb. apply H; right; assumption. Qed.

Lemma sort_sorted (l : list A) :
  ranked comparefn rk l -> StronglySorted (rkLe rk) (sort comparefn l).
Proof.
  induction l as [| x l IH]; intros Hr; simpl.
  - constructor.
  - apply insertSorted_sorted.
    + intros y Hy. apply Hr; [left; reflexivity | right; apply sort_In, Hy].
    + apply IH, (ranked_tail x), Hr.
Qed.

Lemma sorted_strict (l : list A) :
  StronglySorted (rkLe rk) l -> NoDup (map rk l) -> StronglySorted (rkLt rk) l.
Proof.
  induction 1 as [| x l Hs IH Hx]; intros Hn; constructor.
  - apply IH. inversion Hn; assumption.
  - inversion Hn as [| ? ? Hnot _]; subst.
    rewrite Forall_forall in *. intros y Hy.
    specialize (Hx y Hy). unfold rkLe in Hx. unfold rkLt.
    assert (rk x <> rk y).
    { intros E. apply Hnot. rewrite E. apply in_map, Hy. }
    lia.
Qed.

(** A list strictly sorted by rank is determined by its elements. *)
Lemma strictly_sorted_unique (l1 : list A) :
  forall l2, Permutation l1 l2 ->
    StronglySorted (rkLt rk) l1 -> StronglySorted (rkLt rk) l2 -> l1 = l2.
Proof.
  induction l1 as [| a l1 IH]; intros l2 Hp H1 H2.
  - apply Permutation_nil in Hp. subst. reflexivity.
  - destruct l2 as [| b l2].
    + apply Permutation_sym, Permutation_nil in Hp. discriminate.
    + inversion H1 as [| ? ? H1' Ha]; subst.
      inversion H2 as [| ? ? H2' Hb]; subst.
      rewrite Forall_forall in Ha, Hb.
      assert (Eab : a = b).
      { assert (Ia : In a (b :: l2)) by (eapply Permutation_in; [exact Hp | left; reflexivity]).
        assert (Ib : In b (a :: l1)).
        { eapply Permutation_in; [apply Permutation_sym, Hp | left; reflexivity]. }
        destruct Ia as [E | Ia]; [symmetry; exact E|].
        destruct Ib as [E | Ib]; [exact E|].
        specialize (Ha b Ib). specialize (Hb a Ia). unfold rkLt in *. lia. }
      subst b. f_equal. apply IH; try assumption.
      eapply Permutation_cons_inv, Hp.
Qed.

Lemma ranked_perm (l l' : list A) :
  Permutation l l' -> ranked comparefn rk l -> ranked comparefn rk l'.
Proof.
  intros Hp Hr x y Hx Hy.
  apply Hr; eapply Permutation_in; try apply Permutation_sym, Hp; assumption.
Qed.

Lemma sort_strictly_sorted (l : list A) :
  ranked comparefn rk l -> NoDup (map rk l) -> StronglySorted (rkLt rk) (sort comparefn l).
Proof.
  intros Hr Hn. apply sorted_strict; [apply sort_sorted, Hr|].
  eapply Permutation_NoDup; [|exact Hn].
  apply Permutation_map, Permutation_sym, sort_perm.
Qed.

(** With pairwise distinct ranks the sorted list does not depend on the
    order of the input. *)
Lemma sort_permutation (l l' : list A) :
  Permutation l l' -> ranked comparefn rk l -> NoDup (map rk l) ->
  sort comparefn l = sort comparefn l'.
Proof.
  intros Hp Hr Hn. apply strictly_sorted_unique.
  - eapply perm_trans; [apply sort_perm|].
    eapply perm_trans; [exact Hp | apply Permutation_sym, sort_perm].
  - apply sort_strictly_sorted; assumption.
  - apply sort_strictly_sorted.
    + eapply ranked_perm; eassumption.
    + eapply Permutation_NoDup; [|exact Hn]. apply Permutation_map, Hp.
Qed.
End SortFacts.

(* ===================================================================== *)
(** * Facts about [Map] *)
(* ===================================================================== *)

Lemma sameValueZero_spec (x y : number) :
  sameValueZero x y = true <-> mapKey x = mapKey y.
Proof.
  unfold sameValueZero, mapKey.
  destruct (is_nan x) eqn:Nx, (is_nan y) eqn:Ny.
  - rewrite (eqb_nan_l _ _ Nx). simpl. tauto.
  - rewrite (eqb_nan_l _ _ Nx). simpl. split; discriminate.
  - rewrite (eqb_nan_r _ _ Ny). simpl. split; discriminate.
  - rewrite (eqb_rank _ _ Nx Ny), andb_false_r, orb_false_r.
    rewrite Z.eqb_eq. split; congruence.
Qed.

Lemma sameValueZero_false (x y : number) :
  sameValueZero x y = false <-> mapKey x <> mapKey y.
Proof.
  rewrite <- sameValueZero_spec. destruct (sameValueZero x y); split; congruence.
Qed.

Lemma sameValueZero_refl (x : number) : sameValueZero x x = true.
Proof. apply sameValueZero_spec. reflexivity. Qed.

Lemma sameValueZero_key (x y z : number) :
  mapKey x = mapKey y -> sameValueZero z x = sameValueZero z y.
Proof.
  intros E. destruct (sameValueZero z y) eqn:H.
  - apply sameValueZero_spec. apply sameValueZero_spec in H. congruence.
  - apply sameValueZero_false. apply sameValueZero_false in H. congruence.
Qed.

Lemma is_zero_key (x : number) : is_zero x = true -> mapKey x = mapKey zero.
Proof.
  unfold is_zero. intros H.
  assert (Nx : is_nan x = false).
  { destruct (is_nan x) eqn:E; [|reflexivity].
    rewrite (eqb_nan_l _ _ E) in H. discriminate. }
  unfold mapKey. rewrite Nx. change (is_nan zero) with false. cbv iota.
  rewrite (eqb_rank x zero Nx eq_refl) in H. apply Z.eqb_eq in H. congruence.
Qed.

(** [Map.set] stores [-0] as [+0], the same key. *)
Lemma canonical_key (key : number) :
  mapKey (if is_zero key then zero else key) = mapKey key.
Proof.
  destruct (is_zero key) eqn:E; [|reflexivity].
  symmetry. apply is_zero_key, E.
Qed.

Section MapFacts.
Context {V : Type}.

Lemma mapGet_key (k k' : number) (m : Map V) :
  mapKey k = mapKey k' -> mapGet k m = mapGet k' m.
Proof.
  intros E. induction m as [| [k0 v0] m IH]; simpl; [reflexivity|].
  rewrite (sameValueZero_key _ _ k0 E), IH. reflexivity.
Qed.

Lemma mapGet_None (k : number) (m : Map V) :
  mapGet k m = None <-> ~ In (mapKey k) (keysOf m).
Proof.
  induction m as [| [k0 v0] m IH]; simpl.
  - tauto.
  - destruct (sameValueZero k0 k) eqn:E.
    + apply sameValueZero_spec in E. split; [discriminate | intros H; exfalso; auto].
    + apply sameValueZero_false in E. rewrite IH. split.
      * intros H [H' | H']; [congruence | auto].
      * intros H H'. apply H. right. exact H'.
Qed.

Lemma mapGet_In (k : number) (v : V) (m : Map V) :
  mapGet k m = Some v -> exists k0, In (k0, v) m /\ mapKey k0 = mapKey k.
Proof.
  induction m as [| [k0 v0] m IH]; simpl; [discriminate|].
  destruct (sameValueZero k0 k) eqn:E.
  - intros H. injection H as <-. exists k0. split; [left; reflexivity|].
    apply sameValueZero_spec, E.
  - intros H. destruct (IH H) as (k1 & H1 & H2). exists k1. split; [right|]; assumption.
Qed.

(** *** [set] *)

Lemma mapGet_setAux_same (k : number) (v : V) (m : Map V) :
  mapGet k (mapSetAux k v m) = Some v.
Proof.
  induction m as [| [k0 v0] m IH]; simpl.
  - rewrite sameValueZero_refl. reflexivity.
  - destruct (sameValueZero k0 k) eqn:E; simpl; rewrite E; [reflexivity | exact IH].
Qed.

Lemma mapGet_setAux_other (k k' : number) (v : V) (m : Map V) :
  mapKey k' <> mapKey k -> mapGet k' (mapSetAux k v m) = mapGet k' m.
Proof.
  intros N. induction m as [| [k0 v0] m IH]; simpl.
  - assert (E : sameValueZero k k' = false) by (apply sameValueZero_false; congruence).
    rewrite E. reflexivity.
  - destruct (sameValueZero k0 k) eqn:E; simpl.
    + destruct (sameValueZero k0 k') eqn:E'; [|reflexivity].
      apply sameValueZero_spec in E, E'. congruence.
    + rewrite IH. reflexivity.
Qed.

Lemma mapGet_set_same (k k' : number) (v : V) (m : Map V) :
  mapKey k' = mapKey k -> mapGet k' (mapSet k v m) = Some v.
Proof.
  intros E. unfold mapSet.
  rewrite (mapGet_key k' (if is_zero k then zero else k)).
  - apply mapGet_setAux_same.
  - rewrite canonical_key. exact E.
Qed.

Lemma mapGet_set_other (k k' : number) (v : V) (m : Map V) :
  mapKey k' <> mapKey k -> mapGet k' (mapSet k v m) = mapGet k' m.
Proof.
  intros N. unfold mapSet. apply mapGet_setAux_other. rewrite canonical_key. exact N.
Qed.

Lemma keysOf_setAux (k : number) (v : V) (m : Map V) :
  (In (mapKey k) (keysOf m) /\ keysOf (mapSetAux k v m) = keysOf m) \/
  (~ In (mapKey k) (keysOf m) /\ keysOf (mapSetAux k v m) = keysOf m ++ [mapKey k]).
Proof.
  induction m as [| [k0 v0] m IH]; simpl.
  - right. split; [tauto | reflexivity].
  - destruct (sameValueZero k0 k) eqn:E; simpl.
    + apply sameValueZero_spec in E. left. split; [left; exact E | reflexivity].
    + apply sameValueZero_false in E.
      destruct IH as [[H1 H2] | [H1 H2]]; [left | right]; rewrite H2;
        (split; [|reflexivity]).
      * right. exact H1.
      * intros [H | H]; [congruence | auto].
Qed.

Lemma keysOf_set (k : number) (v : V) (m : Map V) :
  (In (mapKey k) (keysOf m) /\ keysOf (mapSet k v m) = keysOf m) \/
  (~ In (mapKey k) (keysOf m) /\ keysOf (mapSet k v m) = keysOf m ++ [mapKey k]).
Proof.
  unfold mapSet.
  pose proof (keysOf_setAux (if is_zero k then zero else k) v m) as H.
  rewrite canonical_key in H. exact H.
Qed.

Lemma NoDup_keys_set (k : number) (v : V) (m : Map V) :
  NoDup (keysOf m) -> NoDup (keysOf (mapSet k v m)).
Proof.
  intros H. destruct (keysOf_set k v m) as [[_ E] | [N E]]; rewrite E; [exact H|].
  apply NoDup_app; [exact H | repeat constructor; simpl; tauto|].
  intros x Hx [<- | []]. exact (N Hx).
Qed.

Lemma In_keys_set (k : number) (v : V) (m : Map V) (x : option Z) :
  In x (keysOf (mapSet k v m)) <-> x = mapKey k \/ In x (keysOf m).
Proof.
  destruct (keysOf_set k v m) as [[I E] | [N E]]; rewrite E.
  - split; [tauto | intros [-> | H]; assumption].
  - rewrite in_app_iff. simpl. split; [intros [H | [H | []]]; auto | intros [H | H]; auto].
Qed.

Lemma In_setAux (k : number) (v : V) (m : Map V) (e : number * V) :
  In e (mapSetAux k v m) -> snd e = v \/ In e m.
Proof.
  induction m as [| [k0 v0] m IH]; simpl.
  - intros [<- | []]. left. reflexivity.
  - destruct (sameValueZero k0 k); simpl.
    + intros [<- | H]; [left; reflexivity | right; right; exact H].
    + intros [<- | H]; [right; left; reflexivity|].
      destruct (IH H); [left | right; right]; assumption.
Qed.

Lemma In_setAux_key (k : number) (v : V) (m : Map V) (e : number * V) :
  In e (mapSetAux k v m) -> (snd e = v /\ mapKey (fst e) = mapKey k) \/ In e m.
Proof.
  induction m as [| [k0 v0] m IH]; simpl.
  - intros [<- | []]. left. split; reflexivity.
  - destruct (sameValueZero k0 k) eqn:E; simpl.
    + intros [<- | H]; [left | right; right; exact H].
      split; [reflexivity | apply sameValueZero_spec, E].
    + intros [<- | H]; [right; left; reflexivity|].
      destruct (IH H); [left | right; right]; assumption.
Qed.

Lemma Forall_values_set (P : V -> Prop) (k : number) (v : V) (m : Map V) :
  P v -> Forall P (mapValues m) -> Forall P (mapValues (mapSet k v m)).
Proof.
  unfold mapValues. rewrite !Forall_map, !Forall_forall.
  intros Hv H e He. apply In_setAux in He. destruct He as [-> | He]; auto.
Qed.

(** *** [delete] *)

Lemma In_delete (k : number) (m : Map V) (e : number * V) :
  In e (mapDelete k m) -> In e m.
Proof.
  induction m as [| [k0 v0] m IH]; simpl; [tauto|].
  destruct (sameValueZero k0 k); simpl; [tauto|].
  intros [H | H]; [left; exact H | right; apply IH, H].
Qed.

Lemma In_keys_delete (k : number) (m : Map V) (x : option Z) :
  In x (keysOf (mapDelete k m)) -> In x (keysOf m).
Proof.
  unfold keysOf. rewrite !in_map_iff. intros (e & H1 & H2).
  exists e. split; [exact H1 | apply (In_delete k), H2].
Qed.

Lemma NoDup_keys_delete (k : number) (m : Map V) :
  NoDup (keysOf m) -> NoDup (keysOf (mapDelete k m)).
Proof.
  induction m as [| [k0 v0] m IH]; simpl; [tauto|].
  intros H. inversion H as [| ? ? Hn Hd]; subst.
  destruct (sameValueZero k0 k); simpl; [exact Hd|].
  constructor; [|apply IH, Hd].
  intros Hi. apply Hn. apply (In_keys_delete k), Hi.
Qed.

Lemma Forall_values_delete (P : V -> Prop) (k : number) (m : Map V) :
  Forall P (mapValues m) -> Forall P (mapValues (mapDelete k m)).
Proof.
  unfold mapValues. rewrite !Forall_map, !Forall_forall.
  intros H e He. apply H, (In_delete k), He.
Qed.

Lemma mapGet_delete_same (k : number) (m : Map V) :
  NoDup (keysOf m) -> mapGet k (mapDelete k m) = None.
Proof.
  induction m as [| [k0 v0] m IH]; simpl; [reflexivity|].
  intros H. inversion H as [| ? ? Hn Hd]; subst.
  destruct (sameValueZero k0 k) eqn:E; simpl.
  - apply mapGet_None. apply sameValueZero_spec in E. simpl in E. rewrite <- E. exact Hn.
  - rewrite E. apply IH, Hd.
Qed.

Lemma mapGet_delete_other (k k' : number) (m : Map V) :
  mapKey k' <> mapKey k -> mapGet k' (mapDelete k m) = mapGet k' m.
Proof.
  intros N. induction m as [| [k0 v0] m IH]; simpl; [reflexivity|].
  destruct (sameValueZero k0 k) eqn:E; simpl.
  - destruct (sameValueZero k0 k') eqn:E'; [|reflexivity].
    apply sameValueZero_spec in E, E'. congruence.
  - rewrite IH. reflexivity.
Qed.

(** Deleting an absent key changes nothing. *)
Lemma mapDelete_absent (k : number) (m : Map V) :
  mapGet k m = None -> mapDelete k m = m.
Proof.
  induction m as [| [k0 v0] m IH]; simpl; [reflexivity|].
  destruct (sameValueZero k0 k); [discriminate|].
  intros H. rewrite (IH H). reflexivity.
Qed.

Lemma length_delete_present (k : number) (v : V) (m : Map V) :
  mapGet k m = Some v -> S (List.length (mapDelete k m)) = List.length m.
Proof.
  induction m as [| [k0 v0] m IH]; simpl; [discriminate|].
  destruct (sameValueZero k0 k); [reflexivity|].
  intros H. simpl. rewrite (IH H). reflexivity.
Qed.
End MapFacts.

(* ===================================================================== *)
(** * The methods, equation by equation *)
(* ===================================================================== *)

Lemma forOf_bids (levels : list PriceLevel.t) (this : R.t) :
  R.forOf levels (fun level =>
    let price := parseFloat (PriceLevel.px level) in
    R.modify (R.updBids (mapSet price
      (InternalLevel.mk price (parseFloat (PriceLevel.sz level)) (PriceLevel.n level))))) this =
  (R.updBids (loadLevels levels) this, Normal tt).
Proof.
  revert this. induction levels as [| level levels IH]; intros this.
  - destruct this; reflexivity.
  - simpl R.forOf. unfold R.bind at 1. cbv zeta. unfold R.modify at 1.
    rewrite IH. destruct this; reflexivity.
Qed.

Lemma forOf_asks (levels : list PriceLevel.t) (this : R.t) :
  R.forOf levels (fun level =>
    let price := parseFloat (PriceLevel.px level) in
    R.modify (R.updAsks (mapSet price
      (InternalLevel.mk price (parseFloat (PriceLevel.sz level)) (PriceLevel.n level))))) this =
  (R.updAsks (loadLevels levels) this, Normal tt).
Proof.
  revert this. induction levels as [| level levels IH]; intros this.
  - destruct this; reflexivity.
  - simpl R.forOf. unfold R.bind at 1. cbv zeta. unfold R.modify at 1.
    rewrite IH. destruct this; reflexivity.
Qed.

(** [initialize] always completes, and what it leaves depends on the
    checkpoint alone. *)
Lemma initialize_eq (checkpoint : OrderBook.t) (this : R.t) :
  R.initialize checkpoint this = (loaded checkpoint, Normal tt).
Proof.
  unfold R.initialize.
  repeat (unfold R.bind at 1; unfold R.modify at 1).
  rewrite forOf_bids, forOf_asks. reflexivity.
Qed.

(** [applyDelta] changes the selected side first; the timestamp and the
    sequence follow only if [toISOString] does not throw. *)
Lemma applyDelta_eq (delta : OrderbookDelta.t) (this : R.t) :
  R.applyDelta delta this =
  let this' := R.updBook (OrderbookDelta.side delta) (levelChange delta) this in
  match newDate (OrderbookDelta.timestamp delta) with
  | Some t =>
      (R.setLastSequence (OrderbookDelta.sequence delta)
         (R.setLastTimestamp (isoString t) this'), Normal tt)
  | None => (this', Throw RangeError)
  end.
Proof.
  unfold R.applyDelta, levelChange, R.bind, R.lift, R.modify, toISOString.
  destruct (strictEq (OrderbookDelta.size delta) zero);
    destruct (newDate (OrderbookDelta.timestamp delta)); reflexivity.
Qed.

Lemma applyDelta_valid (delta : OrderbookDelta.t) (this : R.t) :
  validTimestamp delta ->
  R.applyDelta delta this = (fst (R.applyDelta delta this), Normal tt).
Proof.
  unfold validTimestamp. rewrite applyDelta_eq. cbv zeta.
  destruct (newDate (OrderbookDelta.timestamp delta)); [reflexivity | congruence].
Qed.

(* ===================================================================== *)
(** * Loading a checkpoint *)
(* ===================================================================== *)

Lemma loadLevels_cons (level : PriceLevel.t) (levels : list PriceLevel.t)
    (m : Map InternalLevel.t) :
  loadLevels (level :: levels) m =
  loadLevels levels (mapSet (InternalLevel.price (internalOf level)) (internalOf level) m).
Proof. reflexivity. Qed.

(** After a loading loop a key holds the last level loaded under it, or
    what it held before when no level has the key. *)
Lemma loadLevels_get (k : number) (levels : list PriceLevel.t) :
  forall m,
    (exists level, In level levels /\
       mapKey (InternalLevel.price (internalOf level)) = mapKey k /\
       mapGet k (loadLevels levels m) = Some (internalOf level)) \/
    ((forall level, In level levels ->
        mapKey (InternalLevel.price (internalOf level)) <> mapKey k) /\
     mapGet k (loadLevels levels m) = mapGet k m).
Proof.
  induction levels as [| level levels IH]; intros m.
  - right. split; [intros ? [] | reflexivity].
  - rewrite loadLevels_cons.
    destruct (IH (mapSet (InternalLevel.price (internalOf level)) (internalOf level) m))
      as [(level' & Hin & Hkey & Hget) | (Hnone & Hget)].
    + left. exists level'. split; [right; exact Hin | split; assumption].
    + assert (D : {mapKey (InternalLevel.price (internalOf level)) = mapKey k} +
                  {mapKey (InternalLevel.price (internalOf level)) <> mapKey k}).
      { decide equality. apply Z.eq_dec. }
      destruct D as [E | N].
      * left. exists level. split; [left; reflexivity | split; [exact E|]].
        rewrite Hget. apply mapGet_set_same. symmetry. exact E.
      * right. split.
        -- intros level' [<- | Hin]; [exact N | apply Hnone, Hin].
        -- rewrite Hget. apply mapGet_set_other. congruence.
Qed.

Lemma loadLevels_resident (levels : list PriceLevel.t) (level : PriceLevel.t) :
  In level levels ->
  exists level', In level' levels /\
    mapKey (parseFloat (PriceLevel.px level')) = mapKey (parseFloat (PriceLevel.px level)) /\
    mapGet (parseFloat (PriceLevel.px level)) (loadLevels levels []) = Some (internalOf level').
Proof.
  intros Hin.
  destruct (loadLevels_get (parseFloat (PriceLevel.px level)) levels [])
    as [(level' & H1 & H2 & H3) | (Hnone & _)].
  - exists level'. auto.
  - exfalso. apply (Hnone level Hin). reflexivity.
Qed.

Lemma loadLevels_values (levels : list PriceLevel.t) :
  forall m v, In v (mapValues (loadLevels levels m)) ->
    (exists level, In level levels /\ v = internalOf level) \/ In v (mapValues m).
Proof.
  induction levels as [| level levels IH]; intros m v Hv.
  - right. exact Hv.
  - rewrite loadLevels_cons in Hv. destruct (IH _ v Hv) as [(l & H1 & H2) | H].
    + left. exists l. split; [right; exact H1 | exact H2].
    + unfold mapValues in H. apply in_map_iff in H. destruct H as ([k0 v0] & <- & H).
      apply In_setAux in H. simpl in H. destruct H as [-> | H].
      * left. exists level. split; [left|]; reflexivity.
      * right. unfold mapValues. apply in_map_iff. exists (k0, v0). split; [reflexivity | exact H].
Qed.

(* ===================================================================== *)
(** * Invariants of the reachable states *)
(* ===================================================================== *)

Lemma wfBook_nil : wfBook [].
Proof. split; constructor. Qed.

Lemma wfBook_set (level : InternalLevel.t) (m : Map InternalLevel.t) :
  wfBook m -> wfBook (mapSet (InternalLevel.price level) level m).
Proof.
  intros [Hn Hf]. split; [apply NoDup_keys_set, Hn|].
  rewrite Forall_forall in *. intros e He. unfold mapSet in He.
  apply In_setAux_key in He. destruct He as [[-> Hk] | He]; [|apply Hf, He].
  rewrite Hk. apply canonical_key.
Qed.

Lemma wfBook_delete (k : number) (m : Map InternalLevel.t) :
  wfBook m -> wfBook (mapDelete k m).
Proof.
  intros [Hn Hf]. split; [apply NoDup_keys_delete, Hn|].
  rewrite Forall_forall in *. intros e He. apply Hf, (In_delete k), He.
Qed.

Lemma wfBook_load (levels : list PriceLevel.t) :
  forall m, wfBook m -> wfBook (loadLevels levels m).
Proof.
  induction levels as [| level levels IH]; intros m Hm; [exact Hm|].
  rewrite loadLevels_cons. apply IH, wfBook_set, Hm.
Qed.

Lemma wfBook_change (delta : OrderbookDelta.t) (m : Map InternalLevel.t) :
  wfBook m -> wfBook (levelChange delta m).
Proof.
  intros Hm. unfold levelChange.
  destruct (strictEq (OrderbookDelta.size delta) zero).
  - apply wfBook_delete, Hm.
  - apply (wfBook_set (InternalLevel.mk _ _ _)), Hm.
Qed.

Lemma applyDelta_books (delta : OrderbookDelta.t) (this : R.t) :
  bookOf (OrderbookDelta.side delta) (fst (R.applyDelta delta this)) =
    levelChange delta (bookOf (OrderbookDelta.side delta) this) /\
  bookOf (opposite (OrderbookDelta.side delta)) (fst (R.applyDelta delta this)) =
    bookOf (opposite (OrderbookDelta.side delta)) this /\
  R.coin (fst (R.applyDelta delta this)) = R.coin this.
Proof.
  rewrite applyDelta_eq. cbv zeta.
  destruct (newDate (OrderbookDelta.timestamp delta));
    destruct (OrderbookDelta.side delta); destruct this; repeat split.
Qed.

Lemma wellFormed_applyDelta (delta : OrderbookDelta.t) (this : R.t) :
  wellFormed this -> wellFormed (fst (R.applyDelta delta this)).
Proof.
  intros [Hb Ha]. destruct (applyDelta_books delta this) as (H1 & H2 & _).
  unfold wellFormed.
  destruct (OrderbookDelta.side delta); simpl in H1, H2; rewrite H1, H2;
    split; try assumption; apply wfBook_change; assumption.
Qed.

Lemma reachable_wellFormed (this : R.t) : reachable this -> wellFormed this.
Proof.
  induction 1 as [| checkpoint this _ _ | delta this _ IH].
  - split; apply wfBook_nil.
  - rewrite initialize_eq. split; apply wfBook_load, wfBook_nil.
  - apply wellFormed_applyDelta, IH.
Qed.

(* ===================================================================== *)
(** * Sizes of zero *)
(* ===================================================================== *)

Lemma noZeroBook_load (levels : list PriceLevel.t) :
  Forall (fun level => strictEq (parseFloat (PriceLevel.sz level)) zero = false) levels ->
  forall m, noZeroBook m -> noZeroBook (loadLevels levels m).
Proof.
  induction 1 as [| level levels Hl _ IH]; intros m Hm; [exact Hm|].
  rewrite loadLevels_cons. apply IH. apply Forall_values_set; assumption.
Qed.

Lemma noZeroBook_change (delta : OrderbookDelta.t) (m : Map InternalLevel.t) :
  noZeroBook m -> noZeroBook (levelChange delta m).
Proof.
  intros Hm. unfold levelChange.
  destruct (strictEq (OrderbookDelta.size delta) zero) eqn:E.
  - apply Forall_values_delete, Hm.
  - apply Forall_values_set; [exact E | exact Hm].
Qed.

Lemma noZeroSize_applyDelta (delta : OrderbookDelta.t) (this : R.t) :
  noZeroSize this -> noZeroSize (fst (R.applyDelta delta this)).
Proof.
  intros [Hb Ha]. destruct (applyDelta_books delta this) as (H1 & H2 & _).
  unfold noZeroSize.
  destruct (OrderbookDelta.side delta); simpl in H1, H2; rewrite H1, H2;
    split; try assumption; apply noZeroBook_change; assumption.
Qed.

Lemma noZeroSize_initialize (checkpoint : OrderBook.t) (this : R.t) :
  sizesNonZero checkpoint -> noZeroSize (fst (R.initialize checkpoint this)).
Proof.
  unfold sizesNonZero. rewrite Forall_app. intros [Hb Ha].
  rewrite initialize_eq. split; apply noZeroBook_load; try assumption; constructor.
Qed.

Lemma noZeroSize_callAll (calls : list Call) :
  checkpointsNonZero calls ->
  forall this, noZeroSize this -> noZeroSize (callAll calls this).
Proof.
  induction 1 as [| c calls Hc _ IH]; intros this Ht; [exact Ht|].
  apply IH. destruct c as [checkpoint | delta]; simpl.
  - apply noZeroSize_initialize, Hc.
  - apply noZeroSize_applyDelta, Ht.
Qed.

(* ===================================================================== *)
(** * The order of the sorted levels *)
(* ===================================================================== *)

(** [getSnapshot] reads the instance and never throws. *)
Lemma getSnapshot_eq (depth : option number) (this : R.t) :
  R.getSnapshot depth this = (this, Normal (R.snapshotOf depth this)).
Proof. reflexivity. Qed.

Lemma StronglySorted_map {A B} (R1 : A -> A -> Prop) (R2 : B -> B -> Prop)
    (f : A -> B) (l : list A) :
  (forall a b, In a l -> In b l -> R1 a b -> R2 (f a) (f b)) ->
  StronglySorted R1 l -> StronglySorted R2 (map f l).
Proof.
  intros H Hs. induction Hs as [| a l Hs IH Ha]; simpl; constructor.
  - apply IH. intros x y Hx Hy. apply H; right; assumption.
  - rewrite Forall_map. rewrite Forall_forall in *. intros x Hx.
    apply H; [left; reflexivity | right; exact Hx | apply Ha, Hx].
Qed.

Lemma In_firstn {A} (x : A) (n : nat) (l : list A) : In x (firstn n l) -> In x l.
Proof.
  intros H. rewrite <- (firstn_skipn n l). apply in_or_app. left. exact H.
Qed.

Lemma StronglySorted_firstn {A} (R1 : A -> A -> Prop) (n : nat) (l : list A) :
  StronglySorted R1 l -> StronglySorted R1 (firstn n l).
Proof.
  intros Hs. revert n. induction Hs as [| a l Hs IH Ha]; intros [| n]; simpl;
    try constructor.
  - apply IH.
  - rewrite Forall_forall in *. intros x Hx. apply Ha. eapply In_firstn, Hx.
Qed.

(** A depth limit keeps a prefix. *)
Lemma limit_prefix {A} (depth : option number) (l : list A) :
  exists n, R.limit depth l = firstn n l.
Proof.
  unfold R.limit, slice0. destruct depth as [d |].
  - destruct (truthy d); [eexists; reflexivity|].
    exists (List.length l). symmetry. apply firstn_all.
  - exists (List.length l). symmetry. apply firstn_all.
Qed.

(** The comparators agree with the order of the prices. *)
Lemma byPriceDesc_ranked (levels : list InternalLevel.t) :
  Forall (fun level => is_nan (InternalLevel.price level) = false) levels ->
  ranked R.byPriceDesc (fun level => - rank (InternalLevel.price level)) levels.
Proof.
  rewrite Forall_forall. intros H x y Hx Hy.
  rewrite goesAfter_comparefn. unfold R.byPriceDesc.
  rewrite sub_positive, (ltb_rank _ _ (H x Hx) (H y Hy)).
  destruct (Z.ltb_spec (rank (InternalLevel.price x)) (rank (InternalLevel.price y)));
    symmetry; [apply Z.ltb_lt | apply Z.ltb_ge]; lia.
Qed.

Lemma byPriceAsc_ranked (levels : list InternalLevel.t) :
  Forall (fun level => is_nan (InternalLevel.price level) = false) levels ->
  ranked R.byPriceAsc (fun level => rank (InternalLevel.price level)) levels.
Proof.
  rewrite Forall_forall. intros H x y Hx Hy.
  rewrite goesAfter_comparefn. unfold R.byPriceAsc.
  rewrite sub_positive, (ltb_rank _ _ (H y Hy) (H x Hx)). reflexivity.
Qed.

(** In a well-formed side without [NaN] the prices have distinct ranks. *)
Lemma wfBook_distinct_ranks (m : Map InternalLevel.t) :
  wfBook m -> noNaNBook m ->
  NoDup (map (fun level => rank (InternalLevel.price level)) (mapValues m)).
Proof.
  intros [Hn Hf] Hnan. unfold noNaNBook, mapValues in *.
  rewrite Forall_map in Hnan. rewrite map_map.
  induction m as [| [k v] m IH]; simpl; [constructor|].
  inversion Hn as [| ? ? Hnot Hn']; subst.
  inversion Hf as [| ? ? Hkv Hf']; subst.
  inversion Hnan as [| ? ? Hv Hnan']; subst.
  simpl in Hkv, Hv.
  constructor; [|apply IH; assumption].
  intros Hin. apply Hnot. apply in_map_iff in Hin. destruct Hin as ([k' v'] & E & Hin).
  simpl in E. apply in_map_iff. exists (k', v'). split; [|exact Hin].
  rewrite Forall_forall in Hf', Hnan'.
  specialize (Hf' _ Hin). specialize (Hnan' _ Hin). simpl in Hf', Hnan'.
  simpl. rewrite Hkv, Hf'. unfold mapKey. rewrite Hv, Hnan'. f_equal. exact E.
Qed.

Lemma NoDup_map_opp (l : list Z) : NoDup l -> NoDup (map Z.opp l).
Proof.
  induction 1 as [| x l Hx _ IH]; simpl; constructor; [|exact IH].
  rewrite in_map_iff. intros (y & E & Hy). assert (y = x) by lia. subst. auto.
Qed.

(** The sorted bids of a well-formed side without [NaN]. *)
Lemma sortedBids_descending (m : Map InternalLevel.t) :
  wfBook m -> noNaNBook m ->
  strictlyDescending (map InternalLevel.price (sort R.byPriceDesc (mapValues m))).
Proof.
  intros Hw Hn.
  pose proof (sort_strictly_sorted R.byPriceDesc _ _ (byPriceDesc_ranked _ Hn)) as Hs.
  assert (Hd : NoDup (map (fun level => - rank (InternalLevel.price level)) (mapValues m))).
  { rewrite <- (map_map (fun level => rank (InternalLevel.price level)) Z.opp).
    apply NoDup_map_opp, wfBook_distinct_ranks; assumption. }
  specialize (Hs Hd).
  unfold noNaNBook in Hn. rewrite Forall_forall in Hn.
  eapply StronglySorted_map; [|exact Hs].
  intros a b Ha Hb Hab. unfold rkLt in Hab.
  apply sort_In in Ha, Hb.
  rewrite (ltb_rank _ _ (Hn b Hb) (Hn a Ha)). apply Z.ltb_lt. lia.
Qed.

Lemma sortedAsks_ascending (m : Map InternalLevel.t) :
  wfBook m -> noNaNBook m ->
  strictlyAscending (map InternalLevel.price (sort R.byPriceAsc (mapValues m))).
Proof.
  intros Hw Hn.
  pose proof (sort_strictly_sorted R.byPriceAsc _ _ (byPriceAsc_ranked _ Hn)
                (wfBook_distinct_ranks _ Hw Hn)) as Hs.
  unfold noNaNBook in Hn. rewrite Forall_forall in Hn.
  eapply StronglySorted_map; [|exact Hs].
  intros a b Ha Hb Hab. unfold rkLt in Hab.
  apply sort_In in Ha, Hb.
  rewrite (ltb_rank _ _ (Hn a Ha) (Hn b Hb)). apply Z.ltb_lt. exact Hab.
Qed.

Lemma noNaNBook_load (levels : list PriceLevel.t) :
  Forall (fun level => is_nan (parseFloat (PriceLevel.px level)) = false) levels ->
  forall m, noNaNBook m -> noNaNBook (loadLevels levels m).
Proof.
  induction 1 as [| level levels Hl _ IH]; intros m Hm; [exact Hm|].
  rewrite loadLevels_cons. apply IH. apply Forall_values_set; assumption.
Qed.

Lemma keysOf_load (levels : list PriceLevel.t) :
  forall m x,
    In x (keysOf (loadLevels levels m)) <->
    In x (map mapKey (parsedPrices levels)) \/ In x (keysOf m).
Proof.
  induction levels as [| level levels IH]; intros m x.
  - simpl. tauto.
  - rewrite loadLevels_cons, IH, In_keys_set. simpl.
    split; intros H; intuition (subst; auto).
Qed.

Lemma existsb_sameValueZero (x : number) (l : list number) :
  existsb (sameValueZero x) l = true <-> In (mapKey x) (map mapKey l).
Proof.
  rewrite existsb_exists, in_map_iff. split.
  - intros (y & Hy & E). exists y. split; [|exact Hy].
    symmetry. apply sameValueZero_spec, E.
  - intros (y & E & Hy). exists y. split; [exact Hy|].
    apply sameValueZero_spec. symmetry. exact E.
Qed.

Lemma distinctNumbers_keys (l : list number) :
  NoDup (map mapKey (distinctNumbers l)) /\
  (forall x, In x (map mapKey (distinctNumbers l)) <-> In x (map mapKey l)).
Proof.
  induction l as [| a l [IH1 IH2]]; simpl.
  - split; [constructor | tauto].
  - destruct (existsb (sameValueZero a) l) eqn:E.
    + split; [exact IH1|]. intros x. rewrite IH2.
      apply existsb_sameValueZero in E. split; [tauto|].
      intros [<- | H]; assumption.
    + split.
      * simpl. constructor; [|exact IH1]. rewrite IH2.
        rewrite <- existsb_sameValueZero. congruence.
      * intros x. simpl. rewrite IH2. tauto.
Qed.

(** A side loaded from a checkpoint holds as many levels as the checkpoint
    has distinct prices on that side. *)
Lemma loadLevels_length (levels : list PriceLevel.t) :
  List.length (loadLevels levels []) = countDistinct (parsedPrices levels).
Proof.
  unfold countDistinct.
  rewrite <- (length_map (fun kv : number * InternalLevel.t => mapKey (fst kv))).
  rewrite <- (length_map mapKey (distinctNumbers (parsedPrices levels))).
  apply Permutation_length, NoDup_Permutation.
  - apply (wfBook_load levels [] wfBook_nil).
  - apply distinctNumbers_keys.
  - intros x. fold (keysOf (loadLevels levels [])).
    rewrite keysOf_load.
    rewrite (proj2 (distinctNumbers_keys (parsedPrices levels))). simpl. tauto.
Qed.

Lemma snapshot_levels (depth : option number) (this : R.t) :
  wellFormed this -> noNaNPrices this ->
  exists bidLevels askLevels,
    OrderBook.bids (R.snapshotOf depth this) = map R.toLevel bidLevels /\
    OrderBook.asks (R.snapshotOf depth this) = map R.toLevel askLevels /\
    incl bidLevels (mapValues (R.bids this)) /\
    incl askLevels (mapValues (R.asks this)) /\
    strictlyDescending (map InternalLevel.price bidLevels) /\
    strictlyAscending (map InternalLevel.price askLevels) /\
    (depth = None ->
       Permutation bidLevels (mapValues (R.bids this)) /\
       Permutation askLevels (mapValues (R.asks this))).
Proof.
  intros [Wb Wa] [Nb Na].
  exists (R.limit depth (sort R.byPriceDesc (mapValues (R.bids this)))),
         (R.limit depth (sort R.byPriceAsc (mapValues (R.asks this)))).
  split; [reflexivity|]. split; [reflexivity|].
  destruct (limit_prefix depth (sort R.byPriceDesc (mapValues (R.bids this)))) as [nb Eb].
  destruct (limit_prefix depth (sort R.byPriceAsc (mapValues (R.asks this)))) as [na Ea].
  repeat split.
  - rewrite Eb. intros x Hx. apply In_firstn in Hx. apply sort_In in Hx. exact Hx.
  - rewrite Ea. intros x Hx. apply In_firstn in Hx. apply sort_In in Hx. exact Hx.
  - rewrite Eb. unfold strictlyDescending. rewrite <- firstn_map.
    apply StronglySorted_firstn, sortedBids_descending; assumption.
  - rewrite Ea. unfold strictlyAscending. rewrite <- firstn_map.
    apply StronglySorted_firstn, sortedAsks_ascending; assumption.
  - subst depth. apply sort_perm.
  - subst depth. apply sort_perm.
Qed.

(* ===================================================================== *)
(** * The depth limit *)
(* ===================================================================== *)

Lemma integer_part_truthy (d : number) (k : Z) :
  toIntegerOrInfinity d = Int k -> 1 <= k -> truthy d = true.
Proof.
  unfold toIntegerOrInfinity, truthy, is_zero. intros H Hk.
  assert (Hf : exists s m e, Prim2SF d = S754_finite s m e).
  { destruct (Prim2SF d) as [s | s | | s m e]; try (injection H as <-; lia).
    - destruct s; discriminate.
    - eauto. }
  destruct Hf as (s & m & e & E).
  assert (Hn : is_nan d = false) by (apply is_nan_false; congruence).
  rewrite Hn, eqb_spec, E, Prim2SF_zero. destruct s; reflexivity.
Qed.

Lemma firstn_min {A} (n : nat) (l : list A) :
  firstn (Nat.min n (List.length l)) l = firstn n l.
Proof.
  destruct (Nat.le_ge_cases n (List.length l)) as [H | H].
  - rewrite Nat.min_l by exact H. reflexivity.
  - rewrite Nat.min_r by exact H. rewrite firstn_all, firstn_all2 by exact H. reflexivity.
Qed.

(** With a depth whose integer part is [k >= 1], [limit] keeps the first
    [k] elements. *)
Lemma limit_firstn {A} (d : number) (k : Z) (l : list A) :
  toIntegerOrInfinity d = Int k -> 1 <= k ->
  R.limit (Some d) l = firstn (Z.to_nat k) l.
Proof.
  intros H Hk. unfold R.limit, slice0.
  rewrite (integer_part_truthy d k H Hk), H.
  destruct (Z.ltb_spec k 0); [lia|].
  rewrite <- (firstn_min (Z.to_nat k)). f_equal. lia.
Qed.

(** The first [k] of a strictly sorted list are its best: each is before
    each of the others in the order. *)
Lemma firstn_best {A} (R1 : A -> A -> Prop) (n : nat) (l : list A) :
  StronglySorted R1 l ->
  forall a b, In a (firstn n l) -> In b (skipn n l) -> R1 a b.
Proof.
  intros Hs. revert n. induction Hs as [| x l Hs IH Hx]; intros n a b Ha Hb.
  - destruct n; contradiction.
  - destruct n as [| n]; [contradiction|]. simpl in Ha, Hb.
    destruct Ha as [<- | Ha].
    + rewrite Forall_forall in Hx. apply Hx.
      rewrite <- (firstn_skipn n l). apply in_or_app. right. exact Hb.
    + eapply IH; eassumption.
Qed.

(* ===================================================================== *)
(** * The derived metrics *)
(* ===================================================================== *)

Lemma head_sort_None {A} (comparefn : A -> A -> number) (l : list A) :
  head (sort comparefn l) = None <-> l = [].
Proof.
  split.
  - intros H. destruct (sort comparefn l) eqn:E; [|discriminate].
    apply length_zero_iff_nil. rewrite <- (sort_length comparefn), E. reflexivity.
  - intros ->. reflexivity.
Qed.

(** The metrics are absent when a side is empty. *)
Lemma metrics_absent (depth : option number) (this : R.t) :
  R.bids this = [] \/ R.asks this = [] ->
  let snapshot := R.snapshotOf depth this in
  OrderBook.midPrice snapshot = None /\
  OrderBook.spread snapshot = None /\
  OrderBook.spreadBps snapshot = None.
Proof.
  intros H. cbv zeta. unfold R.snapshotOf.
  cbn [OrderBook.midPrice OrderBook.spread OrderBook.spreadBps ReconstructedOrderBook.book].
  destruct H as [H | H]; rewrite H; simpl.
  - repeat split.
  - destruct (head (sort R.byPriceDesc (mapValues (R.bids this)))); repeat split.
Qed.

Lemma whenBoth_truthy (x y : number) (f : number -> number -> number) :
  truthy x = true -> truthy y = true -> R.whenBoth (Some x) (Some y) f = Some (f x y).
Proof. intros Hx Hy. unfold R.whenBoth. rewrite Hx, Hy. reflexivity. Qed.

(** With both best prices truthy (neither zero nor [NaN]) mid price and
    spread are computed; the basis points follow when both of these are
    truthy in turn. *)
Lemma metrics_present (depth : option number) (this : R.t) (b a : number) :
  bestBid this = Some b -> bestAsk this = Some a ->
  truthy b = true -> truthy a = true ->
  let snapshot := R.snapshotOf depth this in
  OrderBook.midPrice snapshot = Some (numberToString ((b + a) / 2)) /\
  OrderBook.spread snapshot = Some (numberToString (a - b)) /\
  OrderBook.spreadBps snapshot =
    if truthy ((b + a) / 2) && truthy (a - b)
    then Some (numberToFixed 2 ((a - b) / ((b + a) / 2) * 10000))
    else None.
Proof.
  unfold bestBid, bestAsk. intros Hb Ha Tb Ta. cbv zeta. unfold R.snapshotOf.
  cbn [OrderBook.midPrice OrderBook.spread OrderBook.spreadBps ReconstructedOrderBook.book].
  rewrite Hb, Ha, !(whenBoth_truthy b a) by assumption.
  split; [reflexivity|]. split; [reflexivity|].
  unfold R.whenBoth. destruct (truthy ((b + a) / 2) && truthy (a - b)); reflexivity.
Qed.

(** A crossed book has a negative spread. *)
Lemma crossed_spread_negative (b a : number) :
  (a <? b)%float = true -> (a - b <? zero)%float = true.
Proof. intros H. rewrite sub_negative. exact H. Qed.

Lemma bestBid_nonempty (this : R.t) :
  R.bids this <> [] -> exists b, bestBid this = Some b.
Proof.
  intros H. unfold bestBid.
  destruct (head (sort R.byPriceDesc (mapValues (R.bids this)))) as [level |] eqn:E.
  - eexists. reflexivity.
  - apply head_sort_None in E. unfold mapValues in E. apply map_eq_nil in E. contradiction.
Qed.

Lemma bestAsk_nonempty (this : R.t) :
  R.asks this <> [] -> exists a, bestAsk this = Some a.
Proof.
  intros H. unfold bestAsk.
  destruct (head (sort R.byPriceAsc (mapValues (R.asks this)))) as [level |] eqn:E.
  - eexists. reflexivity.
  - apply head_sort_None in E. unfold mapValues in E. apply map_eq_nil in E. contradiction.
Qed.

(* ===================================================================== *)
(** * Replay *)
(* ===================================================================== *)

Lemma stateAfter_cons (this : R.t) (delta : OrderbookDelta.t)
    (rest : list OrderbookDelta.t) :
  stateAfter this (delta :: rest) = stateAfter (fst (R.applyDelta delta this)) rest.
Proof. reflexivity. Qed.

Lemma bind_applyDelta_valid {A} (delta : OrderbookDelta.t) (k : unit -> R.M A)
    (this : R.t) :
  validTimestamp delta ->
  R.bind (R.applyDelta delta) k this = k tt (fst (R.applyDelta delta this)).
Proof.
  intros H. unfold R.bind. rewrite (applyDelta_valid delta this H). reflexivity.
Qed.

Lemma bind_initialize {A} (checkpoint : OrderBook.t) (k : unit -> R.M A) (this : R.t) :
  R.bind (R.initialize checkpoint) k this = k tt (loaded checkpoint).
Proof. unfold R.bind. rewrite initialize_eq. reflexivity. Qed.

Lemma bind_getSnapshot {A} (depth : option number)
    (k : ReconstructedOrderBook.t -> R.M A) (this : R.t) :
  R.bind (R.getSnapshot depth) k this = k (R.snapshotOf depth this) this.
Proof. reflexivity. Qed.

Lemma bind_ret {A B} (a : A) (k : A -> R.M B) (this : R.t) :
  R.bind (R.ret a) k this = k a this.
Proof. reflexivity. Qed.

Lemma bind_assoc {A B C} (c : R.M A) (k1 : A -> R.M B) (k2 : B -> R.M C) (this : R.t) :
  R.bind (R.bind c k1) k2 this = R.bind c (fun a => R.bind (k1 a) k2) this.
Proof. unfold R.bind. destruct (c this) as [this' [a | e]]; reflexivity. Qed.

(** One step of a method body. *)
Ltac run_step :=
  first [ rewrite bind_assoc
        | rewrite bind_initialize
        | rewrite bind_getSnapshot
        | rewrite bind_ret ];
  cbv beta.

Lemma replayAll_emit (depth : option number) (sortedDeltas : list OrderbookDelta.t) :
  Forall validTimestamp sortedDeltas ->
  forall this snapshots,
    R.replayAll depth true sortedDeltas snapshots this =
    (stateAfter this sortedDeltas,
     Normal (snapshots ++ snapshotsAlong depth this sortedDeltas)).
Proof.
  induction 1 as [| delta rest Hd _ IH]; intros this snapshots.
  - simpl. rewrite app_nil_r. reflexivity.
  - cbn [R.replayAll]. rewrite (bind_applyDelta_valid _ _ _ Hd).
    repeat run_step. rewrite IH, stateAfter_cons. unfold R.push.
    rewrite <- app_assoc. reflexivity.
Qed.

Lemma replayAll_silent (depth : option number) (sortedDeltas : list OrderbookDelta.t) :
  Forall validTimestamp sortedDeltas ->
  forall this snapshots,
    R.replayAll depth false sortedDeltas snapshots this =
    (stateAfter this sortedDeltas, Normal snapshots).
Proof.
  induction 1 as [| delta rest Hd _ IH]; intros this snapshots.
  - reflexivity.
  - cbn [R.replayAll]. rewrite (bind_applyDelta_valid _ _ _ Hd).
    repeat run_step. rewrite IH, stateAfter_cons. reflexivity.
Qed.

Lemma forOf_applyDelta (sortedDeltas : list OrderbookDelta.t) :
  Forall validTimestamp sortedDeltas ->
  forall this,
    R.forOf sortedDeltas R.applyDelta this = (stateAfter this sortedDeltas, Normal tt).
Proof.
  induction 1 as [| delta rest Hd _ IH]; intros this.
  - reflexivity.
  - cbn [R.forOf]. rewrite (bind_applyDelta_valid _ _ _ Hd), IH, stateAfter_cons.
    reflexivity.
Qed.

Lemma drain_loop (depth : option number) (rest : list OrderbookDelta.t) :
  Forall validTimestamp rest ->
  forall fuel this out,
    (List.length rest < fuel)%nat ->
    R.drain fuel (R.SuspendedLoop rest depth) out this =
    (stateAfter this rest, Normal (Some (out ++ snapshotsAlong depth this rest))).
Proof.
  induction 1 as [| delta rest Hd _ IH]; intros fuel this out Hf.
  - destruct fuel as [| fuel]; [inversion Hf|]. simpl. rewrite app_nil_r. reflexivity.
  - destruct fuel as [| fuel]; [inversion Hf|].
    cbn [R.drain R.next R.resumeLoop]. run_step.
    rewrite (bind_applyDelta_valid _ _ _ Hd). repeat run_step.
    rewrite IH by (simpl in Hf; lia).
    rewrite stateAfter_cons. unfold R.push. rewrite <- app_assoc. reflexivity.
Qed.

Lemma snapshotsAlong_length (depth : option number) (deltas : list OrderbookDelta.t) :
  forall this, List.length (snapshotsAlong depth this deltas) = List.length deltas.
Proof.
  induction deltas as [| delta rest IH]; intros this; simpl; [|rewrite IH]; reflexivity.
Qed.

Lemma snapshotsAlong_nth (depth : option number) (deltas : list OrderbookDelta.t) :
  forall this i, (i < List.length deltas)%nat ->
    nth_error (snapshotsAlong depth this deltas) i =
    Some (R.snapshotOf depth (stateAfter this (firstn (S i) deltas))).
Proof.
  induction deltas as [| delta rest IH]; intros this i Hi; [inversion Hi|].
  destruct i as [| i].
  - reflexivity.
  - simpl nth_error. rewrite IH by (simpl in Hi; lia). reflexivity.
Qed.

Lemma snapshotsAlong_final (depth : option number) (deltas : list OrderbookDelta.t) :
  forall this, exists front,
    R.snapshotOf depth this :: snapshotsAlong depth this deltas =
    front ++ [R.snapshotOf depth (stateAfter this deltas)].
Proof.
  induction deltas as [| delta rest IH]; intros this.
  - exists []. reflexivity.
  - destruct (IH (fst (R.applyDelta delta this))) as [front E].
    exists (R.snapshotOf depth this :: front).
    simpl snapshotsAlong. rewrite E. reflexivity.
Qed.

Lemma sort_valid (deltas : list OrderbookDelta.t) :
  Forall validTimestamp deltas -> Forall validTimestamp (sort R.bySequence deltas).
Proof.
  intros H. eapply Permutation_Forall; [apply Permutation_sym, sort_perm | exact H].
Qed.

(* ===================================================================== *)
(** * Sorting by sequence number *)
(* ===================================================================== *)

Lemma bySequence_ranked (deltas : list OrderbookDelta.t) :
  Forall (fun delta => is_nan (OrderbookDelta.sequence delta) = false) deltas ->
  ranked R.bySequence sequenceRank deltas.
Proof.
  rewrite Forall_forall. intros H x y Hx Hy.
  rewrite goesAfter_comparefn. unfold R.bySequence, sequenceRank.
  rewrite sub_positive, (ltb_rank _ _ (H y Hy) (H x Hx)). reflexivity.
Qed.

(** In a list of two or more deltas with distinct sequence numbers every
    sequence number is a number. *)
Lemma distinctSequences_not_nan (a b : OrderbookDelta.t) (l : list OrderbookDelta.t) :
  distinctSequences (a :: b :: l) ->
  Forall (fun delta => is_nan (OrderbookDelta.sequence delta) = false) (a :: b :: l).
Proof.
  intros H. inversion H as [| ? ? Ha _]; subst.
  assert (Hrest : Forall (fun delta => is_nan (OrderbookDelta.sequence delta) = false)
                    (b :: l)).
  { eapply Forall_impl; [|exact Ha]. intros x [Hx | Hx];
      apply ltb_true_not_nan in Hx; tauto. }
  constructor; [|exact Hrest].
  inversion Ha as [| ? ? [Hb | Hb] _]; subst; apply ltb_true_not_nan in Hb; tauto.
Qed.

Lemma distinctSequences_ranks (deltas : list OrderbookDelta.t) :
  distinctSequences deltas ->
  Forall (fun delta => is_nan (OrderbookDelta.sequence delta) = false) deltas ->
  NoDup (map sequenceRank deltas).
Proof.
  induction 1 as [| a l Ha _ IH]; intros Hn; simpl; constructor.
  - inversion Hn as [| ? ? Na Nl]; subst.
    rewrite in_map_iff. intros (x & E & Hx).
    rewrite Forall_forall in Ha, Nl. specialize (Ha x Hx). specialize (Nl x Hx).
    unfold sequenceRank in E.
    destruct Ha as [Hlt | Hlt];
      [rewrite (ltb_rank _ _ Na Nl) in Hlt | rewrite (ltb_rank _ _ Nl Na) in Hlt];
      apply Z.ltb_lt in Hlt; lia.
  - apply IH. inversion Hn; assumption.
Qed.

Lemma sort_singleton {A} (comparefn : A -> A -> number) (l l' : list A) :
  (List.length l <= 1)%nat -> Permutation l l' -> sort comparefn l = sort comparefn l'.
Proof.
  intros Hl Hp. destruct l as [| a [| b l]]; simpl in Hl; try lia.
  - apply Permutation_nil in Hp. subst. reflexivity.
  - apply Permutation_length_1_inv in Hp. subst. reflexivity.
Qed.

(** Sorting by sequence forgets the order of the input, and leaves the
    sequence numbers strictly ascending. *)
Lemma sort_bySequence (deltas deltas' : list OrderbookDelta.t) :
  Permutation deltas deltas' -> distinctSequences deltas ->
  sort R.bySequence deltas = sort R.bySequence deltas' /\
  strictlyAscending (map OrderbookDelta.sequence (sort R.bySequence deltas)).
Proof.
  intros Hp Hd. destruct deltas as [| a [| b l]].
  - split; [apply sort_singleton; [simpl; lia | exact Hp] | constructor].
  - split; [apply sort_singleton; [simpl; lia | exact Hp]|].
    simpl. repeat constructor.
  - pose proof (distinctSequences_not_nan _ _ _ Hd) as Hn.
    pose proof (distinctSequences_ranks _ Hd Hn) as Hr.
    split.
    + apply (sort_permutation R.bySequence sequenceRank); try assumption.
      apply bySequence_ranked, Hn.
    + pose proof (sort_strictly_sorted R.bySequence sequenceRank _
                    (bySequence_ranked _ Hn) Hr) as Hs.
      rewrite Forall_forall in Hn.
      eapply StronglySorted_map; [|exact Hs].
      intros x y Hx Hy Hxy. unfold rkLt, sequenceRank in Hxy.
      apply sort_In in Hx, Hy.
      rewrite (ltb_rank _ _ (Hn x Hx) (Hn y Hy)). apply Z.ltb_lt. exact Hxy.
Qed.

(* ===================================================================== *)
(** * The gap scan *)
(* ===================================================================== *)

(** The index loop visits the adjacent pairs from left to right. *)
Lemma gapsLoop_spec (rest : list OrderbookDelta.t) :
  forall (before : list OrderbookDelta.t) (previous : OrderbookDelta.t)
         (gaps : list (number * number)),
    R.gapsLoop (before ++ previous :: rest)
      (seq (S (List.length before)) (List.length rest)) gaps =
    Normal (gaps ++ adjacentGaps (previous :: rest)).
Proof.
  induction rest as [| current rest IH]; intros before previous gaps.
  - simpl. rewrite app_nil_r. reflexivity.
  - cbn [List.length seq R.gapsLoop].
    replace (S (List.length before) - 1)%nat with (List.length before) by lia.
    assert (E1 : nth_error (before ++ previous :: current :: rest)
                   (List.length before) = Some previous).
    { rewrite nth_error_app2 by lia. rewrite Nat.sub_diag. reflexivity. }
    assert (E2 : nth_error (before ++ previous :: current :: rest)
                   (S (List.length before)) = Some current).
    { rewrite nth_error_app2 by lia.
      replace (S (List.length before) - List.length before)%nat with 1%nat by lia.
      reflexivity. }
    rewrite E1, E2.
    specialize (IH (before ++ [previous]) current).
    rewrite <- app_assoc, length_app in IH. cbn [List.length app] in IH.
    replace (List.length before + 1)%nat with (S (List.length before)) in IH by lia.
    rewrite IH. cbn [adjacentGaps]. unfold R.push.
    destruct (strictEq (OrderbookDelta.sequence current)
                (OrderbookDelta.sequence previous + 1)); cbn [negb];
      rewrite <- ?app_assoc; rewrite ?app_nil_r; reflexivity.
Qed.

Lemma detectGaps_spec (deltas : list OrderbookDelta.t) :
  R.detectGaps deltas = Normal (adjacentGaps (sort R.bySequence deltas)).
Proof.
  unfold R.detectGaps.
  destruct (Nat.ltb_spec (List.length deltas) 2) as [Hl | Hl].
  - rewrite <- (sort_length R.bySequence) in Hl.
    destruct (sort R.bySequence deltas) as [| a [| b l]]; simpl in Hl; try lia;
      reflexivity.
  - destruct (sort R.bySequence deltas) as [| previous rest] eqn:E.
    + reflexivity.
    + cbn [List.length]. replace (S (List.length rest) - 1)%nat with (List.length rest) by lia.
      apply (gapsLoop_spec rest [] previous []).
Qed.

Lemma adjacentGaps_contiguous (sorted : list OrderbookDelta.t) :
  contiguous sorted -> adjacentGaps sorted = [].
Proof.
  induction sorted as [| previous rest IH]; [reflexivity|].
  destruct rest as [| current rest]; [reflexivity|].
  intros [H1 H2]. cbn [adjacentGaps]. rewrite H1. apply IH, H2.
Qed.

Lemma sort_ascending (deltas : list OrderbookDelta.t) :
  Forall (fun delta => is_nan (OrderbookDelta.sequence delta) = false) deltas ->
  ascending (map OrderbookDelta.sequence (sort R.bySequence deltas)).
Proof.
  intros Hn.
  pose proof (sort_sorted R.bySequence sequenceRank _ (bySequence_ranked _ Hn)) as Hs.
  rewrite Forall_forall in Hn.
  eapply StronglySorted_map; [|exact Hs].
  intros x y Hx Hy Hxy. unfold rkLe, sequenceRank in Hxy.
  apply sort_In in Hx, Hy.
  rewrite (leb_rank _ _ (Hn x Hx) (Hn y Hy)). apply Z.leb_le. exact Hxy.
Qed.

(* ===================================================================== *)
(** * C1: [initialize] and levels that do not parse *)
(* ===================================================================== *)

(** C1 (as the code has it): [initialize] never fails and has no notion of
    a parse error.  For every checkpoint and every instance it completes
    normally; the state it leaves depends on the checkpoint alone; the
    price of every checkpoint level is resident on its side, holding the
    parsed fields of a checkpoint level of that price (the last one), and
    nothing else is resident.  A price or size that does not parse is
    stored as [NaN]; no level is rejected. *)
Theorem C1_initialize_always_completes (checkpoint : OrderBook.t) (this : R.t) :
  exists this',
    R.initialize checkpoint this = (this', Normal tt) /\
    this' = fst (R.initialize checkpoint R.new) /\
    R.coin this' = OrderBook.coin checkpoint /\
    R.lastTimestamp this' = OrderBook.timestamp checkpoint /\
    R.lastSequence this' = zero /\
    (forall level, In level (OrderBook.bids checkpoint) ->
       exists level', In level' (OrderBook.bids checkpoint) /\
         sameValueZero (parseFloat (PriceLevel.px level'))
                       (parseFloat (PriceLevel.px level)) = true /\
         mapGet (parseFloat (PriceLevel.px level)) (R.bids this') =
           Some (internalOf level')) /\
    (forall level, In level (OrderBook.asks checkpoint) ->
       exists level', In level' (OrderBook.asks checkpoint) /\
         sameValueZero (parseFloat (PriceLevel.px level'))
                       (parseFloat (PriceLevel.px level)) = true /\
         mapGet (parseFloat (PriceLevel.px level)) (R.asks this') =
           Some (internalOf level')) /\
    (forall v, In v (mapValues (R.bids this')) ->
       exists level, In level (OrderBook.bids checkpoint) /\ v = internalOf level) /\
    (forall v, In v (mapValues (R.asks this')) ->
       exists level, In level (OrderBook.asks checkpoint) /\ v = internalOf level).
Proof.
  exists (loaded checkpoint). rewrite !initialize_eq.
  repeat split.
  - intros level Hin. destruct (loadLevels_resident _ _ Hin) as (l & H1 & H2 & H3).
    exists l. split; [exact H1 | split; [apply sameValueZero_spec, H2 | exact H3]].
  - intros level Hin. destruct (loadLevels_resident _ _ Hin) as (l & H1 & H2 & H3).
    exists l. split; [exact H1 | split; [apply sameValueZero_spec, H2 | exact H3]].
  - intros v Hv. destruct (loadLevels_values _ _ _ Hv) as [H | []]. exact H.
  - intros v Hv. destruct (loadLevels_values _ _ _ Hv) as [H | []]. exact H.
Qed.

(** C1, the claim as stated fails: a checkpoint whose only bid has the
    price ["abc"] is accepted.  [initialize] completes normally and the
    level is resident under the key [NaN]. *)
Lemma C1_unparsable_price_is_stored :
  R.initialize
    (OrderBook.mk "BTC" "2024-01-01T00:00:00.000Z"
       [PriceLevel.mk "abc" "1" one] [] None None None)
    R.new =
  (R.mk [(nan, InternalLevel.mk nan one one)] []
        "BTC" "2024-01-01T00:00:00.000Z" zero,
   Normal tt).
Proof. vm_compute. reflexivity. Qed.

(* ===================================================================== *)
(** * C2: the derived metrics *)
(* ===================================================================== *)

(** C2 (as the code has it): for every state, [getSnapshot] completes
    without changing the state.  When either side is empty the three
    metrics are absent.  When both sides are non-empty each has a best
    price, the price of its first sorted level; if both best prices are
    non-zero numbers, [midPrice = (bestBid + bestAsk) / 2] and
    [spread = bestAsk - bestBid] are present, and
    [spreadBps = (spread / midPrice * 10000).toFixed(2)] is present when
    mid price and spread are non-zero numbers in turn.  On a crossed book
    ([bestAsk < bestBid]) the spread is negative and is returned as
    computed; the basis points are computed from it by the same formula,
    with no clamping. *)
Theorem C2_derived_metrics (this : R.t) (depth : option number) :
  let snapshot := R.snapshotOf depth this in
  R.getSnapshot depth this = (this, Normal snapshot) /\
  (R.bids this = [] \/ R.asks this = [] ->
     OrderBook.midPrice snapshot = None /\
     OrderBook.spread snapshot = None /\
     OrderBook.spreadBps snapshot = None) /\
  (R.bids this <> [] -> R.asks this <> [] ->
     exists b a, bestBid this = Some b /\ bestAsk this = Some a) /\
  (forall b a,
     bestBid this = Some b -> bestAsk this = Some a ->
     truthy b = true -> truthy a = true ->
     OrderBook.midPrice snapshot = Some (numberToString ((b + a) / 2)) /\
     OrderBook.spread snapshot = Some (numberToString (a - b)) /\
     (truthy ((b + a) / 2) = true -> truthy (a - b) = true ->
        OrderBook.spreadBps snapshot =
          Some (numberToFixed 2 ((a - b) / ((b + a) / 2) * 10000))) /\
     ((a <? b)%float = true ->
        (a - b <? zero)%float = true /\
        (truthy ((b + a) / 2) = true ->
           OrderBook.spreadBps snapshot =
             Some (numberToFixed 2 ((a - b) / ((b + a) / 2) * 10000))))).
Proof.
  cbv zeta. split; [reflexivity|]. split; [apply metrics_absent|]. split.
  - intros Hb Ha. destruct (bestBid_nonempty _ Hb) as [b Eb].
    destruct (bestAsk_nonempty _ Ha) as [a Ea]. exists b, a. split; assumption.
  - intros b a Eb Ea Tb Ta.
    destruct (metrics_present depth this b a Eb Ea Tb Ta) as (Hm & Hs & Hbps).
    split; [exact Hm|]. split; [exact Hs|]. split.
    + intros Tm Ts. rewrite Hbps, Tm, Ts. reflexivity.
    + intros Hx. pose proof (crossed_spread_negative b a Hx) as Hneg.
      split; [exact Hneg|]. intros Tm.
      rewrite Hbps, Tm, (negative_truthy _ Hneg). reflexivity.
Qed.

(** C2, the crossed book of the specification as a concrete instance: best
    bid 101, best ask 100. *)
Lemma C2_derived_metrics_witness :
  let this := fst (R.initialize
    (OrderBook.mk "BTC" "2024-01-01T00:00:00.000Z"
       [PriceLevel.mk "101" "1" one] [PriceLevel.mk "100" "1" one] None None None)
    R.new) in
  let snapshot := R.snapshotOf None this in
  OrderBook.midPrice snapshot = Some (numberToString ((101 + 100) / 2)) /\
  OrderBook.spread snapshot = Some (numberToString (100 - 101)) /\
  (100 - 101 <? zero)%float = true /\
  OrderBook.spreadBps snapshot =
    Some (numberToFixed 2 ((100 - 101) / ((101 + 100) / 2) * 10000)) /\
  (OrderBook.midPrice snapshot, OrderBook.spread snapshot, OrderBook.spreadBps snapshot) =
    (Some "100.5", Some "-1", Some "-99.50")%string.
Proof.
  intros this snapshot.
  destruct (C2_derived_metrics this None) as (_ & _ & _ & H).
  destruct (H 101%float 100%float eq_refl eq_refl eq_refl eq_refl) as (Hm & Hs & _ & Hx).
  destruct (Hx eq_refl) as [Hneg Hbps].
  split; [exact Hm|]. split; [exact Hs|]. split; [exact Hneg|].
  split; [exact (Hbps eq_refl)|]. vm_compute. reflexivity.
Defined.

(** C2, the claim as stated fails, at two inputs.  On a locked book (best
    bid 100, best ask 100) mid price and spread are present, ["100"] and
    ["0"], but the test [midPrice && spread] reads the spread 0 as absent
    and no [spreadBps] is returned.  On a book whose best bid is 0 both
    sides are non-empty, but the test [bestBid && bestAsk] reads the price
    0 as absent and none of the three metrics is returned. *)
Lemma C2_zero_is_taken_for_absent :
  (let snapshot := R.snapshotOf None (fst (R.initialize
     (OrderBook.mk "BTC" "2024-01-01T00:00:00.000Z"
        [PriceLevel.mk "100" "1" one] [PriceLevel.mk "100" "2" one] None None None)
     R.new)) in
   OrderBook.midPrice snapshot = Some "100"%string /\
   OrderBook.spread snapshot = Some "0"%string /\
   OrderBook.spreadBps snapshot = None) /\
  (let snapshot := R.snapshotOf None (fst (R.initialize
     (OrderBook.mk "BTC" "2024-01-01T00:00:00.000Z"
        [PriceLevel.mk "0" "1" one] [PriceLevel.mk "1" "2" one] None None None)
     R.new)) in
   map PriceLevel.px (OrderBook.bids snapshot) = ["0"]%string /\
   map PriceLevel.px (OrderBook.asks snapshot) = ["1"]%string /\
   OrderBook.midPrice snapshot = None /\
   OrderBook.spread snapshot = None /\
   OrderBook.spreadBps snapshot = None).
Proof. vm_compute. repeat split. Qed.

(* ===================================================================== *)
(** * C3: the three reconstruction modes *)
(* ===================================================================== *)

(** C3 (as the code has it): for every checkpoint, every delta list whose
    timestamps [new Date] accepts, and every optional depth,
    [reconstructAll] with [emitAll: true] (or with [emitAll] omitted)
    returns [1 + deltaCount] snapshots: the snapshot of the state right
    after [initialize], then, for each delta in the sorted order, the
    snapshot of the state after applying it.  A consumer draining
    [iterate] receives the same snapshots in the same order, and the
    generator completes at the call of [next] after the last of them.
    [reconstructFinal] returns the last of these snapshots, and
    [reconstructAll] with [emitAll: false] returns exactly that one
    snapshot; the equality is exact.  The instance ends in the same state in
    all modes.  The sorted order is a permutation of the input, ascending
    by sequence number when the sequence numbers are numbers. *)
Theorem C3_reconstruction_modes_agree
    (checkpoint : OrderBook.t) (deltas : list OrderbookDelta.t)
    (depth : option number) (this : R.t) :
  Forall validTimestamp deltas ->
  let sortedDeltas := sort R.bySequence deltas in
  let start := fst (R.initialize checkpoint this) in
  exists this' snapshots front final,
    R.reconstructAll checkpoint deltas (ReconstructOptions.mk depth (Some true)) this =
      (this', Normal snapshots) /\
    R.reconstructAll checkpoint deltas (ReconstructOptions.mk depth None) this =
      (this', Normal snapshots) /\
    List.length snapshots = (1 + List.length deltas)%nat /\
    nth_error snapshots 0 = Some (R.snapshotOf depth start) /\
    (forall i, (i < List.length deltas)%nat ->
       nth_error snapshots (S i) =
       Some (R.snapshotOf depth (stateAfter start (firstn (S i) sortedDeltas)))) /\
    (forall emitAll,
       R.drain (2 + List.length deltas)
         (R.iterate checkpoint deltas (ReconstructOptions.mk depth emitAll)) [] this =
       (this', Normal (Some snapshots))) /\
    snapshots = front ++ [final] /\
    R.reconstructFinal checkpoint deltas depth this = (this', Normal final) /\
    R.reconstructAll checkpoint deltas (ReconstructOptions.mk depth (Some false)) this =
      (this', Normal [final]) /\
    Permutation sortedDeltas deltas /\
    (Forall (fun delta => is_nan (OrderbookDelta.sequence delta) = false) deltas ->
     ascending (map OrderbookDelta.sequence sortedDeltas)).
Proof.
  intros Hv. cbv zeta. rewrite initialize_eq. simpl fst.
  pose proof (sort_valid deltas Hv) as Hs.
  destruct (snapshotsAlong_final depth (sort R.bySequence deltas) (loaded checkpoint))
    as [front E].
  exists (stateAfter (loaded checkpoint) (sort R.bySequence deltas)),
         (R.snapshotOf depth (loaded checkpoint) ::
            snapshotsAlong depth (loaded checkpoint) (sort R.bySequence deltas)),
         front,
         (R.snapshotOf depth (stateAfter (loaded checkpoint) (sort R.bySequence deltas))).
  assert (All : forall e, (e = Some true \/ e = None) ->
    R.reconstructAll checkpoint deltas (ReconstructOptions.mk depth e) this =
    (stateAfter (loaded checkpoint) (sort R.bySequence deltas),
     Normal (R.snapshotOf depth (loaded checkpoint) ::
               snapshotsAlong depth (loaded checkpoint) (sort R.bySequence deltas)))).
  { intros e He. unfold R.reconstructAll.
    cbn [ReconstructOptions.emitAll ReconstructOptions.depth].
    destruct He as [-> | ->]; cbv zeta; cbn [negb];
      repeat run_step; unfold R.bind at 1; rewrite (replayAll_emit depth _ Hs);
      reflexivity. }
  split; [apply All; left; reflexivity|].
  split; [apply All; right; reflexivity|].
  split; [simpl; rewrite snapshotsAlong_length, sort_length; reflexivity|].
  split; [reflexivity|].
  split.
  { intros i Hi. simpl nth_error. apply snapshotsAlong_nth.
    rewrite sort_length. exact Hi. }
  split.
  { intros emitAll. unfold R.iterate.
    change (2 + List.length deltas)%nat with (S (S (List.length deltas))).
    cbn [R.drain R.next ReconstructOptions.depth]. repeat run_step.
    cbn [R.drain R.next].
    destruct (sort R.bySequence deltas) as [| delta rest] eqn:Es.
    - reflexivity.
    - cbn [R.resumeLoop]. run_step.
      inversion Hs as [| ? ? Hd Hrest]; subst.
      rewrite (bind_applyDelta_valid _ _ _ Hd). repeat run_step.
      rewrite (drain_loop depth rest Hrest).
      + reflexivity.
      + assert (L : List.length (delta :: rest) = List.length deltas)
          by (rewrite <- Es; apply sort_length).
        simpl in L. lia. }
  split; [exact E|].
  split.
  { unfold R.reconstructFinal. repeat run_step.
    unfold R.bind. rewrite (forOf_applyDelta _ Hs). reflexivity. }
  split.
  { unfold R.reconstructAll.
    cbn [ReconstructOptions.emitAll ReconstructOptions.depth negb].
    repeat run_step. unfold R.bind. rewrite (replayAll_silent depth _ Hs). reflexivity. }
  split; [apply sort_perm | apply sort_ascending].
Qed.

(** C3, a concrete instance: two deltas handed over out of order give three
    snapshots, and the final one is what [reconstructFinal] returns. *)
Lemma C3_reconstruction_modes_agree_witness :
  let checkpoint := OrderBook.mk "BTC" "2024-01-01T00:00:00.000Z"
    [PriceLevel.mk "100" "2" one] [PriceLevel.mk "101" "3" one] None None None in
  let deltas :=
    [OrderbookDelta.mk 1704067200002 ask 102 5 2;
     OrderbookDelta.mk 1704067200001 bid 100 zero one] in
  exists this' snapshots final,
    R.reconstructAll checkpoint deltas ReconstructOptions.empty R.new =
      (this', Normal snapshots) /\
    List.length snapshots = 3%nat /\
    R.drain 4 (R.iterate checkpoint deltas ReconstructOptions.empty) [] R.new =
      (this', Normal (Some snapshots)) /\
    nth_error snapshots 2 = Some final /\
    R.reconstructFinal checkpoint deltas None R.new = (this', Normal final).
Proof.
  intros checkpoint deltas.
  assert (Hv : Forall validTimestamp deltas).
  { repeat constructor; unfold validTimestamp; vm_compute; discriminate. }
  destruct (C3_reconstruction_modes_agree checkpoint deltas None R.new Hv)
    as (this' & snapshots & front & final & _ & H2 & H3 & _ & _ & H6 & H7 & H8 & _).
  exists this', snapshots, final.
  split; [exact H2|]. split; [exact H3|]. split; [exact (H6 None)|].
  split; [|exact H8].
  rewrite H7 in H3 |- *. rewrite length_app in H3. simpl in H3.
  rewrite nth_error_app2 by lia.
  replace (2 - List.length front)%nat with 0%nat by lia. reflexivity.
Defined.

(** C3, the claim as stated fails: with a delta whose timestamp lies one
    millisecond past the range of [Date] no mode returns anything.
    [applyDelta] throws a [RangeError] out of [reconstructAll] and
    [reconstructFinal], and the drained [iterate] throws after its first
    snapshot. *)
Lemma C3_invalid_timestamp_aborts_the_replay :
  let checkpoint := OrderBook.mk "BTC" "2024-01-01T00:00:00.000Z"
    [PriceLevel.mk "100" "2" one] [] None None None in
  let deltas := [OrderbookDelta.mk 8640000000000001 bid 99 one one] in
  snd (R.reconstructAll checkpoint deltas ReconstructOptions.empty R.new) =
    Throw RangeError /\
  snd (R.reconstructFinal checkpoint deltas None R.new) = Throw RangeError /\
  snd (R.drain 3 (R.iterate checkpoint deltas ReconstructOptions.empty) [] R.new) =
    Throw RangeError.
Proof. vm_compute. repeat split. Qed.

(* ===================================================================== *)
(** * C4: [applyDelta] *)
(* ===================================================================== *)

(** C4 (as the code has it): for every delta whose timestamp [new Date]
    accepts, [applyDelta] completes normally and works on the side
    [delta.side] selects, leaving the other side and the coin alone.  When
    [delta.size === 0] the entry at [delta.price] is gone afterwards, every
    other price keeps what it held, and if the price was absent the side is
    unchanged.  When [delta.size > 0] the price holds
    [{ price, size: delta.size, orders: 1 }] afterwards and every other
    price keeps what it held.  In both cases the last timestamp becomes the
    ISO string of the delta's time value and the last sequence becomes
    [delta.sequence], whatever it was before. *)
Theorem C4_applyDelta (delta : OrderbookDelta.t) (this : R.t) :
  reachable this ->
  validTimestamp delta ->
  exists this',
    R.applyDelta delta this = (this', Normal tt) /\
    bookOf (opposite (OrderbookDelta.side delta)) this' =
      bookOf (opposite (OrderbookDelta.side delta)) this /\
    R.coin this' = R.coin this /\
    (let book := bookOf (OrderbookDelta.side delta) this in
     let book' := bookOf (OrderbookDelta.side delta) this' in
     (strictEq (OrderbookDelta.size delta) zero = true ->
        mapGet (OrderbookDelta.price delta) book' = None /\
        (forall k, sameValueZero k (OrderbookDelta.price delta) = false ->
           mapGet k book' = mapGet k book) /\
        (mapGet (OrderbookDelta.price delta) book = None -> book' = book)) /\
     ((zero <? OrderbookDelta.size delta)%float = true ->
        mapGet (OrderbookDelta.price delta) book' =
          Some (InternalLevel.mk (OrderbookDelta.price delta)
                  (OrderbookDelta.size delta) one) /\
        (forall k, sameValueZero k (OrderbookDelta.price delta) = false ->
           mapGet k book' = mapGet k book))) /\
    toISOString (newDate (OrderbookDelta.timestamp delta)) =
      Normal (R.lastTimestamp this') /\
    R.lastSequence this' = OrderbookDelta.sequence delta.
Proof.
  intros Hr Hv. exists (fst (R.applyDelta delta this)).
  destruct (applyDelta_books delta this) as (Hb & Ho & Hc).
  split; [apply applyDelta_valid, Hv|].
  split; [exact Ho|]. split; [exact Hc|]. split.
  - cbv zeta. rewrite Hb. unfold levelChange.
    apply reachable_wellFormed in Hr.
    assert (Hn : NoDup (keysOf (bookOf (OrderbookDelta.side delta) this))).
    { destruct Hr as [[H1 _] [H2 _]]. destruct (OrderbookDelta.side delta); assumption. }
    split.
    + intros Hz. rewrite Hz. split; [apply mapGet_delete_same, Hn|]. split.
      * intros k Hk. apply mapGet_delete_other. apply sameValueZero_false, Hk.
      * apply mapDelete_absent.
    + intros Hp. rewrite (positive_not_zero _ Hp). split.
      * apply mapGet_set_same. reflexivity.
      * intros k Hk. apply mapGet_set_other. apply sameValueZero_false, Hk.
  - rewrite applyDelta_eq. cbv zeta. unfold validTimestamp in Hv.
    destruct (newDate (OrderbookDelta.timestamp delta)) as [t |]; [|congruence].
    destruct this; split; reflexivity.
Qed.

(** C4, a concrete instance: a bid at 100 is removed from a book that holds
    it. *)
Lemma C4_applyDelta_witness :
  let this := fst (R.initialize
    (OrderBook.mk "BTC" "2024-01-01T00:00:00.000Z"
       [PriceLevel.mk "100" "2" one] [PriceLevel.mk "101" "3" one] None None None)
    R.new) in
  let delta := OrderbookDelta.mk 1704067200000 bid 100 zero one in
  exists this',
    R.applyDelta delta this = (this', Normal tt) /\
    bookOf (opposite (OrderbookDelta.side delta)) this' =
      bookOf (opposite (OrderbookDelta.side delta)) this /\
    R.coin this' = R.coin this /\
    (let book := bookOf (OrderbookDelta.side delta) this in
     let book' := bookOf (OrderbookDelta.side delta) this' in
     (strictEq (OrderbookDelta.size delta) zero = true ->
        mapGet (OrderbookDelta.price delta) book' = None /\
        (forall k, sameValueZero k (OrderbookDelta.price delta) = false ->
           mapGet k book' = mapGet k book) /\
        (mapGet (OrderbookDelta.price delta) book = None -> book' = book)) /\
     ((zero <? OrderbookDelta.size delta)%float = true ->
        mapGet (OrderbookDelta.price delta) book' =
          Some (InternalLevel.mk (OrderbookDelta.price delta)
                  (OrderbookDelta.size delta) one) /\
        (forall k, sameValueZero k (OrderbookDelta.price delta) = false ->
           mapGet k book' = mapGet k book))) /\
    toISOString (newDate (OrderbookDelta.timestamp delta)) =
      Normal (R.lastTimestamp this') /\
    R.lastSequence this' = OrderbookDelta.sequence delta.
Proof.
  apply C4_applyDelta.
  - apply reachable_initialize, reachable_new.
  - unfold validTimestamp. vm_compute. discriminate.
Defined.

(** C4, the claim as stated fails: the update of the timestamp and the
    sequence is not unconditional.  For a delta whose timestamp lies one
    millisecond past the range of [Date], [toISOString] throws after the
    level was inserted; the last timestamp and the last sequence keep their
    old values. *)
Lemma C4_invalid_timestamp_skips_the_update :
  R.applyDelta (OrderbookDelta.mk 8640000000000001 bid 100 2 7) R.new =
  (R.mk [(100%float, InternalLevel.mk 100 2 one)] [] "" "" zero, Throw RangeError).
Proof. vm_compute. reflexivity. Qed.

(* ===================================================================== *)
(** * C5: resident levels of size zero *)
(* ===================================================================== *)

(** C5 (as the code has it): [applyDelta] never stores a level of size
    zero, since a delta with [size === 0] deletes the key; [initialize]
    stores the sizes of the checkpoint as they parse.  So after any sequence
    of [initialize] and [applyDelta] calls that starts with an [initialize]
    and whose checkpoints hold no level of size zero, no level of size zero
    is resident on either side; and [applyDelta] on its own keeps a book
    free of zero sizes free of them. *)
Theorem C5_no_zero_size_resident
    (checkpoint : OrderBook.t) (calls : list Call) (this : R.t) :
  sizesNonZero checkpoint ->
  checkpointsNonZero calls ->
  noZeroSize (callAll (CallInitialize checkpoint :: calls) this) /\
  (forall delta st, noZeroSize st -> noZeroSize (fst (R.applyDelta delta st))).
Proof.
  intros Hc Hcs. split.
  - change (noZeroSize (callAll calls (call (CallInitialize checkpoint) this))).
    apply noZeroSize_callAll; [exact Hcs|]. apply noZeroSize_initialize, Hc.
  - intros delta st. apply noZeroSize_applyDelta.
Qed.

(** C5, a concrete instance: a checkpoint, a removal, an insertion and a
    second checkpoint. *)
Lemma C5_no_zero_size_resident_witness :
  let checkpoint := OrderBook.mk "BTC" "2024-01-01T00:00:00.000Z"
    [PriceLevel.mk "100" "2" one] [PriceLevel.mk "101" "3" one] None None None in
  let calls :=
    [CallApplyDelta (OrderbookDelta.mk 1704067200000 bid 100 zero one);
     CallApplyDelta (OrderbookDelta.mk 1704067200001 ask 102 5 2);
     CallInitialize checkpoint;
     CallApplyDelta (OrderbookDelta.mk 1704067200002 ask 101 (-0) 3)] in
  noZeroSize (callAll (CallInitialize checkpoint :: calls) R.new) /\
  (forall delta st, noZeroSize st -> noZeroSize (fst (R.applyDelta delta st))).
Proof.
  apply C5_no_zero_size_resident.
  - repeat constructor.
  - repeat constructor.
Defined.

(** C5, the claim as stated fails: [initialize] stores a checkpoint level
    of size ["0"]; after it a level of size zero is resident. *)
Lemma C5_zero_size_checkpoint_level_is_resident :
  R.initialize
    (OrderBook.mk "BTC" "2024-01-01T00:00:00.000Z"
       [PriceLevel.mk "100" "0" one] [] None None None)
    R.new =
  (R.mk [(100%float, InternalLevel.mk 100 zero one)] []
        "BTC" "2024-01-01T00:00:00.000Z" zero,
   Normal tt).
Proof. vm_compute. reflexivity. Qed.

(* ===================================================================== *)
(** * C6: the order of the levels of a snapshot *)
(* ===================================================================== *)

(** C6 (as the code has it): whenever no resident level is stored under
    [NaN], the bid levels of a snapshot are the renderings of resident
    levels in strictly descending order of price and the ask levels in
    strictly ascending order, so no price occurs twice on a side; without a
    depth they are all the resident levels.  In particular, for a checkpoint
    whose prices all parse to numbers, with N distinct bid prices and M
    distinct ask prices, [getSnapshot()] right after [initialize] yields
    exactly N bid levels, strictly descending, and M ask levels, strictly
    ascending. *)
Theorem C6_snapshot_levels_strictly_ordered :
  (forall (this : R.t) (depth : option number),
     reachable this -> noNaNPrices this ->
     exists snapshot bidLevels askLevels,
       R.getSnapshot depth this = (this, Normal snapshot) /\
       OrderBook.bids snapshot = map R.toLevel bidLevels /\
       OrderBook.asks snapshot = map R.toLevel askLevels /\
       incl bidLevels (mapValues (R.bids this)) /\
       incl askLevels (mapValues (R.asks this)) /\
       strictlyDescending (map InternalLevel.price bidLevels) /\
       strictlyAscending (map InternalLevel.price askLevels) /\
       (depth = None ->
          Permutation bidLevels (mapValues (R.bids this)) /\
          Permutation askLevels (mapValues (R.asks this)))) /\
  (forall (checkpoint : OrderBook.t) (this : R.t),
     pricesParse checkpoint ->
     exists this' snapshot bidLevels askLevels,
       R.bind (R.initialize checkpoint) (fun _ => R.getSnapshot None) this =
         (this', Normal snapshot) /\
       OrderBook.bids snapshot = map R.toLevel bidLevels /\
       OrderBook.asks snapshot = map R.toLevel askLevels /\
       List.length (OrderBook.bids snapshot) =
         countDistinct (parsedPrices (OrderBook.bids checkpoint)) /\
       List.length (OrderBook.asks snapshot) =
         countDistinct (parsedPrices (OrderBook.asks checkpoint)) /\
       strictlyDescending (map InternalLevel.price bidLevels) /\
       strictlyAscending (map InternalLevel.price askLevels)).
Proof.
  split.
  - intros this depth Hr Hn.
    destruct (snapshot_levels depth this (reachable_wellFormed _ Hr) Hn)
      as (bl & al & H).
    exists (R.snapshotOf depth this), bl, al. split; [reflexivity | exact H].
  - intros checkpoint this Hp.
    unfold R.bind. rewrite initialize_eq, getSnapshot_eq.
    assert (Hw : wellFormed (loaded checkpoint)).
    { split; apply wfBook_load, wfBook_nil. }
    assert (Hn : noNaNPrices (loaded checkpoint)).
    { unfold pricesParse in Hp. rewrite Forall_app in Hp. destruct Hp as [Hb Ha].
      split; apply noNaNBook_load; try assumption; constructor. }
    destruct (snapshot_levels None _ Hw Hn) as (bl & al & Hb & Ha & _ & _ & Sb & Sa & Hperm).
    destruct (Hperm eq_refl) as [Pb Pa].
    exists (loaded checkpoint), (R.snapshotOf None (loaded checkpoint)), bl, al.
    split; [reflexivity|]. split; [exact Hb|]. split; [exact Ha|].
    split; [|split; [|split; assumption]].
    + rewrite Hb, length_map, (Permutation_length Pb). unfold mapValues.
      rewrite length_map. apply loadLevels_length.
    + rewrite Ha, length_map, (Permutation_length Pa). unfold mapValues.
      rewrite length_map. apply loadLevels_length.
Qed.

(** C6, a concrete instance: three bids with two distinct prices (["1.0"]
    and ["1"] are one price) and two asks. *)
Lemma C6_snapshot_levels_strictly_ordered_witness :
  let checkpoint := OrderBook.mk "BTC" "2024-01-01T00:00:00.000Z"
    [PriceLevel.mk "1.0" "2" one; PriceLevel.mk "3" "1" one; PriceLevel.mk "1" "5" one]
    [PriceLevel.mk "5" "3" one; PriceLevel.mk "4" "3" one] None None None in
  exists this' snapshot bidLevels askLevels,
    R.bind (R.initialize checkpoint) (fun _ => R.getSnapshot None) R.new =
      (this', Normal snapshot) /\
    OrderBook.bids snapshot = map R.toLevel bidLevels /\
    OrderBook.asks snapshot = map R.toLevel askLevels /\
    List.length (OrderBook.bids snapshot) =
      countDistinct (parsedPrices (OrderBook.bids checkpoint)) /\
    List.length (OrderBook.asks snapshot) =
      countDistinct (parsedPrices (OrderBook.asks checkpoint)) /\
    strictlyDescending (map InternalLevel.price bidLevels) /\
    strictlyAscending (map InternalLevel.price askLevels).
Proof.
  apply (proj2 C6_snapshot_levels_strictly_ordered).
  repeat constructor.
Defined.

(** C6, the claim as stated fails: a checkpoint with the bid prices ["abc"]
    and ["1"] leaves a level under [NaN], and the snapshot lists the prices
    ["NaN"] and ["1"], which are in no strict order (whichever comes
    first). *)
Lemma C6_unparsable_price_breaks_the_order :
  let this := fst (R.initialize
    (OrderBook.mk "BTC" "2024-01-01T00:00:00.000Z"
       [PriceLevel.mk "abc" "1" one; PriceLevel.mk "1" "1" one] [] None None None)
    R.new) in
  sort R.byPriceDesc (mapValues (R.bids this)) =
    [InternalLevel.mk nan one one; InternalLevel.mk one one one] /\
  map PriceLevel.px (OrderBook.bids (R.snapshotOf None this)) = ["NaN"; "1"]%string /\
  ~ strictlyDescending [nan; one] /\
  ~ strictlyDescending [one; nan].
Proof.
  split; [vm_compute; reflexivity|]. split; [vm_compute; reflexivity|].
  split; intros H; inversion H as [| ? ? _ Hf]; subst;
    inversion Hf as [| ? ? Hlt _]; subst; vm_compute in Hlt; discriminate.
Qed.

(* ===================================================================== *)
(** * C7: the order in which the deltas are handed over *)
(* ===================================================================== *)

(** C7: for every checkpoint and every delta list whose sequence numbers
    are pairwise distinct, [reconstructFinal] and [reconstructAll] (in both
    modes, so its final snapshot too) return the same, and leave the
    instance in the same state, for every permutation of the delta list:
    the sorted list they replay is the same, and its sequence numbers are
    strictly ascending. *)
Theorem C7_replay_ignores_input_order
    (checkpoint : OrderBook.t) (deltas deltas' : list OrderbookDelta.t)
    (depth : option number) (options : ReconstructOptions.t) (this : R.t) :
  Permutation deltas deltas' ->
  distinctSequences deltas ->
  R.reconstructFinal checkpoint deltas depth this =
    R.reconstructFinal checkpoint deltas' depth this /\
  R.reconstructAll checkpoint deltas options this =
    R.reconstructAll checkpoint deltas' options this /\
  sort R.bySequence deltas = sort R.bySequence deltas' /\
  strictlyAscending (map OrderbookDelta.sequence (sort R.bySequence deltas)).
Proof.
  intros Hp Hd. destruct (sort_bySequence _ _ Hp Hd) as [E Hs].
  split; [|split; [|split; assumption]].
  - unfold R.reconstructFinal. rewrite E. reflexivity.
  - unfold R.reconstructAll. rewrite E. reflexivity.
Qed.

(** C7, a concrete instance: three deltas and one of their permutations. *)
Lemma C7_replay_ignores_input_order_witness :
  let checkpoint := OrderBook.mk "BTC" "2024-01-01T00:00:00.000Z"
    [PriceLevel.mk "100" "2" one] [PriceLevel.mk "101" "3" one] None None None in
  let d1 := OrderbookDelta.mk 1704067200001 bid 100 zero one in
  let d2 := OrderbookDelta.mk 1704067200002 bid 100 4 2 in
  let d3 := OrderbookDelta.mk 1704067200003 ask 102 5 3 in
  R.reconstructFinal checkpoint [d3; d1; d2] None R.new =
    R.reconstructFinal checkpoint [d2; d3; d1] None R.new /\
  R.reconstructAll checkpoint [d3; d1; d2] ReconstructOptions.empty R.new =
    R.reconstructAll checkpoint [d2; d3; d1] ReconstructOptions.empty R.new /\
  sort R.bySequence [d3; d1; d2] = sort R.bySequence [d2; d3; d1] /\
  strictlyAscending (map OrderbookDelta.sequence (sort R.bySequence [d3; d1; d2])).
Proof.
  intros checkpoint d1 d2 d3. apply C7_replay_ignores_input_order.
  - apply Permutation_sym. apply (Permutation_cons_app [d3; d1] [] d2).
    apply Permutation_refl.
  - unfold distinctSequences. repeat constructor; vm_compute; tauto.
Defined.

(* ===================================================================== *)
(** * C8: the depth limit *)
(* ===================================================================== *)

(** C8 (as the code has it): for every state and every depth whose integer
    part is [k >= 1], [getSnapshot(depth)] is the unlimited snapshot with
    each side cut to its first [k] levels after sorting (all of them when
    there are fewer), the metrics being those of the whole book; and on a
    reachable state without [NaN] prices these are the best levels: every
    bid kept has a higher price than every bid dropped, every ask kept a
    lower price than every ask dropped. *)
Theorem C8_depth_keeps_the_best_levels (this : R.t) (depth : number) (k : Z) :
  toIntegerOrInfinity depth = Int k -> 1 <= k ->
  let full := R.snapshotOf None this in
  let cut := R.snapshotOf (Some depth) this in
  OrderBook.bids cut = firstn (Z.to_nat k) (OrderBook.bids full) /\
  OrderBook.asks cut = firstn (Z.to_nat k) (OrderBook.asks full) /\
  OrderBook.midPrice cut = OrderBook.midPrice full /\
  OrderBook.spread cut = OrderBook.spread full /\
  OrderBook.spreadBps cut = OrderBook.spreadBps full /\
  (reachable this -> noNaNPrices this ->
     let sortedBids := sort R.byPriceDesc (mapValues (R.bids this)) in
     let sortedAsks := sort R.byPriceAsc (mapValues (R.asks this)) in
     OrderBook.bids cut = map R.toLevel (firstn (Z.to_nat k) sortedBids) /\
     OrderBook.asks cut = map R.toLevel (firstn (Z.to_nat k) sortedAsks) /\
     (forall kept dropped,
        In kept (firstn (Z.to_nat k) sortedBids) ->
        In dropped (skipn (Z.to_nat k) sortedBids) ->
        (InternalLevel.price dropped <? InternalLevel.price kept)%float = true) /\
     (forall kept dropped,
        In kept (firstn (Z.to_nat k) sortedAsks) ->
        In dropped (skipn (Z.to_nat k) sortedAsks) ->
        (InternalLevel.price kept <? InternalLevel.price dropped)%float = true)).
Proof.
  intros H Hk. cbv zeta. unfold R.snapshotOf.
  cbn [OrderBook.bids OrderBook.asks OrderBook.midPrice OrderBook.spread
       OrderBook.spreadBps ReconstructedOrderBook.book].
  rewrite !(limit_firstn depth k _ H Hk), !firstn_map.
  unfold R.limit.
  split; [reflexivity|]. split; [reflexivity|]. split; [reflexivity|].
  split; [reflexivity|]. split; [reflexivity|].
  intros Hr [Nb Na]. destruct (reachable_wellFormed _ Hr) as [Wb Wa].
  split; [reflexivity|]. split; [reflexivity|]. split.
  - intros kept dropped Hkept Hdrop.
    pose proof (sortedBids_descending _ Wb Nb) as Hs.
    unfold strictlyDescending in Hs.
    apply (firstn_best _ (Z.to_nat k) _ Hs
             (InternalLevel.price kept) (InternalLevel.price dropped)).
    + rewrite firstn_map. apply in_map, Hkept.
    + rewrite skipn_map. apply in_map, Hdrop.
  - intros kept dropped Hkept Hdrop.
    pose proof (sortedAsks_ascending _ Wa Na) as Hs.
    unfold strictlyAscending in Hs.
    apply (firstn_best _ (Z.to_nat k) _ Hs
             (InternalLevel.price kept) (InternalLevel.price dropped)).
    + rewrite firstn_map. apply in_map, Hkept.
    + rewrite skipn_map. apply in_map, Hdrop.
Qed.

(** C8, the example of the specification as a concrete instance: of ten
    bid levels, depth 3 keeps the three with the highest prices. *)
Lemma C8_depth_keeps_the_best_levels_witness :
  let this := fst (R.initialize
    (OrderBook.mk "BTC" "2024-01-01T00:00:00.000Z"
       (map (fun p => PriceLevel.mk p "1" one)
          ["4"; "9"; "1"; "7"; "10"; "2"; "8"; "3"; "6"; "5"]%string)
       [] None None None) R.new) in
  OrderBook.bids (R.snapshotOf (Some 3%float) this) =
    firstn 3 (OrderBook.bids (R.snapshotOf None this)) /\
  map PriceLevel.px (OrderBook.bids (R.snapshotOf (Some 3%float) this)) =
    ["10"; "9"; "8"]%string.
Proof.
  intros this. split.
  - assert (Hk : 1 <= 3) by lia.
    destruct (C8_depth_keeps_the_best_levels this 3%float 3 eq_refl Hk) as [H _].
    exact H.
  - vm_compute. reflexivity.
Defined.

(** C8, the claim as stated fails: with [depth = 0] the test
    [depth ? ... : ...] takes the branch of an omitted depth, and the
    snapshot carries every level of the book instead of the first zero. *)
Lemma C8_depth_zero_returns_every_level :
  let this := fst (R.initialize
    (OrderBook.mk "BTC" "2024-01-01T00:00:00.000Z"
       [PriceLevel.mk "100" "2" one; PriceLevel.mk "101" "1" one]
       [PriceLevel.mk "102" "3" one] None None None) R.new) in
  R.getSnapshot (Some zero) this = R.getSnapshot None this /\
  map PriceLevel.px (OrderBook.bids (R.snapshotOf (Some zero) this)) =
    ["101"; "100"]%string /\
  map PriceLevel.px (OrderBook.asks (R.snapshotOf (Some zero) this)) =
    ["102"]%string.
Proof. vm_compute. repeat split. Qed.

(* ===================================================================== *)
(** * C9: [detectGaps] *)
(* ===================================================================== *)

(** C9: for every delta list [detectGaps] completes normally (it never
    throws) with the gaps of the list sorted by sequence number: for each
    adjacent pair of the sorted list, in order, the pair
    [(previous.sequence + 1, actual)] whenever [actual] is not
    [previous.sequence + 1].  The sorted list is a permutation of the input
    and is ascending when the sequence numbers are numbers.  The result is
    empty for fewer than two deltas and for a contiguous sequence; sequences
    [1,2,3,4] give no gap, [1,3,4] give [(2,3)], a single delta gives none.
    [detectGaps] is static and pure: it takes the delta list only and has no
    instance to touch, so it cannot block or change a replay. *)
Theorem C9_detectGaps :
  (forall deltas,
     R.detectGaps deltas = Normal (adjacentGaps (sort R.bySequence deltas)) /\
     Permutation (sort R.bySequence deltas) deltas) /\
  (forall deltas,
     Forall (fun delta => is_nan (OrderbookDelta.sequence delta) = false) deltas ->
     ascending (map OrderbookDelta.sequence (sort R.bySequence deltas))) /\
  (forall deltas, (List.length deltas < 2)%nat -> R.detectGaps deltas = Normal []) /\
  (forall deltas,
     contiguous (sort R.bySequence deltas) -> R.detectGaps deltas = Normal []) /\
  (forall deltas,
     map OrderbookDelta.sequence deltas = [1; 2; 3; 4]%float ->
     R.detectGaps deltas = Normal []) /\
  (forall deltas,
     map OrderbookDelta.sequence deltas = [1; 3; 4]%float ->
     R.detectGaps deltas = Normal [(2, 3)%float]) /\
  (forall delta, R.detectGaps [delta] = Normal []).
Proof.
  split; [|split; [|split; [|split; [|split; [|split]]]]].
  - intros deltas. split; [apply detectGaps_spec | apply sort_perm].
  - apply sort_ascending.
  - intros deltas Hl. unfold R.detectGaps.
    destruct (Nat.ltb_spec (List.length deltas) 2); [reflexivity | lia].
  - intros deltas Hc. rewrite detectGaps_spec, (adjacentGaps_contiguous _ Hc). reflexivity.
  - intros deltas H.
    destruct deltas as [| [t1 s1 p1 z1 q1] [| [t2 s2 p2 z2 q2] [| [t3 s3 p3 z3 q3]
      [| [t4 s4 p4 z4 q4] [| ? ?]]]]]; try discriminate.
    simpl in H. injection H as -> -> -> ->. vm_compute. reflexivity.
  - intros deltas H.
    destruct deltas as [| [t1 s1 p1 z1 q1] [| [t2 s2 p2 z2 q2] [| [t3 s3 p3 z3 q3]
      [| ? ?]]]]; try discriminate.
    simpl in H. injection H as -> -> ->. vm_compute. reflexivity.
  - intros delta. reflexivity.
Qed.

(** C9, concrete instances: out-of-order deltas with the sequence numbers
    3, 1, 7 and 4 have the gaps (2, 3) and (5, 7); and the sorted list of a
    delta list without [NaN] is ascending. *)
Lemma C9_detectGaps_witness :
  let delta := fun q => OrderbookDelta.mk 1704067200000 bid 100 one q in
  R.detectGaps [delta 3%float; delta 1%float; delta 7%float; delta 4%float] =
    Normal [(2, 3); (5, 7)]%float /\
  ascending (map OrderbookDelta.sequence
    (sort R.bySequence [delta 3%float; delta 1%float; delta 7%float; delta 4%float])).
Proof.
  intros delta. split.
  - rewrite (proj1 (proj1 C9_detectGaps _)). vm_compute. reflexivity.
  - apply (proj1 (proj2 C9_detectGaps)). repeat constructor.
Defined.

(* ===================================================================== *)
(** * C10: the entry points reset the instance *)
(* ===================================================================== *)

(** C10: [reconstructAll], [iterate] and [reconstructFinal] start with
    [initialize], which overwrites all five fields.  So what they return
    (or throw), and the state they leave, are the same from any two states
    of the instance, whatever was called on it before: for [reconstructAll]
    and [reconstructFinal] as a whole, for [iterate] at its first [next]
    and for a consumer draining it with any positive number of [next]
    calls. *)
Theorem C10_entry_points_ignore_the_past
    (checkpoint : OrderBook.t) (deltas : list OrderbookDelta.t)
    (options : ReconstructOptions.t) (depth : option number) (this1 this2 : R.t) :
  R.reconstructAll checkpoint deltas options this1 =
    R.reconstructAll checkpoint deltas options this2 /\
  R.reconstructFinal checkpoint deltas depth this1 =
    R.reconstructFinal checkpoint deltas depth this2 /\
  R.next (R.iterate checkpoint deltas options) this1 =
    R.next (R.iterate checkpoint deltas options) this2 /\
  (forall fuel,
     R.drain (S fuel) (R.iterate checkpoint deltas options) [] this1 =
     R.drain (S fuel) (R.iterate checkpoint deltas options) [] this2).
Proof.
  split; [|split; [|split]].
  - unfold R.reconstructAll. cbv zeta. rewrite !bind_initialize. reflexivity.
  - unfold R.reconstructFinal. rewrite !bind_initialize. reflexivity.
  - unfold R.iterate. cbn [R.next]. rewrite !bind_initialize. reflexivity.
  - intros fuel. unfold R.iterate. cbn [R.drain R.next].
    rewrite !bind_assoc, !bind_initialize. reflexivity.
Qed.

(* ===================================================================== *)
(** * Runs of [applyDelta] *)
(* ===================================================================== *)

Lemma stateAfter_app (this : R.t) (l1 l2 : list OrderbookDelta.t) :
  stateAfter this (l1 ++ l2) = stateAfter (stateAfter this l1) l2.
Proof. unfold stateAfter. apply fold_left_app. Qed.

Lemma reachable_stateAfter (deltas : list OrderbookDelta.t) :
  forall this, reachable this -> reachable (stateAfter this deltas).
Proof.
  induction deltas as [| delta rest IH]; intros this Hr; [exact Hr|].
  rewrite stateAfter_cons. apply IH, reachable_applyDelta, Hr.
Qed.

Lemma reachable_loaded (checkpoint : OrderBook.t) : reachable (loaded checkpoint).
Proof.
  replace (loaded checkpoint) with (fst (R.initialize checkpoint R.new))
    by (rewrite initialize_eq; reflexivity).
  apply reachable_initialize, reachable_new.
Qed.

Lemma stateAfter_coin (deltas : list OrderbookDelta.t) :
  forall this, R.coin (stateAfter this deltas) = R.coin this.
Proof.
  induction deltas as [| delta rest IH]; intros this; [reflexivity|].
  rewrite stateAfter_cons, IH. apply applyDelta_books.
Qed.

Lemma sameSide_true (a b : Side) : sameSide a b = true <-> a = b.
Proof. destruct a, b; simpl; split; congruence. Qed.

Lemma sameSide_false (a b : Side) : sameSide a b = false <-> b = opposite a.
Proof. destruct a, b; simpl; split; congruence. Qed.

(** What a side holds under a key after the change a delta makes. *)
Lemma levelChange_get (delta : OrderbookDelta.t) (k : number) (m : Map InternalLevel.t) :
  NoDup (keysOf m) ->
  mapGet k (levelChange delta m) =
  if sameValueZero (OrderbookDelta.price delta) k then levelOf delta else mapGet k m.
Proof.
  intros Hn. unfold levelChange, levelOf.
  destruct (sameValueZero (OrderbookDelta.price delta) k) eqn:E.
  - apply sameValueZero_spec in E.
    destruct (strictEq (OrderbookDelta.size delta) zero).
    + rewrite (mapGet_key k (OrderbookDelta.price delta)) by (symmetry; exact E).
      apply mapGet_delete_same, Hn.
    + apply mapGet_set_same. symmetry; exact E.
  - apply sameValueZero_false in E.
    destruct (strictEq (OrderbookDelta.size delta) zero).
    + apply mapGet_delete_other. congruence.
    + apply mapGet_set_other. congruence.
Qed.

Lemma applyDelta_get (delta : OrderbookDelta.t) (this : R.t) (s : Side) (k : number) :
  wellFormed this ->
  mapGet k (bookOf s (fst (R.applyDelta delta this))) =
  if touches s k delta then levelOf delta else mapGet k (bookOf s this).
Proof.
  intros Hw. destruct (applyDelta_books delta this) as (Hb & Ho & _).
  unfold touches. destruct (sameSide (OrderbookDelta.side delta) s) eqn:E.
  - apply sameSide_true in E. subst s. rewrite Hb. simpl.
    apply levelChange_get. destruct Hw as [[H1 _] [H2 _]].
    destruct (OrderbookDelta.side delta); assumption.
  - apply sameSide_false in E. subst s. rewrite Ho. reflexivity.
Qed.

Lemma stateAfter_get (this : R.t) (deltas : list OrderbookDelta.t)
    (s : Side) (k : number) :
  reachable this ->
  mapGet k (bookOf s (stateAfter this deltas)) =
  match lastTouching s k deltas with
  | Some delta => levelOf delta
  | None => mapGet k (bookOf s this)
  end.
Proof.
  intros Hr. unfold lastTouching.
  induction deltas as [| delta front IH] using rev_ind; [reflexivity|].
  rewrite stateAfter_app, rev_app_distr. cbn [rev app find stateAfter fold_left].
  change (fold_left (fun st d => fst (R.applyDelta d st)) front this)
    with (stateAfter this front).
  rewrite applyDelta_get
    by (apply reachable_wellFormed, reachable_stateAfter, Hr).
  destruct (touches s k delta); [reflexivity | exact IH].
Qed.

Lemma mapSetAux_twice {V} (k : number) (v : V) (m : Map V) :
  mapSetAux k v (mapSetAux k v m) = mapSetAux k v m.
Proof.
  induction m as [| [k0 v0] m IH]; simpl.
  - rewrite sameValueZero_refl. reflexivity.
  - destruct (sameValueZero k0 k) eqn:E; simpl; rewrite E; [reflexivity|].
    rewrite IH. reflexivity.
Qed.

Lemma mapDelete_twice {V} (k : number) (m : Map V) :
  NoDup (keysOf m) -> mapDelete k (mapDelete k m) = mapDelete k m.
Proof.
  intros Hn. apply mapDelete_absent. apply mapGet_delete_same, Hn.
Qed.

Lemma levelChange_twice (delta : OrderbookDelta.t) (m : Map InternalLevel.t) :
  NoDup (keysOf m) -> levelChange delta (levelChange delta m) = levelChange delta m.
Proof.
  intros Hn. unfold levelChange.
  destruct (strictEq (OrderbookDelta.size delta) zero).
  - apply mapDelete_twice, Hn.
  - unfold mapSet. apply mapSetAux_twice.
Qed.

(** The header [applyDelta] leaves when it completes. *)
Lemma applyDelta_header (delta : OrderbookDelta.t) (this : R.t) :
  validTimestamp delta ->
  R.coin (fst (R.applyDelta delta this)) = R.coin this /\
  toISOString (newDate (OrderbookDelta.timestamp delta)) =
    Normal (R.lastTimestamp (fst (R.applyDelta delta this))) /\
  R.lastSequence (fst (R.applyDelta delta this)) = OrderbookDelta.sequence delta.
Proof.
  intros Hv. rewrite applyDelta_eq. cbv zeta. unfold validTimestamp in Hv.
  destruct (newDate (OrderbookDelta.timestamp delta)) as [t |]; [|congruence].
  destruct this, (OrderbookDelta.side delta); repeat split.
Qed.

Lemma applyDelta_invalid (delta : OrderbookDelta.t) (this : R.t) :
  ~ validTimestamp delta ->
  R.applyDelta delta this =
  (R.updBook (OrderbookDelta.side delta) (levelChange delta) this, Throw RangeError).
Proof.
  intros Hv. rewrite applyDelta_eq. cbv zeta. unfold validTimestamp in Hv.
  destruct (newDate (OrderbookDelta.timestamp delta)); [|reflexivity].
  exfalso. apply Hv. discriminate.
Qed.

Lemma bind_applyDelta_invalid {A} (delta : OrderbookDelta.t) (k : unit -> R.M A)
    (this : R.t) :
  ~ validTimestamp delta ->
  R.bind (R.applyDelta delta) k this = (fst (R.applyDelta delta this), Throw RangeError).
Proof.
  intros Hv. unfold R.bind. rewrite (applyDelta_invalid _ _ Hv). reflexivity.
Qed.

Lemma validTimestamp_dec (delta : OrderbookDelta.t) :
  validTimestamp delta \/ ~ validTimestamp delta.
Proof.
  unfold validTimestamp. destruct (newDate (OrderbookDelta.timestamp delta)).
  - left. discriminate.
  - right. intros H. apply H. reflexivity.
Qed.

(** A list with an invalid timestamp splits at the first one. *)
Lemma first_invalid (deltas : list OrderbookDelta.t) :
  Exists (fun delta => ~ validTimestamp delta) deltas ->
  exists good bad rest,
    deltas = good ++ bad :: rest /\ Forall validTimestamp good /\ ~ validTimestamp bad.
Proof.
  induction deltas as [| delta deltas IH]; intros H; [inversion H|].
  destruct (validTimestamp_dec delta) as [Hv | Hv].
  - inversion H as [? ? Hb | ? ? Hr]; subst; [contradiction|].
    destruct (IH Hr) as (good & bad & rest & E & Hg & Hb).
    exists (delta :: good), bad, rest. rewrite E. repeat split; auto.
  - exists [], delta, deltas. repeat split; auto.
Qed.

Lemma sort_invalid (deltas : list OrderbookDelta.t) :
  Exists (fun delta => ~ validTimestamp delta) deltas ->
  Exists (fun delta => ~ validTimestamp delta) (sort R.bySequence deltas).
Proof.
  rewrite !Exists_exists. intros (x & Hin & Hx). exists x. split; [|exact Hx].
  apply sort_In, Hin.
Qed.

(* ===================================================================== *)
(** * The replay loops, thrown or not *)
(* ===================================================================== *)

Lemma forOf_abort (good : list OrderbookDelta.t) (bad : OrderbookDelta.t)
    (rest : list OrderbookDelta.t) :
  Forall validTimestamp good -> ~ validTimestamp bad ->
  forall this,
    R.forOf (good ++ bad :: rest) R.applyDelta this =
    (fst (R.applyDelta bad (stateAfter this good)), Throw RangeError).
Proof.
  intros Hg Hb. induction Hg as [| delta good Hd Hg IH]; intros this.
  - cbn [app R.forOf]. apply bind_applyDelta_invalid, Hb.
  - cbn [app R.forOf]. rewrite (bind_applyDelta_valid _ _ _ Hd), stateAfter_cons.
    apply IH.
Qed.

Lemma replayAll_abort (depth : option number) (emitAll : bool)
    (good : list OrderbookDelta.t) (bad : OrderbookDelta.t)
    (rest : list OrderbookDelta.t) :
  Forall validTimestamp good -> ~ validTimestamp bad ->
  forall this snapshots,
    R.replayAll depth emitAll (good ++ bad :: rest) snapshots this =
    (fst (R.applyDelta bad (stateAfter this good)), Throw RangeError).
Proof.
  intros Hg Hb. induction Hg as [| delta good Hd Hg IH]; intros this snapshots.
  - cbn [app R.replayAll]. apply bind_applyDelta_invalid, Hb.
  - cbn [app R.replayAll]. rewrite (bind_applyDelta_valid _ _ _ Hd), stateAfter_cons.
    destruct emitAll; repeat run_step; apply IH.
Qed.

(** One turn of the loop of [reconstructAll]. *)
Lemma replayAll_cons (depth : option number) (emitAll : bool)
    (delta : OrderbookDelta.t) (rest : list OrderbookDelta.t)
    (snapshots : list ReconstructedOrderBook.t) (this : R.t) :
  R.replayAll depth emitAll (delta :: rest) snapshots this =
  match R.applyDelta delta this with
  | (this', Normal _) =>
      R.replayAll depth emitAll rest
        (if emitAll then R.push snapshots (R.snapshotOf depth this') else snapshots) this'
  | (this', Throw e) => (this', Throw e)
  end.
Proof.
  cbn [R.replayAll]. unfold R.bind at 1.
  destruct (R.applyDelta delta this) as [this' [[] | e]]; [|reflexivity].
  destruct emitAll; repeat run_step; reflexivity.
Qed.

(** Without snapshots the loop of [reconstructAll] is the loop of
    [reconstructFinal]. *)
Lemma replayAll_forOf (depth : option number) (sortedDeltas : list OrderbookDelta.t) :
  forall this snapshots,
    R.replayAll depth false sortedDeltas snapshots this =
    R.bind (R.forOf sortedDeltas R.applyDelta) (fun _ => R.ret snapshots) this.
Proof.
  induction sortedDeltas as [| delta rest IH]; intros this snapshots.
  - reflexivity.
  - rewrite replayAll_cons. cbn [R.forOf]. rewrite bind_assoc. unfold R.bind at 1.
    destruct (R.applyDelta delta this) as [this' [[] | e]]; [|reflexivity].
    apply IH.
Qed.

(** The entry points on deltas with valid timestamps. *)
Lemma reconstructAll_emit (checkpoint : OrderBook.t) (deltas : list OrderbookDelta.t)
    (options : ReconstructOptions.t) (this : R.t) :
  Forall validTimestamp deltas ->
  ReconstructOptions.emitAll options <> Some false ->
  R.reconstructAll checkpoint deltas options this =
    (stateAfter (loaded checkpoint) (sort R.bySequence deltas),
     Normal (R.snapshotOf (ReconstructOptions.depth options) (loaded checkpoint) ::
             snapshotsAlong (ReconstructOptions.depth options) (loaded checkpoint)
               (sort R.bySequence deltas))).
Proof.
  intros Hv He. apply sort_valid in Hv. destruct options as [depth e]. cbn in He.
  assert (Et : match e with Some b => b | None => true end = true).
  { destruct e as [[|] |]; congruence. }
  unfold R.reconstructAll.
  cbn [ReconstructOptions.depth ReconstructOptions.emitAll]. cbv zeta.
  rewrite Et. cbn [negb]. repeat run_step.
  unfold R.bind. rewrite (replayAll_emit _ _ Hv). reflexivity.
Qed.

Lemma reconstructFinal_valid (checkpoint : OrderBook.t) (deltas : list OrderbookDelta.t)
    (depth : option number) (this : R.t) :
  Forall validTimestamp deltas ->
  R.reconstructFinal checkpoint deltas depth this =
    (stateAfter (loaded checkpoint) (sort R.bySequence deltas),
     Normal (R.snapshotOf depth
               (stateAfter (loaded checkpoint) (sort R.bySequence deltas)))).
Proof.
  intros Hv. apply sort_valid in Hv.
  unfold R.reconstructFinal. run_step. cbv zeta.
  unfold R.bind. rewrite (forOf_applyDelta _ Hv). apply getSnapshot_eq.
Qed.

Lemma reconstructAll_silent (checkpoint : OrderBook.t) (deltas : list OrderbookDelta.t)
    (depth : option number) (this : R.t) :
  R.reconstructAll checkpoint deltas (ReconstructOptions.mk depth (Some false)) this =
  (fst (R.reconstructFinal checkpoint deltas depth this),
   singleton (snd (R.reconstructFinal checkpoint deltas depth this))).
Proof.
  unfold R.reconstructAll, R.reconstructFinal.
  cbn [ReconstructOptions.depth ReconstructOptions.emitAll negb]. cbv zeta.
  repeat run_step. unfold R.bind. rewrite replayAll_forOf. unfold R.bind.
  destruct (R.forOf (sort R.bySequence deltas) R.applyDelta (loaded checkpoint))
    as [st [[] | e]]; reflexivity.
Qed.

(** Both entry points stop at the first delta [new Date] rejects. *)
Lemma replay_abort (checkpoint : OrderBook.t) (deltas : list OrderbookDelta.t)
    (good : list OrderbookDelta.t) (bad : OrderbookDelta.t) (rest : list OrderbookDelta.t)
    (options : ReconstructOptions.t) (depth : option number) (this : R.t) :
  sort R.bySequence deltas = good ++ bad :: rest ->
  Forall validTimestamp good -> ~ validTimestamp bad ->
  R.reconstructAll checkpoint deltas options this =
    (R.updBook (OrderbookDelta.side bad) (levelChange bad)
       (stateAfter (loaded checkpoint) good), Throw RangeError) /\
  R.reconstructFinal checkpoint deltas depth this =
    (R.updBook (OrderbookDelta.side bad) (levelChange bad)
       (stateAfter (loaded checkpoint) good), Throw RangeError).
Proof.
  intros E Hg Hb.
  assert (Es : fst (R.applyDelta bad (stateAfter (loaded checkpoint) good)) =
               R.updBook (OrderbookDelta.side bad) (levelChange bad)
                 (stateAfter (loaded checkpoint) good)).
  { rewrite (applyDelta_invalid _ _ Hb). reflexivity. }
  split.
  - unfold R.reconstructAll. cbv zeta. run_step. rewrite E.
    destruct (match ReconstructOptions.emitAll options with
              | Some b => b | None => true end);
      repeat run_step; unfold R.bind;
      rewrite (replayAll_abort _ _ _ _ _ Hg Hb), Es; reflexivity.
  - unfold R.reconstructFinal. run_step. cbv zeta. rewrite E.
    unfold R.bind. rewrite (forOf_abort _ _ _ Hg Hb), Es. reflexivity.
Qed.

(** The headers of the snapshots of a run. *)
Lemma snapshotsAlong_headers (depth : option number) (deltas : list OrderbookDelta.t) :
  Forall validTimestamp deltas ->
  forall this,
    Forall2 (stampedBy (R.coin this)) deltas (snapshotsAlong depth this deltas).
Proof.
  intros Hv. induction Hv as [| delta rest Hd Hr IH]; intros this.
  - constructor.
  - cbn [snapshotsAlong]. destruct (applyDelta_header delta this Hd) as (Hc & Ht & Hq).
    constructor.
    + unfold stampedBy, R.snapshotOf. cbn. rewrite Hc, Hq. auto.
    + rewrite <- Hc. apply IH.
Qed.

Lemma StronglySorted_last {A} (R1 : A -> A -> Prop) (l : list A) (x : A) :
  StronglySorted R1 (l ++ [x]) -> Forall (fun y => R1 y x) l.
Proof.
  induction l as [| a l IH]; intros H; [constructor|].
  cbn [app] in H. inversion H as [| ? ? Hs Hf]; subst. constructor.
  - rewrite Forall_app in Hf. destruct Hf as [_ Hx]. inversion Hx; assumption.
  - apply IH, Hs.
Qed.

Lemma last_cases {A} (l : list A) :
  l = [] \/ exists front final, l = front ++ [final].
Proof.
  induction l as [| x l _] using rev_ind; [left; reflexivity|].
  right. exists l, x. reflexivity.
Qed.

Lemma number_leb_refl (x : number) : is_nan x = false -> (x <=? x)%float = true.
Proof. intros H. rewrite (leb_rank _ _ H H). apply Z.leb_refl. Qed.

Lemma number_ltb_leb (x y : number) : (x <? y)%float = true -> (x <=? y)%float = true.
Proof.
  intros H. destruct (ltb_true_not_nan _ _ H) as [Nx Ny].
  rewrite (ltb_rank _ _ Nx Ny) in H. rewrite (leb_rank _ _ Nx Ny).
  apply Z.ltb_lt in H. apply Z.leb_le. lia.
Qed.

(** ** The generator *)

Lemma pull_loop (depth : option number) (k : nat) :
  forall (rest : list OrderbookDelta.t) this out,
    Forall validTimestamp (firstn k rest) ->
    exists g',
      pull k (R.SuspendedLoop rest depth) out this =
      (stateAfter this (firstn k rest),
       Normal (g', out ++ snapshotsAlong depth this (firstn k rest))).
Proof.
  induction k as [| k IH]; intros rest this out Hv.
  - exists (R.SuspendedLoop rest depth). cbn. rewrite app_nil_r. reflexivity.
  - destruct rest as [| delta rest].
    + exists R.Completed. cbn. rewrite app_nil_r. reflexivity.
    + cbn [firstn] in Hv. inversion Hv as [| ? ? Hd Hr]; subst.
      cbn [pull R.next R.resumeLoop]. rewrite bind_assoc.
      rewrite (bind_applyDelta_valid _ _ _ Hd). repeat run_step.
      destruct (IH rest (fst (R.applyDelta delta this))
                  (R.push out (R.snapshotOf depth (fst (R.applyDelta delta this)))) Hr)
        as [g' E].
      exists g'. rewrite E. cbn [firstn snapshotsAlong]. rewrite stateAfter_cons.
      unfold R.push. rewrite <- app_assoc. reflexivity.
Qed.

(** ** Ties in the sort by sequence number *)



(* ===================================================================== *)
(** * The depth limit off the integers from 1 *)
(* ===================================================================== *)

Lemma positive_truthy (x : number) : (zero <? x)%float = true -> truthy x = true.
Proof.
  intros H. destruct (ltb_true_not_nan _ _ H) as [_ Nx].
  unfold truthy, is_zero. rewrite Nx, orb_false_r.
  rewrite (ltb_rank zero x eq_refl Nx) in H. rewrite (eqb_rank x zero Nx eq_refl).
  apply Z.ltb_lt in H. apply negb_true_iff, Z.eqb_neq. lia.
Qed.

Lemma rank_one : rank one = 2 ^ 1074.
Proof. vm_compute. reflexivity. Qed.

Lemma rank_zero : rank zero = 0.
Proof. reflexivity. Qed.

(** A number strictly between 0 and 1 has the integer part 0. *)
Lemma fraction_integer_part (d : number) :
  (zero <? d)%float = true -> (d <? one)%float = true ->
  toIntegerOrInfinity d = Int 0.
Proof.
  intros H0 H1. destruct (ltb_true_not_nan _ _ H0) as [_ Nd].
  rewrite (ltb_rank zero d eq_refl Nd) in H0.
  rewrite (ltb_rank d one Nd eq_refl), rank_one in H1.
  apply Z.ltb_lt in H0, H1. rewrite rank_zero in H0.
  pose proof (Prim2SF_valid d) as Hv.
  unfold toIntegerOrInfinity, truncate, rank in *.
  destruct (Prim2SF d) as [s | s | | s m e]; try reflexivity.
  - destruct s; cbn in H0, H1; [lia|].
    exfalso. revert H1. change (2 ^ 2200 < 2 ^ 1074 -> False).
    intros H1. assert (2 ^ 1074 < 2 ^ 2200) by (apply Z.pow_lt_mono_r; lia). lia.
  - cbn [valid_binary] in Hv. destruct (bounded_inv _ _ Hv) as (He & _ & _).
    destruct s; cbn [scaled cond_Zopp] in H0, H1.
    + assert (0 < Z.pos m * 2 ^ (e + 1074)) by (apply Z.mul_pos_pos; pow_side). lia.
    + destruct (Z.leb_spec 0 e) as [Hge | Hlt].
      * exfalso.
        assert (2 ^ 1074 <= 2 ^ (e + 1074)) by (apply Z.pow_le_mono_r; lia).
        assert (1 * 2 ^ (e + 1074) <= Z.pos m * 2 ^ (e + 1074))
          by (apply Z.mul_le_mono_nonneg_r; pow_side).
        lia.
      * f_equal. apply Z.div_small. split; [lia|].
        assert (E : 2 ^ 1074 = 2 ^ (- e) * 2 ^ (e + 1074)).
        { rewrite <- Z.pow_add_r by lia. f_equal. lia. }
        rewrite E in H1.
        apply Z.mul_lt_mono_pos_r in H1; [exact H1 | pow_side].
Qed.

Lemma limit_falsy {A} (d : number) (l : list A) :
  truthy d = false -> R.limit (Some d) l = l.
Proof. intros H. unfold R.limit. rewrite H. reflexivity. Qed.

Lemma limit_infinite {A} (d : number) (l : list A) :
  toIntegerOrInfinity d = PosInf -> R.limit (Some d) l = l.
Proof.
  intros H. unfold R.limit, slice0. rewrite H.
  destruct (truthy d); [|reflexivity].
  rewrite Nat2Z.id. apply firstn_all.
Qed.

Lemma limit_fraction {A} (d : number) (l : list A) :
  (zero <? d)%float = true -> (d <? one)%float = true -> R.limit (Some d) l = [].
Proof.
  intros H0 H1. unfold R.limit, slice0.
  rewrite (positive_truthy _ H0), (fraction_integer_part _ H0 H1).
  cbn [Z.ltb Z.compare]. rewrite Z.min_l by lia. reflexivity.
Qed.

Lemma negative_part_truthy (d : number) (k : Z) :
  toIntegerOrInfinity d = Int k -> k < 0 -> truthy d = true.
Proof.
  unfold toIntegerOrInfinity, truthy, is_zero. intros H Hk.
  assert (Hf : exists s m e, Prim2SF d = S754_finite s m e).
  { destruct (Prim2SF d) as [s | s | | s m e]; try (injection H as <-; lia).
    - destruct s; discriminate.
    - eauto. }
  destruct Hf as (s & m & e & E).
  assert (Hn : is_nan d = false) by (apply is_nan_false; congruence).
  rewrite Hn, eqb_spec, E, Prim2SF_zero. destruct s; reflexivity.
Qed.

Lemma limit_negative {A} (d : number) (k : Z) (l : list A) :
  toIntegerOrInfinity d = Int k -> k < 0 ->
  R.limit (Some d) l = firstn (List.length l - Z.to_nat (- k)) l.
Proof.
  intros H Hk. unfold R.limit, slice0.
  rewrite (negative_part_truthy d k H Hk), H.
  destruct (Z.ltb_spec k 0); [|lia]. f_equal. lia.
Qed.

(* ===================================================================== *)
(** * Instances with the same content *)
(* ===================================================================== *)

Lemma values_delete_present {V} (k : number) (v : V) (m : Map V) :
  mapGet k m = Some v ->
  Permutation (mapValues m) (v :: mapValues (mapDelete k m)).
Proof.
  unfold mapValues. induction m as [| [k0 v0] m IH]; [discriminate|].
  cbn [mapGet mapDelete map snd]. destruct (sameValueZero k0 k).
  - intros H. injection H as ->. apply Permutation_refl.
  - intros H. cbn [map snd]. eapply perm_trans; [apply perm_skip, IH, H|].
    apply perm_swap.
Qed.

(** Sides with the same lookups hold the same levels, up to their order. *)
Lemma sameLevels_values (m1 : Map InternalLevel.t) :
  forall m2, NoDup (keysOf m1) -> NoDup (keysOf m2) -> sameLevels m1 m2 ->
    Permutation (mapValues m1) (mapValues m2).
Proof.
  induction m1 as [| [k1 v1] m1 IH]; intros m2 H1 H2 Hs.
  - destruct m2 as [| [k2 v2] m2]; [apply Permutation_refl|].
    specialize (Hs k2). cbn [mapGet] in Hs. rewrite sameValueZero_refl in Hs.
    discriminate.
  - inversion H1 as [| ? ? Hnot H1']; subst.
    assert (Hg : mapGet k1 m2 = Some v1).
    { rewrite <- (Hs k1). cbn [mapGet]. rewrite sameValueZero_refl. reflexivity. }
    apply Permutation_sym. eapply perm_trans; [apply (values_delete_present _ _ _ Hg)|].
    cbn [mapValues map snd]. apply perm_skip, Permutation_sym.
    apply IH; [exact H1' | apply NoDup_keys_delete, H2|].
    intros k. destruct (sameValueZero k1 k) eqn:E.
    + apply sameValueZero_spec in E.
      rewrite (mapGet_key k k1) by (symmetry; exact E).
      rewrite (mapGet_key k k1 (mapDelete k1 m2)) by (symmetry; exact E).
      rewrite (mapGet_delete_same _ _ H2). apply mapGet_None. exact Hnot.
    + specialize (Hs k). cbn [mapGet] in Hs. rewrite E in Hs. rewrite Hs.
      symmetry. apply mapGet_delete_other. apply sameValueZero_false in E. congruence.
Qed.

Lemma sameLevels_sorted (m1 m2 : Map InternalLevel.t) :
  wfBook m1 -> wfBook m2 -> noNaNBook m1 -> sameLevels m1 m2 ->
  sort R.byPriceDesc (mapValues m1) = sort R.byPriceDesc (mapValues m2) /\
  sort R.byPriceAsc (mapValues m1) = sort R.byPriceAsc (mapValues m2).
Proof.
  intros W1 W2 Hn Hs.
  pose proof (sameLevels_values _ _ (proj1 W1) (proj1 W2) Hs) as Hp.
  split.
  - apply (sort_permutation R.byPriceDesc
             (fun level => - rank (InternalLevel.price level)) _ _ Hp).
    + apply byPriceDesc_ranked, Hn.
    + rewrite <- (map_map (fun level => rank (InternalLevel.price level)) Z.opp).
      apply NoDup_map_opp, wfBook_distinct_ranks; assumption.
  - apply (sort_permutation R.byPriceAsc
             (fun level => rank (InternalLevel.price level)) _ _ Hp).
    + apply byPriceAsc_ranked, Hn.
    + apply wfBook_distinct_ranks; assumption.
Qed.

Lemma sameContent_snapshot (depth : option number) (this1 this2 : R.t) :
  wellFormed this1 -> wellFormed this2 -> noNaNPrices this1 ->
  sameContent this1 this2 ->
  R.snapshotOf depth this1 = R.snapshotOf depth this2.
Proof.
  intros [Wb1 Wa1] [Wb2 Wa2] [Nb Na] (Sb & Sa & Ec & Et & Eq).
  destruct (sameLevels_sorted _ _ Wb1 Wb2 Nb Sb) as [Eb _].
  destruct (sameLevels_sorted _ _ Wa1 Wa2 Na Sa) as [_ Ea].
  unfold R.snapshotOf. rewrite Eb, Ea, Ec, Et, Eq. reflexivity.
Qed.

Lemma alike_snapshot (depth : option number) (this1 this2 : R.t) :
  alike this1 this2 -> R.snapshotOf depth this1 = R.snapshotOf depth this2.
Proof. intros (W1 & W2 & Hn & Hs). apply sameContent_snapshot; assumption. Qed.

Lemma noNaNBook_change (delta : OrderbookDelta.t) (m : Map InternalLevel.t) :
  is_nan (OrderbookDelta.price delta) = false ->
  noNaNBook m -> noNaNBook (levelChange delta m).
Proof.
  intros Hp Hn. unfold levelChange, noNaNBook in *.
  destruct (strictEq (OrderbookDelta.size delta) zero).
  - apply Forall_values_delete, Hn.
  - apply Forall_values_set; [exact Hp | exact Hn].
Qed.

Lemma noNaNPrices_applyDelta (delta : OrderbookDelta.t) (this : R.t) :
  is_nan (OrderbookDelta.price delta) = false ->
  noNaNPrices this -> noNaNPrices (fst (R.applyDelta delta this)).
Proof.
  intros Hp [Hb Ha]. destruct (applyDelta_books delta this) as (E1 & E2 & _).
  unfold noNaNPrices.
  destruct (OrderbookDelta.side delta); cbn [bookOf opposite] in E1, E2;
    rewrite E1, E2; split; try assumption; apply noNaNBook_change; assumption.
Qed.

(** Whether [applyDelta] throws depends on the delta alone. *)
Lemma applyDelta_completion (delta : OrderbookDelta.t) (this1 this2 : R.t) :
  snd (R.applyDelta delta this1) = snd (R.applyDelta delta this2).
Proof.
  rewrite !applyDelta_eq. cbv zeta.
  destruct (newDate (OrderbookDelta.timestamp delta)); reflexivity.
Qed.

Lemma applyDelta_last (delta : OrderbookDelta.t) (this1 this2 : R.t) :
  R.lastTimestamp this1 = R.lastTimestamp this2 ->
  R.lastSequence this1 = R.lastSequence this2 ->
  R.lastTimestamp (fst (R.applyDelta delta this1)) =
    R.lastTimestamp (fst (R.applyDelta delta this2)) /\
  R.lastSequence (fst (R.applyDelta delta this1)) =
    R.lastSequence (fst (R.applyDelta delta this2)).
Proof.
  intros Et Eq. rewrite !applyDelta_eq. cbv zeta.
  destruct (newDate (OrderbookDelta.timestamp delta)), this1, this2,
    (OrderbookDelta.side delta); cbn in *; auto.
Qed.

Lemma alike_applyDelta (delta : OrderbookDelta.t) (this1 this2 : R.t) :
  is_nan (OrderbookDelta.price delta) = false ->
  alike this1 this2 ->
  alike (fst (R.applyDelta delta this1)) (fst (R.applyDelta delta this2)).
Proof.
  intros Hp (W1 & W2 & Hn & Sb & Sa & Ec & Et & Eq).
  split; [apply wellFormed_applyDelta, W1|].
  split; [apply wellFormed_applyDelta, W2|].
  split; [apply noNaNPrices_applyDelta; assumption|].
  destruct (applyDelta_last delta this1 this2 Et Eq) as [Et' Eq'].
  split; [|split; [|split; [|split; assumption]]].
  - intros k. change (mapGet k (bookOf bid (fst (R.applyDelta delta this1))) =
                      mapGet k (bookOf bid (fst (R.applyDelta delta this2)))).
    rewrite !applyDelta_get by assumption. cbn [bookOf]. rewrite (Sb k). reflexivity.
  - intros k. change (mapGet k (bookOf ask (fst (R.applyDelta delta this1))) =
                      mapGet k (bookOf ask (fst (R.applyDelta delta this2)))).
    rewrite !applyDelta_get by assumption. cbn [bookOf]. rewrite (Sa k). reflexivity.
  - destruct (applyDelta_books delta this1) as (_ & _ & C1).
    destruct (applyDelta_books delta this2) as (_ & _ & C2). congruence.
Qed.

Lemma alike_replayAll (depth : option number) (emitAll : bool)
    (sortedDeltas : list OrderbookDelta.t) :
  Forall (fun delta => is_nan (OrderbookDelta.price delta) = false) sortedDeltas ->
  forall this1 this2 snapshots,
    alike this1 this2 ->
    snd (R.replayAll depth emitAll sortedDeltas snapshots this1) =
      snd (R.replayAll depth emitAll sortedDeltas snapshots this2) /\
    (forall out, snd (R.replayAll depth emitAll sortedDeltas snapshots this1) = Normal out ->
       alike (fst (R.replayAll depth emitAll sortedDeltas snapshots this1))
             (fst (R.replayAll depth emitAll sortedDeltas snapshots this2))).
Proof.
  intros Hp. induction Hp as [| delta rest Hd Hr IH]; intros this1 this2 snapshots Ha.
  - split; [reflexivity | intros _ _; exact Ha].
  - rewrite !replayAll_cons.
    pose proof (alike_applyDelta delta _ _ Hd Ha) as Ha'.
    pose proof (applyDelta_completion delta this1 this2) as Ec.
    destruct (R.applyDelta delta this1) as [st1 c1].
    destruct (R.applyDelta delta this2) as [st2 c2].
    cbn [fst snd] in Ha', Ec. subst c2.
    destruct c1 as [[] | e]; [|split; [reflexivity | discriminate]].
    rewrite (alike_snapshot depth _ _ Ha'). apply IH, Ha'.
Qed.

Lemma alike_forOf (sortedDeltas : list OrderbookDelta.t) :
  Forall (fun delta => is_nan (OrderbookDelta.price delta) = false) sortedDeltas ->
  forall this1 this2,
    alike this1 this2 ->
    snd (R.forOf sortedDeltas R.applyDelta this1) =
      snd (R.forOf sortedDeltas R.applyDelta this2) /\
    (snd (R.forOf sortedDeltas R.applyDelta this1) = Normal tt ->
       alike (fst (R.forOf sortedDeltas R.applyDelta this1))
             (fst (R.forOf sortedDeltas R.applyDelta this2))).
Proof.
  intros Hp. induction Hp as [| delta rest Hd Hr IH]; intros this1 this2 Ha.
  - split; [reflexivity | intros _; exact Ha].
  - cbn [R.forOf].
    pose proof (alike_applyDelta delta _ _ Hd Ha) as Ha'.
    pose proof (applyDelta_completion delta this1 this2) as Ec.
    unfold R.bind.
    destruct (R.applyDelta delta this1) as [st1 c1].
    destruct (R.applyDelta delta this2) as [st2 c2].
    cbn [fst snd] in Ha', Ec. subst c2.
    destruct c1 as [[] | e]; [|split; [reflexivity | discriminate]].
    apply IH, Ha'.
Qed.

Lemma NoDup_map_In_eq {A B} (f : A -> B) (l : list A) (x y : A) :
  NoDup (map f l) -> In x l -> In y l -> f x = f y -> x = y.
Proof.
  induction l as [| a l IH]; [contradiction|].
  cbn [map]. intros Hn Hx Hy E. inversion Hn as [| ? ? Hnot Hn']; subst.
  destruct Hx as [-> | Hx], Hy as [-> | Hy]; auto.
  - exfalso. apply Hnot. rewrite E. apply in_map, Hy.
  - exfalso. apply Hnot. rewrite <- E. apply in_map, Hx.
Qed.

(** Loading the same levels in another order gives the same lookups, when
    no price comes twice. *)
Lemma sameLevels_load (levels levels' : list PriceLevel.t) :
  Permutation levels levels' -> distinctPrices levels ->
  sameLevels (loadLevels levels []) (loadLevels levels' []).
Proof.
  intros Hp Hd k. unfold distinctPrices, parsedPrices in Hd. rewrite map_map in Hd.
  destruct (loadLevels_get k levels []) as [(l1 & In1 & K1 & G1) | (N1 & G1)];
    destruct (loadLevels_get k levels' []) as [(l2 & In2 & K2 & G2) | (N2 & G2)];
    rewrite G1, G2.
  - f_equal. f_equal.
    apply (NoDup_map_In_eq _ _ _ _ Hd In1).
    + apply (Permutation_in _ (Permutation_sym Hp)), In2.
    + cbn [internalOf InternalLevel.price] in K1, K2. congruence.
  - exfalso. apply (N2 l1); [apply (Permutation_in _ Hp), In1 | exact K1].
  - exfalso. apply (N1 l2);
      [apply (Permutation_in _ (Permutation_sym Hp)), In2 | exact K2].
  - reflexivity.
Qed.

Lemma alike_loaded (checkpoint checkpoint' : OrderBook.t) :
  OrderBook.coin checkpoint = OrderBook.coin checkpoint' ->
  OrderBook.timestamp checkpoint = OrderBook.timestamp checkpoint' ->
  Permutation (OrderBook.bids checkpoint) (OrderBook.bids checkpoint') ->
  Permutation (OrderBook.asks checkpoint) (OrderBook.asks checkpoint') ->
  pricesParse checkpoint ->
  distinctPrices (OrderBook.bids checkpoint) ->
  distinctPrices (OrderBook.asks checkpoint) ->
  alike (loaded checkpoint) (loaded checkpoint').
Proof.
  intros Ec Et Pb Pa Hp Db Da.
  unfold pricesParse in Hp. rewrite Forall_app in Hp. destruct Hp as [Nb Na].
  split; [split; apply wfBook_load, wfBook_nil|].
  split; [split; apply wfBook_load, wfBook_nil|].
  split; [split; apply noNaNBook_load; try assumption; constructor|].
  split; [apply sameLevels_load; assumption|].
  split; [apply sameLevels_load; assumption|].
  cbn. auto.
Qed.

(* ===================================================================== *)
(** * More on the gap scan *)
(* ===================================================================== *)

Lemma adjacentGaps_cons (previous current : OrderbookDelta.t)
    (rest : list OrderbookDelta.t) :
  adjacentGaps (previous :: current :: rest) =
  (if strictEq (OrderbookDelta.sequence current)
        (OrderbookDelta.sequence previous + 1)%float
   then [] else [((OrderbookDelta.sequence previous + 1)%float,
                  OrderbookDelta.sequence current)]) ++
  adjacentGaps (current :: rest).
Proof. reflexivity. Qed.

Lemma adjacentGaps_nil (sorted : list OrderbookDelta.t) :
  adjacentGaps sorted = [] -> contiguous sorted.
Proof.
  induction sorted as [| previous rest IH]; [exact (fun _ => I)|].
  destruct rest as [| current rest]; [exact (fun _ => I)|].
  rewrite adjacentGaps_cons. cbn [contiguous].
  destruct (strictEq (OrderbookDelta.sequence current)
              (OrderbookDelta.sequence previous + 1)%float); [|discriminate].
  intros H. split; [reflexivity | apply IH, H].
Qed.

Lemma adjacentGaps_length (sorted : list OrderbookDelta.t) :
  (List.length (adjacentGaps sorted) <= List.length sorted - 1)%nat.
Proof.
  induction sorted as [| previous rest IH]; [apply Nat.le_refl|].
  destruct rest as [| current rest]; [apply Nat.le_refl|].
  rewrite adjacentGaps_cons, length_app.
  cbn [List.length] in IH |- *. unfold number in *.
  destruct (strictEq _ _); cbn [List.length]; lia.
Qed.

Lemma adjacentGaps_differ (sorted : list OrderbookDelta.t) :
  Forall (fun gap => strictEq (snd gap) (fst gap) = false) (adjacentGaps sorted).
Proof.
  induction sorted as [| previous rest IH]; [constructor|].
  destruct rest as [| current rest]; [constructor|].
  rewrite adjacentGaps_cons. apply Forall_app. split; [|exact IH].
  destruct (strictEq (OrderbookDelta.sequence current)
              (OrderbookDelta.sequence previous + 1)%float) eqn:E;
    constructor; [exact E | constructor].
Qed.

(* ===================================================================== *)
(** * Responses of the client *)
(* ===================================================================== *)

Lemma orElse_nonempty (a : option string) (b : string) :
  b <> EmptyString -> orElse a b <> EmptyString.
Proof. destruct a as [[| c s] |]; cbn; auto; discriminate. Qed.

Lemma orElse_truthy (a : option string) (b text : string) :
  a = Some text -> text <> EmptyString -> orElse a b = text.
Proof. intros -> H. destruct text; [contradiction | reflexivity]. Qed.

Lemma orElse_falsy (a : option string) (b : string) :
  falsyString a -> orElse a b = b.
Proof. intros [-> | ->]; reflexivity. Qed.

(* ===================================================================== *)
(** * X1: the last delta at a price decides its level *)
(* ===================================================================== *)

(** X1: after any run of [applyDelta] calls on an instance, what a side
    holds at a price is decided by the last delta of the run for that side
    and price (prices compared as [Map] keys): nothing when its
    [size === 0], the level [{ price, size, orders: 1 }] of that delta
    otherwise; a price that no delta of the run is about holds what it held
    before.  For [reconstructFinal] on deltas with valid timestamps the run
    is the delta list sorted by sequence number, started from the
    checkpoint. *)
Theorem X1_last_delta_decides_the_level :
  (forall (this : R.t) (deltas : list OrderbookDelta.t) (s : Side) (k : number),
     reachable this ->
     mapGet k (bookOf s (stateAfter this deltas)) =
     match lastTouching s k deltas with
     | Some delta => levelOf delta
     | None => mapGet k (bookOf s this)
     end) /\
  (forall (checkpoint : OrderBook.t) (deltas : list OrderbookDelta.t)
          (depth : option number) (this : R.t) (s : Side) (k : number),
     Forall validTimestamp deltas ->
     mapGet k (bookOf s (fst (R.reconstructFinal checkpoint deltas depth this))) =
     match lastTouching s k (sort R.bySequence deltas) with
     | Some delta => levelOf delta
     | None => mapGet k (bookOf s (loaded checkpoint))
     end).
Proof.
  split.
  - intros this deltas s k Hr. apply stateAfter_get, Hr.
  - intros checkpoint deltas depth this s k Hv.
    rewrite (reconstructFinal_valid _ _ _ _ Hv). cbn [fst].
    apply stateAfter_get, reachable_loaded.
Qed.

(** X1, a concrete instance: of an insert, a removal and a second insert
    at the bid price 100, handed over out of order, the insert with the
    highest sequence number decides. *)
Lemma X1_last_delta_decides_the_level_witness :
  let checkpoint := OrderBook.mk "BTC" "2024-01-01T00:00:00.000Z"
    [PriceLevel.mk "100" "2" one] [PriceLevel.mk "101" "3" one] None None None in
  let deltas :=
    [OrderbookDelta.mk 1704067200003 bid 100 7 3;
     OrderbookDelta.mk 1704067200001 bid 100 5 one;
     OrderbookDelta.mk 1704067200002 bid 100 zero 2] in
  mapGet 100 (bookOf bid (fst (R.reconstructFinal checkpoint deltas None R.new))) =
  match lastTouching bid 100 (sort R.bySequence deltas) with
  | Some delta => levelOf delta
  | None => mapGet 100 (bookOf bid (loaded checkpoint))
  end.
Proof.
  intros checkpoint deltas.
  apply (proj2 X1_last_delta_decides_the_level).
  repeat constructor; unfold validTimestamp; vm_compute; discriminate.
Defined.

(* ===================================================================== *)
(** * X2: applying a delta twice *)
(* ===================================================================== *)

(** X2: [applyDelta] is idempotent.  On any instance, applying a delta a
    second time right after the first leaves the state the first call left
    and completes as the first call did. *)
Theorem X2_applyDelta_is_idempotent (delta : OrderbookDelta.t) (this : R.t) :
  reachable this ->
  R.applyDelta delta (fst (R.applyDelta delta this)) = R.applyDelta delta this.
Proof.
  intros Hr. apply reachable_wellFormed in Hr. destruct Hr as [[Hb _] [Ha _]].
  rewrite !applyDelta_eq. cbv zeta.
  destruct this as [bids asks coin ts q].
  cbn [R.bids R.asks] in Hb, Ha.
  destruct (newDate (OrderbookDelta.timestamp delta)) as [t |];
    destruct (OrderbookDelta.side delta);
    cbn [fst R.updBook];
    unfold R.setLastSequence, R.setLastTimestamp, R.updBids, R.updAsks;
    cbn [R.bids R.asks R.coin R.lastTimestamp R.lastSequence];
    rewrite levelChange_twice by assumption; reflexivity.
Qed.

(** X2, a concrete instance: a removal applied twice to a loaded book. *)
Lemma X2_applyDelta_is_idempotent_witness :
  let this := fst (R.initialize
    (OrderBook.mk "BTC" "2024-01-01T00:00:00.000Z"
       [PriceLevel.mk "100" "2" one] [PriceLevel.mk "101" "3" one] None None None)
    R.new) in
  let delta := OrderbookDelta.mk 1704067200000 bid 100 zero one in
  R.applyDelta delta (fst (R.applyDelta delta this)) = R.applyDelta delta this.
Proof.
  intros this delta. apply X2_applyDelta_is_idempotent.
  apply reachable_initialize, reachable_new.
Defined.

(* ===================================================================== *)
(** * X3: [applyDelta] on a timestamp that is no time value *)
(* ===================================================================== *)

(** X3: for a delta whose timestamp [new Date] does not accept,
    [applyDelta] throws a [RangeError] after it has changed the level: the
    side the delta selects holds the change, and the other side, the coin,
    the last timestamp and the last sequence number are what they were. *)
Theorem X3_applyDelta_invalid_timestamp (delta : OrderbookDelta.t) (this : R.t) :
  ~ validTimestamp delta ->
  exists this',
    R.applyDelta delta this = (this', Throw RangeError) /\
    bookOf (OrderbookDelta.side delta) this' =
      levelChange delta (bookOf (OrderbookDelta.side delta) this) /\
    bookOf (opposite (OrderbookDelta.side delta)) this' =
      bookOf (opposite (OrderbookDelta.side delta)) this /\
    R.coin this' = R.coin this /\
    R.lastTimestamp this' = R.lastTimestamp this /\
    R.lastSequence this' = R.lastSequence this.
Proof.
  intros Hv. eexists. split; [apply applyDelta_invalid, Hv|].
  destruct this, (OrderbookDelta.side delta); repeat split.
Qed.

(** X3, a concrete instance: a timestamp of [Infinity]. *)
Lemma X3_applyDelta_invalid_timestamp_witness :
  let delta := OrderbookDelta.mk infinity ask 101 4 9 in
  exists this',
    R.applyDelta delta R.new = (this', Throw RangeError) /\
    bookOf (OrderbookDelta.side delta) this' =
      levelChange delta (bookOf (OrderbookDelta.side delta) R.new) /\
    bookOf (opposite (OrderbookDelta.side delta)) this' =
      bookOf (opposite (OrderbookDelta.side delta)) R.new /\
    R.coin this' = R.coin R.new /\
    R.lastTimestamp this' = R.lastTimestamp R.new /\
    R.lastSequence this' = R.lastSequence R.new.
Proof.
  intros delta. apply X3_applyDelta_invalid_timestamp.
  unfold validTimestamp. vm_compute. intros H. apply H. reflexivity.
Defined.

(* ===================================================================== *)
(** * X4: a replay stops at the first invalid timestamp *)
(* ===================================================================== *)

(** X4: when some delta has a timestamp [new Date] does not accept,
    [reconstructAll] (whatever its options) and [reconstructFinal] throw a
    [RangeError] and return no snapshot.  They stop at the first such delta
    in sequence order: the instance is left with the deltas before it
    applied and the level change of that delta made. *)
Theorem X4_replay_stops_at_invalid_timestamp
    (checkpoint : OrderBook.t) (deltas : list OrderbookDelta.t)
    (options : ReconstructOptions.t) (depth : option number) (this : R.t) :
  Exists (fun delta => ~ validTimestamp delta) deltas ->
  exists good bad rest,
    sort R.bySequence deltas = good ++ bad :: rest /\
    Forall validTimestamp good /\ ~ validTimestamp bad /\
    R.reconstructAll checkpoint deltas options this =
      (R.updBook (OrderbookDelta.side bad) (levelChange bad)
         (stateAfter (loaded checkpoint) good), Throw RangeError) /\
    R.reconstructFinal checkpoint deltas depth this =
      (R.updBook (OrderbookDelta.side bad) (levelChange bad)
         (stateAfter (loaded checkpoint) good), Throw RangeError).
Proof.
  intros H.
  destruct (first_invalid _ (sort_invalid _ H)) as (good & bad & rest & E & Hg & Hb).
  exists good, bad, rest. split; [exact E|]. split; [exact Hg|]. split; [exact Hb|].
  apply (replay_abort checkpoint deltas good bad rest options depth this); assumption.
Qed.

(** X4, a concrete instance: the second delta in sequence order has a
    timestamp of [NaN]; both entry points throw. *)
Lemma X4_replay_stops_at_invalid_timestamp_witness :
  let checkpoint := OrderBook.mk "BTC" "2024-01-01T00:00:00.000Z"
    [PriceLevel.mk "100" "2" one] [] None None None in
  let deltas :=
    [OrderbookDelta.mk nan bid 99 one 2;
     OrderbookDelta.mk 1704067200001 bid 98 one one] in
  snd (R.reconstructAll checkpoint deltas ReconstructOptions.empty R.new) =
    Throw RangeError /\
  snd (R.reconstructFinal checkpoint deltas None R.new) = Throw RangeError.
Proof.
  intros checkpoint deltas.
  assert (Hx : Exists (fun delta => ~ validTimestamp delta) deltas).
  { apply Exists_cons_hd. unfold validTimestamp. vm_compute.
    intros H. apply H. reflexivity. }
  destruct (X4_replay_stops_at_invalid_timestamp checkpoint deltas
              ReconstructOptions.empty None R.new Hx)
    as (good & bad & rest & _ & _ & _ & E1 & E2).
  rewrite E1, E2. split; reflexivity.
Defined.

(* ===================================================================== *)
(** * X5: [emitAll: false] is [reconstructFinal] *)
(* ===================================================================== *)

(** X5: for every checkpoint, delta list and depth, [reconstructAll] with
    [emitAll: false] leaves the state [reconstructFinal] leaves, throws
    exactly when [reconstructFinal] throws, and otherwise returns the array
    whose one element is the snapshot [reconstructFinal] returns. *)
Theorem X5_emitAll_false_is_reconstructFinal (checkpoint : OrderBook.t)
    (deltas : list OrderbookDelta.t) (depth : option number) (this : R.t) :
  R.reconstructAll checkpoint deltas (ReconstructOptions.mk depth (Some false)) this =
    (fst (R.reconstructFinal checkpoint deltas depth this),
     singleton (snd (R.reconstructFinal checkpoint deltas depth this))) /\
  (forall snapshots,
     snd (R.reconstructAll checkpoint deltas
            (ReconstructOptions.mk depth (Some false)) this) = Normal snapshots ->
     exists final,
       snapshots = [final] /\
       snd (R.reconstructFinal checkpoint deltas depth this) = Normal final).
Proof.
  split; [apply reconstructAll_silent|].
  intros snapshots. rewrite reconstructAll_silent. cbn [snd].
  destruct (snd (R.reconstructFinal checkpoint deltas depth this)) as [final | e];
    [|discriminate].
  intros H. injection H as <-. exists final. split; reflexivity.
Qed.

(* ===================================================================== *)
(** * X6: the headers of the snapshots of [reconstructAll] *)
(* ===================================================================== *)

(** X6: on deltas with valid timestamps and with [emitAll] not [false],
    the first snapshot [reconstructAll] returns carries the coin and the
    timestamp of the checkpoint and the sequence number 0, and the snapshot
    after the k-th delta in sequence order carries the coin of the
    checkpoint, the ISO string of that delta's timestamp and that delta's
    sequence number. *)
Theorem X6_snapshot_headers (checkpoint : OrderBook.t) (deltas : list OrderbookDelta.t)
    (options : ReconstructOptions.t) (this : R.t) :
  Forall validTimestamp deltas ->
  ReconstructOptions.emitAll options <> Some false ->
  exists first rest,
    snd (R.reconstructAll checkpoint deltas options this) = Normal (first :: rest) /\
    OrderBook.coin first = OrderBook.coin checkpoint /\
    OrderBook.timestamp first = OrderBook.timestamp checkpoint /\
    ReconstructedOrderBook.sequence first = Some zero /\
    Forall2 (stampedBy (OrderBook.coin checkpoint)) (sort R.bySequence deltas) rest.
Proof.
  intros Hv He. rewrite (reconstructAll_emit _ _ _ _ Hv He).
  eexists _, _. split; [reflexivity|].
  split; [reflexivity|]. split; [reflexivity|]. split; [reflexivity|].
  apply (snapshotsAlong_headers _ _ (sort_valid _ Hv) (loaded checkpoint)).
Qed.

(** X6, a concrete instance: two deltas handed over out of order. *)
Lemma X6_snapshot_headers_witness :
  let checkpoint := OrderBook.mk "BTC" "2024-01-01T00:00:00.000Z"
    [PriceLevel.mk "100" "2" one] [PriceLevel.mk "101" "3" one] None None None in
  let deltas :=
    [OrderbookDelta.mk 1704067200002 ask 102 5 2;
     OrderbookDelta.mk 1704067200001 bid 100 zero one] in
  exists first rest,
    snd (R.reconstructAll checkpoint deltas ReconstructOptions.empty R.new) =
      Normal (first :: rest) /\
    OrderBook.coin first = OrderBook.coin checkpoint /\
    OrderBook.timestamp first = OrderBook.timestamp checkpoint /\
    ReconstructedOrderBook.sequence first = Some zero /\
    Forall2 (stampedBy (OrderBook.coin checkpoint)) (sort R.bySequence deltas) rest.
Proof.
  intros checkpoint deltas. apply X6_snapshot_headers.
  - repeat constructor; unfold validTimestamp; vm_compute; discriminate.
  - discriminate.
Defined.

(* ===================================================================== *)
(** * X7: the header of the final snapshot *)
(* ===================================================================== *)

(** X7: on deltas with valid timestamps [reconstructFinal] returns a
    snapshot with the coin of the checkpoint.  Without deltas it carries
    the timestamp of the checkpoint and the sequence number 0.  With deltas
    it carries the ISO timestamp and the sequence number of one of them,
    and when no sequence number is [NaN] that sequence number is the
    greatest of the list. *)
Theorem X7_final_snapshot_header (checkpoint : OrderBook.t)
    (deltas : list OrderbookDelta.t) (depth : option number) (this : R.t) :
  Forall validTimestamp deltas ->
  exists snapshot,
    snd (R.reconstructFinal checkpoint deltas depth this) = Normal snapshot /\
    OrderBook.coin snapshot = OrderBook.coin checkpoint /\
    (deltas = [] ->
       OrderBook.timestamp snapshot = OrderBook.timestamp checkpoint /\
       ReconstructedOrderBook.sequence snapshot = Some zero) /\
    (deltas <> [] ->
       exists delta,
         In delta deltas /\ stampedBy (OrderBook.coin checkpoint) delta snapshot /\
         (Forall (fun d => is_nan (OrderbookDelta.sequence d) = false) deltas ->
          Forall (fun d => (OrderbookDelta.sequence d <=?
                            OrderbookDelta.sequence delta)%float = true) deltas)).
Proof.
  intros Hv. rewrite (reconstructFinal_valid _ _ _ _ Hv). cbn [snd].
  eexists. split; [reflexivity|].
  pose proof (sort_valid _ Hv) as Hs.
  pose proof (sort_perm R.bySequence deltas) as Hp.
  destruct (last_cases (sort R.bySequence deltas)) as [Es | (front & final & Es)];
    rewrite Es in *.
  - apply Permutation_nil in Hp. subst deltas.
    split; [reflexivity|]. split; [intros _; split; reflexivity | congruence].
  - rewrite Forall_app in Hs. destruct Hs as [Hf Hl]. inversion Hl as [| ? ? Hd _]; subst.
    rewrite stateAfter_app. cbn [stateAfter fold_left].
    change (fold_left (fun st d => fst (R.applyDelta d st)) front (loaded checkpoint))
      with (stateAfter (loaded checkpoint) front).
    set (st := stateAfter (loaded checkpoint) front).
    destruct (applyDelta_header final st Hd) as (Hc & Ht & Hq).
    assert (Hcoin : R.coin st = OrderBook.coin checkpoint).
    { subst st. rewrite stateAfter_coin. reflexivity. }
    split; [cbn; congruence|].
    split.
    + intros ->. apply Permutation_sym, Permutation_nil in Hp.
      destruct front; discriminate.
    + intros _. exists final. split.
      * apply (Permutation_in _ Hp), in_or_app. right. left. reflexivity.
      * split.
        -- unfold stampedBy, R.snapshotOf. cbn. rewrite Hc, Hq, Hcoin. auto.
        -- intros Hn. pose proof (sort_ascending _ Hn) as Ha. rewrite Es in Ha.
           rewrite map_app in Ha. cbn [map] in Ha.
           apply StronglySorted_last in Ha.
           assert (Hall : Forall (fun d => (OrderbookDelta.sequence d <=?
                             OrderbookDelta.sequence final)%float = true)
                            (front ++ [final])).
           { rewrite Forall_app. split.
             - rewrite Forall_map in Ha. exact Ha.
             - constructor; [|constructor]. apply number_leb_refl.
               rewrite Forall_forall in Hn. apply Hn.
               apply (Permutation_in _ Hp), in_or_app. right. left. reflexivity. }
           rewrite Forall_forall in Hall |- *. intros d Hin.
           apply Hall. apply (Permutation_in _ (Permutation_sym Hp)), Hin.
Qed.

(** X7, a concrete instance: three deltas handed over out of order. *)
Lemma X7_final_snapshot_header_witness :
  let checkpoint := OrderBook.mk "BTC" "2024-01-01T00:00:00.000Z"
    [PriceLevel.mk "100" "2" one] [PriceLevel.mk "101" "3" one] None None None in
  let deltas :=
    [OrderbookDelta.mk 1704067200003 ask 102 5 3;
     OrderbookDelta.mk 1704067200001 bid 100 zero one;
     OrderbookDelta.mk 1704067200002 bid 100 4 2] in
  exists snapshot,
    snd (R.reconstructFinal checkpoint deltas None R.new) = Normal snapshot /\
    OrderBook.coin snapshot = "BTC"%string /\
    OrderBook.timestamp snapshot = "2024-01-01T00:00:00.003Z"%string /\
    ReconstructedOrderBook.sequence snapshot = Some 3%float.
Proof.
  intros checkpoint deltas.
  assert (Hv : Forall validTimestamp deltas).
  { repeat constructor; unfold validTimestamp; vm_compute; discriminate. }
  destruct (X7_final_snapshot_header checkpoint deltas None R.new Hv)
    as (snapshot & E & _).
  exists snapshot. split; [exact E|].
  vm_compute in E. injection E as <-. repeat split.
Defined.

(* ===================================================================== *)
(** * X8: deltas with the same sequence number *)
(* ===================================================================== *)


(* ===================================================================== *)
(** * X9: [iterate] is lazy *)
(* ===================================================================== *)

(** X9: a consumer that takes [k + 1] snapshots from [iterate] gets the
    snapshot of the checkpoint and the snapshots after each of the first
    [k] deltas in sequence order, and leaves the instance with exactly
    these [k] deltas applied, provided that their timestamps are valid: the
    deltas behind them are not looked at, so an invalid timestamp among
    them does no harm. *)
Theorem X9_iterate_is_lazy (checkpoint : OrderBook.t) (deltas : list OrderbookDelta.t)
    (options : ReconstructOptions.t) (k : nat) (this : R.t) :
  Forall validTimestamp (firstn k (sort R.bySequence deltas)) ->
  exists g',
    pull (S k) (R.iterate checkpoint deltas options) [] this =
    (stateAfter (loaded checkpoint) (firstn k (sort R.bySequence deltas)),
     Normal (g', R.snapshotOf (ReconstructOptions.depth options) (loaded checkpoint) ::
                 snapshotsAlong (ReconstructOptions.depth options) (loaded checkpoint)
                   (firstn k (sort R.bySequence deltas)))).
Proof.
  intros Hv. unfold R.iterate.
  cbn [pull R.next]. rewrite bind_assoc. repeat run_step.
  set (depth := ReconstructOptions.depth options).
  destruct k as [| k].
  - exists (R.SuspendedInitial deltas depth). reflexivity.
  - cbn [pull R.next].
    change (R.bind (R.resumeLoop (sort R.bySequence deltas) depth) ?f)
      with (pull (S k) (R.SuspendedLoop (sort R.bySequence deltas) depth)
              (R.push [] (R.snapshotOf depth (loaded checkpoint)))).
    destruct (pull_loop depth (S k) (sort R.bySequence deltas) (loaded checkpoint)
                (R.push [] (R.snapshotOf depth (loaded checkpoint))) Hv) as [g' E].
    exists g'. rewrite E. reflexivity.
Qed.

(** X9, a concrete instance: two snapshots are taken although the delta
    with the highest sequence number has a timestamp of [NaN]. *)
Lemma X9_iterate_is_lazy_witness :
  let checkpoint := OrderBook.mk "BTC" "2024-01-01T00:00:00.000Z"
    [PriceLevel.mk "100" "2" one] [PriceLevel.mk "101" "3" one] None None None in
  let deltas :=
    [OrderbookDelta.mk nan ask 102 5 2;
     OrderbookDelta.mk 1704067200001 bid 100 zero one] in
  exists g',
    pull 2 (R.iterate checkpoint deltas ReconstructOptions.empty) [] R.new =
    (stateAfter (loaded checkpoint) (firstn 1 (sort R.bySequence deltas)),
     Normal (g', R.snapshotOf None (loaded checkpoint) ::
                 snapshotsAlong None (loaded checkpoint)
                   (firstn 1 (sort R.bySequence deltas)))).
Proof.
  intros checkpoint deltas.
  apply (X9_iterate_is_lazy checkpoint deltas ReconstructOptions.empty 1 R.new).
  assert (E : firstn 1 (sort R.bySequence deltas) =
              [OrderbookDelta.mk 1704067200001 bid 100 zero one])
    by (vm_compute; reflexivity).
  rewrite E. repeat constructor; unfold validTimestamp; vm_compute; discriminate.
Defined.

(* ===================================================================== *)
(** * X10: depths that are not an integer from 1 on *)
(* ===================================================================== *)

(** X10: [getSnapshot(depth)] tests the depth for truthiness and hands it
    to [slice].  So with a depth of 0 or [NaN], and with [Infinity], the
    snapshot is the one without a depth; with a depth strictly between 0
    and 1 both sides are empty; and with a depth whose integer part is
    [k < 0] each side loses its last [-k] levels, the worst ones. *)
Theorem X10_depth_edge_cases (this : R.t) (depth : number) :
  let full := R.snapshotOf None this in
  let cut := R.snapshotOf (Some depth) this in
  (truthy depth = false -> cut = full) /\
  (toIntegerOrInfinity depth = PosInf -> cut = full) /\
  ((zero <? depth)%float = true -> (depth <? one)%float = true ->
     OrderBook.bids cut = [] /\ OrderBook.asks cut = []) /\
  (forall k, toIntegerOrInfinity depth = Int k -> k < 0 ->
     OrderBook.bids cut =
       firstn (List.length (OrderBook.bids full) - Z.to_nat (- k)) (OrderBook.bids full) /\
     OrderBook.asks cut =
       firstn (List.length (OrderBook.asks full) - Z.to_nat (- k)) (OrderBook.asks full)).
Proof.
  cbv zeta. unfold R.snapshotOf.
  cbn [OrderBook.bids OrderBook.asks ReconstructedOrderBook.book].
  split; [|split; [|split]].
  - intros H. rewrite !(limit_falsy _ _ H). reflexivity.
  - intros H. rewrite !(limit_infinite _ _ H). reflexivity.
  - intros H0 H1. rewrite !(limit_fraction _ _ H0 H1). split; reflexivity.
  - intros k H Hk. rewrite !(limit_negative _ _ _ H Hk).
    cbn [R.limit]. rewrite !firstn_map, !length_map. split; reflexivity.
Qed.

(* ===================================================================== *)
(** * X11: the best prices *)
(* ===================================================================== *)

(** X11: on an instance without [NaN] prices, the best bid [getSnapshot]
    computes the metrics from is the price of a resident bid level and no
    resident bid has a higher price; the best ask is the price of a
    resident ask level and no resident ask has a lower price. *)
Theorem X11_best_prices (this : R.t) :
  reachable this -> noNaNPrices this ->
  (forall b, bestBid this = Some b ->
     (exists level, In level (mapValues (R.bids this)) /\ InternalLevel.price level = b) /\
     Forall (fun level => (InternalLevel.price level <=? b)%float = true)
       (mapValues (R.bids this))) /\
  (forall a, bestAsk this = Some a ->
     (exists level, In level (mapValues (R.asks this)) /\ InternalLevel.price level = a) /\
     Forall (fun level => (a <=? InternalLevel.price level)%float = true)
       (mapValues (R.asks this))).
Proof.
  intros Hr [Nb Na]. destruct (reachable_wellFormed _ Hr) as [Wb Wa].
  split.
  - intros b. unfold bestBid.
    pose proof (sortedBids_descending _ Wb Nb) as Hs.
    pose proof (fun x => sort_In R.byPriceDesc x (mapValues (R.bids this))) as Hin.
    destruct (sort R.byPriceDesc (mapValues (R.bids this))) as [| top rest];
      [discriminate|].
    cbn [head option_map]. intros E. injection E as <-.
    split; [exists top; split; [apply Hin; left|]; reflexivity|].
    rewrite Forall_forall. intros level Hl. apply Hin in Hl.
    cbn [map] in Hs. inversion Hs as [| ? ? _ Hf]; subst.
    destruct Hl as [<- | Hl].
    + apply number_leb_refl. unfold noNaNBook in Nb. rewrite Forall_forall in Nb.
      apply Nb, Hin. left. reflexivity.
    + rewrite Forall_map, Forall_forall in Hf. apply number_ltb_leb, Hf, Hl.
  - intros a. unfold bestAsk.
    pose proof (sortedAsks_ascending _ Wa Na) as Hs.
    pose proof (fun x => sort_In R.byPriceAsc x (mapValues (R.asks this))) as Hin.
    destruct (sort R.byPriceAsc (mapValues (R.asks this))) as [| top rest];
      [discriminate|].
    cbn [head option_map]. intros E. injection E as <-.
    split; [exists top; split; [apply Hin; left|]; reflexivity|].
    rewrite Forall_forall. intros level Hl. apply Hin in Hl.
    cbn [map] in Hs. inversion Hs as [| ? ? _ Hf]; subst.
    destruct Hl as [<- | Hl].
    + apply number_leb_refl. unfold noNaNBook in Na. rewrite Forall_forall in Na.
      apply Na, Hin. left. reflexivity.
    + rewrite Forall_map, Forall_forall in Hf. apply number_ltb_leb, Hf, Hl.
Qed.

(** X11, a concrete instance: of the bids 99, 100 and 98 the best is 100,
    and of the asks 103 and 101 the best is 101. *)
Lemma X11_best_prices_witness :
  let this := fst (R.initialize
    (OrderBook.mk "BTC" "2024-01-01T00:00:00.000Z"
       [PriceLevel.mk "99" "2" one; PriceLevel.mk "100" "1" one; PriceLevel.mk "98" "1" one]
       [PriceLevel.mk "103" "3" one; PriceLevel.mk "101" "3" one] None None None)
    R.new) in
  bestBid this = Some 100%float /\ bestAsk this = Some 101%float /\
  Forall (fun level => (InternalLevel.price level <=? 100)%float = true)
    (mapValues (R.bids this)) /\
  Forall (fun level => (101 <=? InternalLevel.price level)%float = true)
    (mapValues (R.asks this)).
Proof.
  intros this.
  assert (Hr : reachable this) by apply reachable_initialize, reachable_new.
  assert (Hn : noNaNPrices this) by (split; repeat constructor).
  destruct (X11_best_prices this Hr Hn) as [Hb Ha].
  assert (Eb : bestBid this = Some 100%float) by (vm_compute; reflexivity).
  assert (Ea : bestAsk this = Some 101%float) by (vm_compute; reflexivity).
  split; [exact Eb|]. split; [exact Ea|].
  split; [apply (Hb _ Eb) | apply (Ha _ Ea)].
Defined.

(* ===================================================================== *)
(** * X12: a snapshot depends on the content of the maps only *)
(* ===================================================================== *)

(** X12: [getSnapshot] does not depend on the order in which the levels
    were inserted into the maps.  Two instances without [NaN] prices that
    hold the same level under every price on both sides, and have the same
    coin, last timestamp and last sequence number, return the same snapshot
    for every depth. *)
Theorem X12_snapshot_depends_on_content (depth : option number) (this1 this2 : R.t) :
  reachable this1 -> reachable this2 -> noNaNPrices this1 ->
  sameContent this1 this2 ->
  snd (R.getSnapshot depth this1) = snd (R.getSnapshot depth this2).
Proof.
  intros H1 H2 Hn Hs. rewrite !getSnapshot_eq. cbn [snd]. f_equal.
  apply sameContent_snapshot; auto using reachable_wellFormed.
Qed.

(** X12, a concrete instance: the bids 100 and 99 inserted in the two
    orders. *)
Lemma X12_snapshot_depends_on_content_witness :
  let d1 := OrderbookDelta.mk 1704067200000 bid 100 2 one in
  let d2 := OrderbookDelta.mk 1704067200000 bid 99 3 one in
  let this1 := fst (R.applyDelta d2 (fst (R.applyDelta d1 R.new))) in
  let this2 := fst (R.applyDelta d1 (fst (R.applyDelta d2 R.new))) in
  R.bids this1 <> R.bids this2 /\
  snd (R.getSnapshot None this1) = snd (R.getSnapshot None this2).
Proof.
  intros d1 d2 this1 this2. split; [vm_compute; discriminate|].
  apply X12_snapshot_depends_on_content.
  - apply reachable_applyDelta, reachable_applyDelta, reachable_new.
  - apply reachable_applyDelta, reachable_applyDelta, reachable_new.
  - split; repeat constructor.
  - assert (E1 : R.bids this1 =
                 [(100%float, InternalLevel.mk 100 2 one);
                  (99%float, InternalLevel.mk 99 3 one)]) by (vm_compute; reflexivity).
    assert (E2 : R.bids this2 =
                 [(99%float, InternalLevel.mk 99 3 one);
                  (100%float, InternalLevel.mk 100 2 one)]) by (vm_compute; reflexivity).
    split; [|split; [|repeat split]].
    + intros k. rewrite E1, E2. cbn [mapGet].
      destruct (sameValueZero 100 k) eqn:H1, (sameValueZero 99 k) eqn:H2;
        try reflexivity.
      apply sameValueZero_spec in H1, H2. exfalso.
      assert (H : mapKey 100 = mapKey 99) by congruence.
      vm_compute in H. discriminate.
    + intros k. vm_compute. reflexivity.
Defined.

(* ===================================================================== *)
(** * X13: the order of the levels in the checkpoint *)
(* ===================================================================== *)

(** X13: when the prices of a checkpoint all parse to numbers and no price
    comes twice on a side, the order in which the checkpoint lists its
    levels does not matter: for deltas whose prices are not [NaN],
    [reconstructAll] and [reconstructFinal] return the same, or throw the
    same, for a checkpoint with the same coin and timestamp that lists the
    same levels in another order. *)
Theorem X13_checkpoint_order_is_irrelevant
    (checkpoint checkpoint' : OrderBook.t) (deltas : list OrderbookDelta.t)
    (options : ReconstructOptions.t) (depth : option number) (this this' : R.t) :
  OrderBook.coin checkpoint = OrderBook.coin checkpoint' ->
  OrderBook.timestamp checkpoint = OrderBook.timestamp checkpoint' ->
  Permutation (OrderBook.bids checkpoint) (OrderBook.bids checkpoint') ->
  Permutation (OrderBook.asks checkpoint) (OrderBook.asks checkpoint') ->
  pricesParse checkpoint ->
  distinctPrices (OrderBook.bids checkpoint) ->
  distinctPrices (OrderBook.asks checkpoint) ->
  Forall (fun delta => is_nan (OrderbookDelta.price delta) = false) deltas ->
  snd (R.reconstructAll checkpoint deltas options this) =
    snd (R.reconstructAll checkpoint' deltas options this') /\
  snd (R.reconstructFinal checkpoint deltas depth this) =
    snd (R.reconstructFinal checkpoint' deltas depth this').
Proof.
  intros Ec Et Pb Pa Hp Db Da Hn.
  pose proof (alike_loaded _ _ Ec Et Pb Pa Hp Db Da) as Ha.
  assert (Hs : Forall (fun delta => is_nan (OrderbookDelta.price delta) = false)
                 (sort R.bySequence deltas)).
  { eapply Permutation_Forall; [apply Permutation_sym, sort_perm | exact Hn]. }
  split.
  - unfold R.reconstructAll. cbv zeta. rewrite !bind_initialize.
    set (emitAll := match ReconstructOptions.emitAll options with
                    | Some b => b | None => true end).
    set (d := ReconstructOptions.depth options).
    assert (G : forall snapshots,
      snd (R.bind (R.replayAll d emitAll (sort R.bySequence deltas) snapshots)
             (fun out => if negb emitAll
                         then R.bind (R.getSnapshot d) (fun s => R.ret (R.push out s))
                         else R.ret out) (loaded checkpoint)) =
      snd (R.bind (R.replayAll d emitAll (sort R.bySequence deltas) snapshots)
             (fun out => if negb emitAll
                         then R.bind (R.getSnapshot d) (fun s => R.ret (R.push out s))
                         else R.ret out) (loaded checkpoint'))).
    { intros snapshots.
      destruct (alike_replayAll d emitAll _ Hs _ _ snapshots Ha) as [E1 E2].
      unfold R.bind at 1 3.
      destruct (R.replayAll d emitAll (sort R.bySequence deltas) snapshots
                  (loaded checkpoint)) as [st1 c1].
      destruct (R.replayAll d emitAll (sort R.bySequence deltas) snapshots
                  (loaded checkpoint')) as [st2 c2].
      cbn [fst snd] in E1, E2. subst c2.
      destruct c1 as [out | e]; [|reflexivity].
      specialize (E2 out eq_refl).
      destruct (negb emitAll); [|reflexivity].
      rewrite !bind_getSnapshot, (alike_snapshot d _ _ E2). reflexivity. }
    destruct emitAll.
    + rewrite !bind_assoc, !bind_getSnapshot, !bind_ret.
      rewrite (alike_snapshot d _ _ Ha). apply G.
    + rewrite !bind_ret. apply G.
  - unfold R.reconstructFinal. rewrite !bind_initialize. cbv zeta.
    destruct (alike_forOf _ Hs _ _ Ha) as [E1 E2].
    unfold R.bind.
    destruct (R.forOf (sort R.bySequence deltas) R.applyDelta (loaded checkpoint))
      as [st1 c1].
    destruct (R.forOf (sort R.bySequence deltas) R.applyDelta (loaded checkpoint'))
      as [st2 c2].
    cbn [fst snd] in E1, E2. subst c2.
    destruct c1 as [[] | e]; [|reflexivity].
    rewrite !getSnapshot_eq. cbn [snd]. f_equal.
    apply alike_snapshot, E2. reflexivity.
Qed.

(** X13, a concrete instance: a checkpoint and the checkpoint with its two
    bids swapped. *)
Lemma X13_checkpoint_order_is_irrelevant_witness :
  let b1 := PriceLevel.mk "100" "2" one in
  let b2 := PriceLevel.mk "99.5" "1" one in
  let a1 := PriceLevel.mk "101" "3" one in
  let checkpoint := OrderBook.mk "BTC" "2024-01-01T00:00:00.000Z"
    [b1; b2] [a1] None None None in
  let checkpoint' := OrderBook.mk "BTC" "2024-01-01T00:00:00.000Z"
    [b2; b1] [a1] None None None in
  let deltas := [OrderbookDelta.mk 1704067200001 bid 100 zero one] in
  snd (R.reconstructAll checkpoint deltas ReconstructOptions.empty R.new) =
    snd (R.reconstructAll checkpoint' deltas ReconstructOptions.empty R.new) /\
  snd (R.reconstructFinal checkpoint deltas None R.new) =
    snd (R.reconstructFinal checkpoint' deltas None R.new).
Proof.
  intros b1 b2 a1 checkpoint checkpoint' deltas.
  apply X13_checkpoint_order_is_irrelevant.
  - reflexivity.
  - reflexivity.
  - apply perm_swap.
  - apply Permutation_refl.
  - repeat constructor.
  - unfold distinctPrices. vm_compute.
    repeat constructor; simpl; intuition discriminate.
  - unfold distinctPrices. vm_compute.
    repeat constructor; simpl; intuition discriminate.
  - repeat constructor.
Defined.

(* ===================================================================== *)
(** * X14: an empty gap report *)
(* ===================================================================== *)

(** X14: the report of [detectGaps] is exact.  It is empty exactly when
    every adjacent pair of the list sorted by sequence number is one step
    apart; it never has more entries than there are adjacent pairs; and in
    every entry the actual sequence number differs from the expected
    one. *)
Theorem X14_detectGaps_is_exact (deltas : list OrderbookDelta.t) :
  (R.detectGaps deltas = Normal [] <-> contiguous (sort R.bySequence deltas)) /\
  (exists gaps,
     R.detectGaps deltas = Normal gaps /\
     (List.length gaps <= List.length deltas - 1)%nat /\
     Forall (fun gap => strictEq (snd gap) (fst gap) = false) gaps).
Proof.
  rewrite detectGaps_spec. split.
  - split.
    + intros H. injection H as H. apply adjacentGaps_nil, H.
    + intros H. rewrite (adjacentGaps_contiguous _ H). reflexivity.
  - eexists. split; [reflexivity|]. split.
    + rewrite <- (sort_length R.bySequence deltas). apply adjacentGaps_length.
    + apply adjacentGaps_differ.
Qed.

(* ===================================================================== *)
(** * X15: the gap report and the order of the input *)
(* ===================================================================== *)

(** X15: for a delta list whose sequence numbers are pairwise distinct,
    [detectGaps] reports the same gaps for every permutation of the
    list. *)
Theorem X15_detectGaps_ignores_input_order (deltas deltas' : list OrderbookDelta.t) :
  Permutation deltas deltas' -> distinctSequences deltas ->
  R.detectGaps deltas = R.detectGaps deltas'.
Proof.
  intros Hp Hd. rewrite !detectGaps_spec.
  destruct (sort_bySequence _ _ Hp Hd) as [E _]. rewrite E. reflexivity.
Qed.

(** X15, a concrete instance: the sequence numbers 1, 4, 2 in two
    orders have the one gap (3, 4). *)
Lemma X15_detectGaps_ignores_input_order_witness :
  let delta := fun q => OrderbookDelta.mk 1704067200000 bid 100 one q in
  R.detectGaps [delta 4%float; delta 1%float; delta 2%float] =
    R.detectGaps [delta 2%float; delta 4%float; delta 1%float] /\
  R.detectGaps [delta 4%float; delta 1%float; delta 2%float] =
    Normal [(3, 4)%float].
Proof.
  intros delta. split; [|vm_compute; reflexivity].
  apply X15_detectGaps_ignores_input_order.
  - apply Permutation_sym.
    apply (Permutation_cons_app [delta 4%float; delta 1%float] [] (delta 2%float)).
    apply Permutation_refl.
  - unfold distinctSequences. repeat constructor; vm_compute; tauto.
Defined.

(* ===================================================================== *)
(** * X16: the convenience functions *)
(* ===================================================================== *)

(** X16: [reconstructOrderBook] and the function [reconstructFinal] return
    (or throw) what the methods [reconstructAll] and [reconstructFinal]
    return on any instance, whatever its state.  With [emitAll: false]
    [reconstructOrderBook] returns the one snapshot of [reconstructFinal];
    and on deltas with valid timestamps the last of the [1 + deltaCount]
    snapshots of [reconstructOrderBook] is the snapshot of
    [reconstructFinal]. *)
Theorem X16_convenience_functions (tickData : TickData.t)
    (options : ReconstructOptions.t) (depth : option number) (this : R.t) :
  let checkpoint := TickData.checkpoint tickData in
  let deltas := TickData.deltas tickData in
  reconstructOrderBook tickData options =
    snd (R.reconstructAll checkpoint deltas options this) /\
  reconstructFinal tickData depth =
    snd (R.reconstructFinal checkpoint deltas depth this) /\
  reconstructOrderBook tickData (ReconstructOptions.mk depth (Some false)) =
    singleton (reconstructFinal tickData depth) /\
  (Forall validTimestamp deltas ->
   exists front final,
     reconstructOrderBook tickData (ReconstructOptions.mk depth None) =
       Normal (front ++ [final]) /\
     List.length front = List.length deltas /\
     reconstructFinal tickData depth = Normal final).
Proof.
  cbv zeta. unfold reconstructOrderBook, reconstructFinal.
  split; [|split; [|split]].
  - unfold R.reconstructAll. cbv zeta. rewrite !bind_initialize. reflexivity.
  - unfold R.reconstructFinal. rewrite !bind_initialize. reflexivity.
  - rewrite reconstructAll_silent. reflexivity.
  - intros Hv.
    rewrite (reconstructAll_emit _ _ (ReconstructOptions.mk depth None) R.new Hv)
      by discriminate.
    rewrite (reconstructFinal_valid _ _ depth R.new Hv).
    cbn [snd ReconstructOptions.depth].
    destruct (snapshotsAlong_final depth (sort R.bySequence (TickData.deltas tickData))
                (loaded (TickData.checkpoint tickData))) as [front E].
    exists front. eexists. split; [rewrite E; reflexivity|]. split; [|reflexivity].
    apply (f_equal (@List.length _)) in E.
    cbn [List.length] in E. rewrite length_app, snapshotsAlong_length, sort_length in E.
    cbn [List.length] in E. lia.
Qed.

(* ===================================================================== *)
(** * X17: [historyTick] *)
(* ===================================================================== *)

(** X17: [historyTick] asks the client for the history of the coin with
    the granularity ['tick'].  It resolves exactly when the response holds
    a checkpoint and a delta list (an empty list counts), and then with
    these two.  A rejection of the client is passed on.  A response without
    a checkpoint or without deltas rejects with an [Error] whose message is
    never empty: the [error] of the response when it is a non-empty string,
    else its [message] when that is one, else the text about the
    Enterprise tier.  It never rejects with an exception of the
    reconstructor. *)
Theorem X17_historyTick (reason : Type) (toUpperCase : string -> string)
    (this : OrderBookResource.t reason) (coin : string) (params : TickHistoryParams.t) :
  let outcome :=
    OrderBookResource.http this (OrderBookResource.tickPath toUpperCase this coin)
      (OrderBookResource.tickQuery params) in
  TickQuery.granularity (OrderBookResource.tickQuery params) = "tick"%string /\
  (forall tickData,
     OrderBookResource.historyTick toUpperCase this coin params = Resolved tickData <->
     exists response,
       outcome = Resolved response /\
       TickResponse.checkpoint response = Some (TickData.checkpoint tickData) /\
       TickResponse.deltas response = Some (TickData.deltas tickData)) /\
  (forall r,
     outcome = Rejected r ->
     OrderBookResource.historyTick toUpperCase this coin params =
       Rejected (OrderBookResource.FromHttp r)) /\
  (forall response,
     outcome = Resolved response ->
     TickResponse.checkpoint response = None \/ TickResponse.deltas response = None ->
     exists message,
       OrderBookResource.historyTick toUpperCase this coin params =
         Rejected (OrderBookResource.Error message) /\
       message <> EmptyString /\
       (forall text, TickResponse.error response = Some text ->
          text <> EmptyString -> message = text) /\
       (forall text, falsyString (TickResponse.error response) ->
          TickResponse.message response = Some text ->
          text <> EmptyString -> message = text) /\
       (falsyString (TickResponse.error response) ->
        falsyString (TickResponse.message response) ->
        message = OrderBookResource.tierMessage)) /\
  (forall e,
     OrderBookResource.historyTick toUpperCase this coin params <>
       Rejected (OrderBookResource.Thrown e)).
Proof.
  cbv zeta. unfold OrderBookResource.historyTick.
  split; [reflexivity|].
  destruct (OrderBookResource.http this _ _) as [response | r].
  - split; [|split; [discriminate|split]].
    + intros [checkpoint deltas]. cbn [TickData.checkpoint TickData.deltas]. split.
      * destruct (TickResponse.checkpoint response) as [cp |] eqn:Ec;
          [destruct (TickResponse.deltas response) as [ds |] eqn:Ed|]; try discriminate.
        intros H. injection H as <- <-. exists response. repeat split; assumption.
      * intros (response' & E & Hc & Hd). injection E as <-. rewrite Hc, Hd. reflexivity.
    + intros response' E Hmiss. injection E as <-.
      exists (orElse (TickResponse.error response)
                (orElse (TickResponse.message response) OrderBookResource.tierMessage)).
      split.
      { destruct Hmiss as [-> | ->]; [reflexivity|].
        destruct (TickResponse.checkpoint response); reflexivity. }
      split; [apply orElse_nonempty, orElse_nonempty; discriminate|].
      split; [intros text He Ht; apply (orElse_truthy _ _ _ He Ht)|].
      split.
      * intros text He Hm Ht. rewrite (orElse_falsy _ _ He).
        apply (orElse_truthy _ _ _ Hm Ht).
      * intros He Hm. rewrite (orElse_falsy _ _ He). apply (orElse_falsy _ _ Hm).
    + intros e.
      destruct (TickResponse.checkpoint response);
        [destruct (TickResponse.deltas response)|]; discriminate.
  - split; [|split; [|split; [discriminate|discriminate]]].
    + intros tickData. split; [discriminate|]. intros (response & E & _). discriminate.
    + intros r' E. injection E as <-. reflexivity.
Qed.

(* ===================================================================== *)
(** * X18: [historyReconstructed] *)
(* ===================================================================== *)

(** X18: when the client answers with a checkpoint and a delta list,
    [historyReconstructed] replays them on a fresh instance.  With valid
    timestamps it resolves with the snapshot of the checkpoint followed by
    one snapshot per delta in sequence order, or with the one final
    snapshot when [emitAll] is [false]; when some timestamp is not valid
    the promise rejects with the [RangeError] of [applyDelta] and no
    snapshot is delivered. *)
Theorem X18_historyReconstructed (reason : Type) (toUpperCase : string -> string)
    (this : OrderBookResource.t reason) (coin : string)
    (params : TickHistoryParams.t) (options : ReconstructOptions.t)
    (response : TickResponse.t) (checkpoint : OrderBook.t)
    (deltas : list OrderbookDelta.t) :
  OrderBookResource.http this (OrderBookResource.tickPath toUpperCase this coin)
    (OrderBookResource.tickQuery params) = Resolved response ->
  TickResponse.checkpoint response = Some checkpoint ->
  TickResponse.deltas response = Some deltas ->
  let depth := ReconstructOptions.depth options in
  let start := loaded checkpoint in
  let sortedDeltas := sort R.bySequence deltas in
  (Forall validTimestamp deltas ->
   OrderBookResource.historyReconstructed toUpperCase this coin params options =
     Resolved (if match ReconstructOptions.emitAll options with
                  | Some b => b
                  | None => true
                  end
               then R.snapshotOf depth start :: snapshotsAlong depth start sortedDeltas
               else [R.snapshotOf depth (stateAfter start sortedDeltas)])) /\
  (Exists (fun delta => ~ validTimestamp delta) deltas ->
   OrderBookResource.historyReconstructed toUpperCase this coin params options =
     Rejected (OrderBookResource.Thrown RangeError)).
Proof.
  intros E Hc Hd depth start sortedDeltas.
  unfold OrderBookResource.historyReconstructed, OrderBookResource.historyTick.
  rewrite E, Hc, Hd. cbn [TickData.checkpoint TickData.deltas]. split.
  - intros Hv. destruct options as [d [[|] |]]; cbn in depth; subst depth.
    + rewrite (reconstructAll_emit _ _ _ R.new Hv) by discriminate. reflexivity.
    + rewrite reconstructAll_silent, (reconstructFinal_valid _ _ _ R.new Hv).
      reflexivity.
    + rewrite (reconstructAll_emit _ _ _ R.new Hv) by discriminate. reflexivity.
  - intros Hx.
    destruct (first_invalid _ (sort_invalid _ Hx)) as (good & bad & rest & Es & Hg & Hb).
    destruct (replay_abort checkpoint deltas good bad rest options None R.new Es Hg Hb)
      as [Ea _].
    rewrite Ea. reflexivity.
Qed.

(** X18, a concrete instance: a client that answers every request with a
    checkpoint and one delta. *)
Lemma X18_historyReconstructed_witness :
  let checkpoint := OrderBook.mk "BTC" "2024-01-01T00:00:00.000Z"
    [PriceLevel.mk "100" "2" one] [PriceLevel.mk "101" "3" one] None None None in
  let deltas := [OrderbookDelta.mk 1704067200001 bid 100 zero one] in
  let response := TickResponse.mk true (Some checkpoint) (Some deltas) None None None in
  let this := OrderBookResource.new unit (fun _ _ => Resolved response) None in
  let params := TickHistoryParams.mk (inl 1704067200000%float) (inl 1704067201000%float)
                  None in
  OrderBookResource.historyReconstructed (fun s => s) this "btc" params
    ReconstructOptions.empty =
  Resolved [R.snapshotOf None (loaded checkpoint);
            R.snapshotOf None (stateAfter (loaded checkpoint) deltas)].
Proof.
  intros checkpoint deltas response this params.
  assert (Hv : Forall validTimestamp deltas).
  { repeat constructor; unfold validTimestamp; vm_compute; discriminate. }
  destruct (X18_historyReconstructed unit (fun s => s) this "btc" params
              ReconstructOptions.empty response checkpoint deltas
              eq_refl eq_refl eq_refl) as [H _].
  rewrite (H Hv). reflexivity.
Defined.

(* ===================================================================== *)
(** * X19: deltas about different levels commute *)
(* ===================================================================== *)

(** X19: two deltas that are not about the same level (they differ in the
    side, or in the price as a [Map] key) can be applied in either order:
    on an instance without [NaN] prices, and for prices that are not [NaN],
    the snapshots after the two orders have the same bid levels, the same
    ask levels and the same metrics.  (Their timestamp and sequence number
    are those of the delta applied last.) *)
Theorem X19_deltas_on_different_levels_commute
    (this : R.t) (d1 d2 : OrderbookDelta.t) (depth : option number) :
  reachable this -> noNaNPrices this ->
  is_nan (OrderbookDelta.price d1) = false ->
  is_nan (OrderbookDelta.price d2) = false ->
  touches (OrderbookDelta.side d1) (OrderbookDelta.price d1) d2 = false ->
  let snapshot12 := R.snapshotOf depth (stateAfter this [d1; d2]) in
  let snapshot21 := R.snapshotOf depth (stateAfter this [d2; d1]) in
  OrderBook.bids snapshot12 = OrderBook.bids snapshot21 /\
  OrderBook.asks snapshot12 = OrderBook.asks snapshot21 /\
  OrderBook.midPrice snapshot12 = OrderBook.midPrice snapshot21 /\
  OrderBook.spread snapshot12 = OrderBook.spread snapshot21 /\
  OrderBook.spreadBps snapshot12 = OrderBook.spreadBps snapshot21.
Proof.
  intros Hr Hn N1 N2 Ht. cbv zeta. cbn [stateAfter fold_left].
  set (s1 := fst (R.applyDelta d1 this)).
  set (s2 := fst (R.applyDelta d2 this)).
  set (s12 := fst (R.applyDelta d2 s1)).
  set (s21 := fst (R.applyDelta d1 s2)).
  pose proof (reachable_wellFormed _ Hr) as W.
  assert (W1 : wellFormed s1) by apply wellFormed_applyDelta, W.
  assert (W2 : wellFormed s2) by apply wellFormed_applyDelta, W.
  assert (W12 : wellFormed s12) by apply wellFormed_applyDelta, W1.
  assert (W21 : wellFormed s21) by apply wellFormed_applyDelta, W2.
  assert (N12 : noNaNPrices s12)
    by (apply noNaNPrices_applyDelta; [|apply noNaNPrices_applyDelta]; assumption).
  assert (S : forall s k, mapGet k (bookOf s s12) = mapGet k (bookOf s s21)).
  { intros s k. unfold s12, s21, s1, s2. rewrite !applyDelta_get by assumption.
    destruct (touches s k d2) eqn:T2, (touches s k d1) eqn:T1; try reflexivity.
    exfalso. unfold touches in *.
    apply andb_true_iff in T1, T2. destruct T1 as [A1 K1], T2 as [A2 K2].
    apply sameSide_true in A1, A2. apply sameValueZero_spec in K1, K2.
    rewrite A1, A2 in Ht. destruct s; cbn [sameSide andb] in Ht;
      apply sameValueZero_false in Ht; congruence. }
  destruct W12 as [Wb12 Wa12], W21 as [Wb21 Wa21], N12 as [Nb Na].
  destruct (sameLevels_sorted _ _ Wb12 Wb21 Nb (S bid)) as [Eb _].
  destruct (sameLevels_sorted _ _ Wa12 Wa21 Na (S ask)) as [_ Ea].
  unfold R.snapshotOf.
  cbn [OrderBook.bids OrderBook.asks OrderBook.midPrice OrderBook.spread
       OrderBook.spreadBps ReconstructedOrderBook.book].
  rewrite Eb, Ea. repeat split.
Qed.

(** X19, a concrete instance: a removal on the bid side and an insert on
    the ask side. *)
Lemma X19_deltas_on_different_levels_commute_witness :
  let this := fst (R.initialize
    (OrderBook.mk "BTC" "2024-01-01T00:00:00.000Z"
       [PriceLevel.mk "100" "2" one] [PriceLevel.mk "101" "3" one] None None None)
    R.new) in
  let d1 := OrderbookDelta.mk 1704067200001 bid 100 zero one in
  let d2 := OrderbookDelta.mk 1704067200002 ask 102 5 2 in
  let snapshot12 := R.snapshotOf None (stateAfter this [d1; d2]) in
  let snapshot21 := R.snapshotOf None (stateAfter this [d2; d1]) in
  OrderBook.bids snapshot12 = OrderBook.bids snapshot21 /\
  OrderBook.asks snapshot12 = OrderBook.asks snapshot21 /\
  OrderBook.midPrice snapshot12 = OrderBook.midPrice snapshot21 /\
  OrderBook.spread snapshot12 = OrderBook.spread snapshot21 /\
  OrderBook.spreadBps snapshot12 = OrderBook.spreadBps snapshot21.
Proof.
  intros this d1 d2.
  apply (X19_deltas_on_different_levels_commute this d1 d2 None).
  - apply reachable_initialize, reachable_new.
  - split; repeat constructor.
  - reflexivity.
  - reflexivity.
  - reflexivity.
Defined.
